(** * tochd: job orchestration of the CHD batch converter

    A shallow embedding of [tochd.py] (classification of paths, the two
    sibling filters, the converter, the archive pipeline, the scheduler and
    the job messages) together with the properties of its specification.

    Python values are modelled as follows.
    - [str] is [string]; [int] is [Z]; [list] is [list]; [None] is [None].
    - a [pathlib.Path] is an absolute flag and the list of its components.
    - the effects of the program are threaded through a state made of the
      application object ([self], whose counters [message_job] mutates) and
      of the outside world: the files on disk with their sizes, the live
      temporary directories, the external processes spawned so far and the
      job messages printed so far.
    - a raised exception is the [Raise] result of the monad.
    - the external programs (chdman, 7z) and the creation of temporary
      directories, which fails under a directory that is not there, are
      parameters of the development. *)

From Stdlib Require Import String Ascii List ZArith QArith Bool Lia.
From Stdlib Require Import DecimalString.
Import ListNotations.

Local Open Scope string_scope.
Local Open Scope list_scope.
Local Open Scope Z_scope.

(** ** Strings *)

(** [str.lower] on the ASCII letters.  The only character outside ASCII
    whose lower case is an ASCII letter is the Kelvin sign (lower case k),
    and no extension of the table contains a k. *)
Definition lower_ascii (c : ascii) : ascii :=
  let n := nat_of_ascii c in
  if (andb (Nat.leb 65 n) (Nat.leb n 90)) then ascii_of_nat (n + 32) else c.

Fixpoint lower (s : string) : string :=
  match s with
  | EmptyString => EmptyString
  | String c s' => String (lower_ascii c) (lower s')
  end.

(** [s.lstrip(".")] *)
Fixpoint lstrip_dot (s : string) : string :=
  match s with
  | String c s' => if Ascii.eqb c "." then lstrip_dot s' else s
  | EmptyString => EmptyString
  end.

(** [s.rfind(c)], [None] standing for -1. *)
Fixpoint rfind (c : ascii) (s : string) : option nat :=
  match s with
  | EmptyString => None
  | String a s' =>
      match rfind c s' with
      | Some i => Some (S i)
      | None => if Ascii.eqb a c then Some O else None
      end
  end.

(** [sep.join(l)] *)
Fixpoint join (sep : string) (l : list string) : string :=
  match l with
  | [] => ""
  | [x] => x
  | x :: l' => (x ++ sep ++ join sep l')%string
  end.

(** [s.split(c)] for a one-character separator: [cur] is the piece being
    read, in reverse. *)
Fixpoint rev_string (acc s : string) : string :=
  match s with
  | EmptyString => acc
  | String c s' => rev_string (String c acc) s'
  end.

Fixpoint split_on (c : ascii) (cur : string) (s : string) : list string :=
  match s with
  | EmptyString => [rev_string "" cur]
  | String a s' =>
      if Ascii.eqb a c then rev_string "" cur :: split_on c "" s'
      else split_on c (String a cur) s'
  end.

Definition split (c : ascii) (s : string) : list string := split_on c "" s.

Fixpoint drop (n : nat) (s : string) : string :=
  match n, s with
  | O, _ => s
  | S n', String _ s' => drop n' s'
  | S _, EmptyString => EmptyString
  end.

(** The text that follows the first occurrence of [needle] in [s]. *)
Fixpoint find_after (needle s : string) : option string :=
  if prefix needle s then Some (drop (String.length needle) s)
  else match s with
       | EmptyString => None
       | String _ s' => find_after needle s'
       end.

Fixpoint contains_char (c : ascii) (s : string) : bool :=
  match s with
  | EmptyString => false
  | String a s' => Ascii.eqb a c || contains_char c s'
  end.

(** [str(n)] for an [int]. *)
Definition str_of_int (n : Z) : string := NilZero.string_of_int (Z.to_int n).

(** ** pathlib *)

Module pathlib.

(** A pure POSIX path: whether it starts at the root, and its components
    (the root itself is not a component). *)
Record Path : Type := mkPath { absolute : bool; parts : list string }.

Definition Path_eq_dec (p q : Path) : {p = q} + {p <> q}.
Proof.
  decide equality.
  - apply (list_eq_dec string_dec).
  - apply Bool.bool_dec.
Defined.

(** [Path(s)]: empty components and "." components are dropped.  A string
    that starts with exactly two slashes is read as one that starts with
    one: the separate root pathlib keeps for it is not modelled. *)
Definition Path_of_string (s : string) : Path :=
  mkPath (prefix "/" s)
         (filter (fun c => negb (String.eqb c "" || String.eqb c ".")) (split "/" s)).

(** [p.name] *)
Definition name (p : Path) : string := last (parts p) "".

(** [p.parent] *)
Definition parent (p : Path) : Path := mkPath (absolute p) (removelast (parts p)).

(** [p.suffix]: [name[i:]] when [0 < i < len(name) - 1] for [i] the last
    dot of the name, and the empty string otherwise. *)
Definition suffix (p : Path) : string :=
  let n := name p in
  match rfind "." n with
  | Some i =>
      if andb (Nat.ltb 0 i) (Nat.ltb i (String.length n - 1))
      then substring i (String.length n - i) n
      else ""
  | None => ""
  end.

(** [p.as_posix()] *)
Definition as_posix (p : Path) : string :=
  if absolute p then ("/" ++ join "/" (parts p))%string
  else match parts p with
       | [] => "."
       | _ => join "/" (parts p)
       end.

(** [p.joinpath(q)], also [p / q]: an absolute [q] replaces [p]. *)
Definition joinpath (p q : Path) : Path :=
  if absolute q then q else mkPath (absolute p) (parts p ++ parts q).

(** [p.with_suffix(s)] for a valid suffix [s]; [None] is the ValueError on
    a path with an empty name. *)
Definition with_suffix (p : Path) (s : string) : option Path :=
  let n := name p in
  if String.eqb n "" then None
  else
    let old_suffix := suffix p in
    let n' := if String.eqb old_suffix "" then (n ++ s)%string
              else (substring 0 (String.length n - String.length old_suffix) n ++ s)%string in
    Some (mkPath (absolute p) (removelast (parts p) ++ [n'])).

(** [p.with_name(n)]; [None] is the ValueError on a path with an empty name
    or on a name that is not exactly one component. *)
Definition valid_name (n : string) : bool :=
  negb (String.eqb n "") && negb (contains_char "/" n) && negb (String.eqb n ".").

Definition with_name (p : Path) (n : string) : option Path :=
  if String.eqb (name p) "" then None
  else if valid_name n then Some (mkPath (absolute p) (removelast (parts p) ++ [n]))
  else None.

End pathlib.
Import pathlib.

(** ** Files and their types *)

(** The keys of [App.types]. *)
Inductive FileType : Type := sheet | image | archive.

Definition FileType_eqb (a b : FileType) : bool :=
  match a, b with
  | sheet, sheet | image, image | archive, archive => true
  | _, _ => false
  end.

(** [App.types], in the order of the dictionary. *)
Definition types : list (FileType * list string) :=
  [ (sheet, ["gdi"; "cue"]);
    (image, ["iso"]);
    (archive, ["7z"; "zip"; "gz"; "gzip"; "bz2"; "bzip2"; "rar"; "tar"]) ].

Definition mem_string (s : string) (l : list string) : bool :=
  existsb (String.eqb s) l.

(** The loop of [App.match_type] over the items of the table. *)
Fixpoint match_type_items (suffix : string) (items : list (FileType * list string))
  : option FileType :=
  match items with
  | [] => None
  | (file_type, extensions) :: items' =>
      if mem_string suffix extensions then Some file_type
      else match_type_items suffix items'
  end.

(** [App.match_type] *)
Definition match_type (path : Path) : option FileType :=
  if negb (String.eqb (suffix path) "") then
    let suffix := lstrip_dot (lower (suffix path)) in
    match_type_items suffix types
  else None.

(** The attributes of a [File].  [tempdir] holds the name of the
    [TemporaryDirectory]; whether that directory is still there is part of
    the world. *)
Record File : Type := mkFile {
  input : Path;
  output : Path;
  type : option FileType;
  tempdir : option string
}.

Definition has_type (t : FileType) (f : File) : bool :=
  match type f with
  | Some t' => FileType_eqb t' t
  | None => false
  end.

Definition in_dirs (p : Path) (dirs : list Path) : bool :=
  if in_dec Path_eq_dec p dirs then true else false.

(** [filter_other_in_gdi_dirs] *)
Definition filter_other_in_gdi_dirs (list_of_files : list File) : list File :=
  let gdi_dirs :=
    map (fun f => parent (input f))
        (filter (fun f => String.eqb (suffix (input f)) ".gdi") list_of_files) in
  match gdi_dirs with
  | _ :: _ =>
      filter (fun file =>
                negb (in_dirs (parent (input file)) gdi_dirs)
                || String.eqb (suffix (input file)) ".gdi")
             list_of_files
  | [] => list_of_files
  end.

(** [filter_images_in_sheet_dirs] *)
Definition filter_images_in_sheet_dirs (list_of_files : list File) : list File :=
  let sheet_dirs :=
    map (fun f => parent (input f)) (filter (has_type sheet) list_of_files) in
  match sheet_dirs with
  | _ :: _ =>
      filter (fun file =>
                negb (in_dirs (parent (input file)) sheet_dirs
                      && String.eqb (suffix (input file)) ".iso"))
             list_of_files
  | [] => list_of_files
  end.

(** ** The application object and the world *)

(** The three values argparse accepts for [--mode]. *)
Inductive Mode : Type := mode_auto | mode_cd | mode_dvd.

(** The attributes of [App] that the conversion reads or writes;
    [chdman] and [p7z] are the two entries of [self.programs] it uses. *)
Record App : Type := mkApp {
  mode : Mode;
  chdman : Path;
  p7z : Path;
  output_dir : option Path;
  temp_path : option Path;
  no_rename : bool;
  chd_processors : Z;
  parallel : bool;
  threads : Z;
  quiet : bool;
  names : bool;
  dry_run : bool;
  stats_started : Z;
  stats_skipped : Z;
  stats_failed : Z;
  stats_completed : Z
}.

(** The four messages [message_job] is called with. *)
Inductive Message : Type := Started | Skipped | Failed | Completed.

(** One printed job line: [Job {job_index} {message}: {path_msg}]. *)
Record Event : Type := mkEvent {
  ev_message : Message;
  ev_path_msg : string;
  ev_job_index : Z
}.

(** One call of [subprocess.run]: the command, and whether stdout and
    stderr are piped ([subprocess.PIPE]) or inherited ([None]). *)
Record Spawn : Type := mkSpawn {
  command : list string;
  stdout_pipe : bool;
  stderr_pipe : bool
}.

Record CompletedProcess : Type := mkCompleted {
  returncode : Z;
  stdout : string
}.

(** The files on disk, each with its size in bytes.  Directories are not
    part of it: [exists], [unlink] and [shutil.move] are those of plain
    files. *)
Definition FS : Type := list (Path * Z).

Record World : Type := mkWorld {
  fs : FS;
  tempdirs : list string;   (* the TemporaryDirectory objects not yet cleaned up *)
  procs : list Spawn;       (* the external processes run so far *)
  out : list Event          (* the job lines printed so far *)
}.

Definition set_fs (f : FS) (w : World) : World :=
  mkWorld f (tempdirs w) (procs w) (out w).

Definition path_eqb (p q : Path) : bool :=
  if Path_eq_dec p q then true else false.

Fixpoint fs_stat (p : Path) (f : FS) : option Z :=
  match f with
  | [] => None
  | (q, size) :: f' => if path_eqb q p then Some size else fs_stat p f'
  end.

Definition fs_exists (p : Path) (f : FS) : bool :=
  match fs_stat p f with Some _ => true | None => false end.

Definition fs_unlink (p : Path) (f : FS) : FS :=
  filter (fun e => negb (path_eqb (fst e) p)) f.

Fixpoint is_prefix (l1 l2 : list string) : bool :=
  match l1, l2 with
  | [], _ => true
  | a :: l1', b :: l2' => String.eqb a b && is_prefix l1' l2'
  | _ :: _, [] => false
  end.

(** Whether [p] lies in the directory tree of [d]. *)
Definition under (d p : Path) : bool :=
  Bool.eqb (absolute d) (absolute p) && is_prefix (parts d) (parts p).

Definition fs_rmtree (d : Path) (f : FS) : FS :=
  filter (fun e => negb (under d (fst e))) f.

(** ** The monad of the methods: state and exceptions *)

Inductive Exn : Type := ValueError | FileNotFoundError | AttributeError.

Inductive Result (A : Type) : Type :=
| Ok (a : A)
| Raise (e : Exn).
Arguments Ok {A} a.
Arguments Raise {A} e.

Definition M (A : Type) : Type := App -> World -> Result A * App * World.

Definition ret {A : Type} (a : A) : M A := fun self w => (Ok a, self, w).

Definition raise {A : Type} (e : Exn) : M A := fun self w => (Raise e, self, w).

Definition bind {A B : Type} (m : M A) (k : A -> M B) : M B :=
  fun self w =>
    match m self w with
    | (Ok a, self', w') => k a self' w'
    | (Raise e, self', w') => (Raise e, self', w')
    end.

Declare Scope py_scope.
Delimit Scope py_scope with py.
Notation "x <- c1 ;; c2" := (bind c1 (fun x => c2))
  (at level 61, c1 at next level, right associativity) : py_scope.
Notation "c1 ;; c2" := (bind c1 (fun _ => c2))
  (at level 61, right associativity) : py_scope.
Local Open Scope py_scope.

Definition get_self : M App := fun self w => (Ok self, self, w).

Definition get_world : M World := fun self w => (Ok w, self, w).

Definition modify_world (f : World -> World) : M unit :=
  fun self w => (Ok tt, self, f w).

(** [p.exists()] *)
Definition path_exists (p : Path) : M bool :=
  w <- get_world ;; ret (fs_exists p (fs w)).

(** [p.unlink(missing_ok=True)] *)
Definition unlink (p : Path) : M unit :=
  modify_world (fun w => set_fs (fs_unlink p (fs w)) w).

(** [p.stat().st_size] *)
Definition st_size (p : Path) : M Z :=
  w <- get_world ;;
  match fs_stat p (fs w) with
  | Some size => ret size
  | None => raise FileNotFoundError
  end.

(** [shutil.move(src, dst)] between two file paths: a missing source
    raises, an existing destination is replaced. *)
Definition move (src dst : Path) : M unit :=
  size <- st_size src ;;
  modify_world (fun w => set_fs ((dst, size) :: fs_unlink dst (fs_unlink src (fs w))) w).

Section Tochd.

(** The behaviour of the external programs: from the processes run so far,
    the call and the files on disk, the completed process and the files it
    leaves. *)
Variable run_process : list Spawn -> Spawn -> FS -> CompletedProcess * FS.

(** [tempfile.mkdtemp(dir=dir)]: from the files on disk and the live
    temporary directories, the name of the new directory created under
    [dir], or [None] when it cannot be created there: [dir] is not an
    existing directory, and [tempfile] raises [FileNotFoundError]. *)
Variable mkdtemp : FS -> list string -> Path -> option string.

(** [subprocess.run(command, stdout=..., stderr=..., text=True)] *)
Definition subprocess_run (cmd : list string) (so se : bool) : M CompletedProcess :=
  fun self w =>
    let sp := mkSpawn cmd so se in
    let '(completed, fs') := run_process (procs w) sp (fs w) in
    (Ok completed, self, mkWorld fs' (tempdirs w) (procs w ++ [sp]) (out w)).

(** [TemporaryDirectory(dir=dir)]; the result is its [name].  It raises
    [FileNotFoundError] when the directory cannot be created under [dir].
    [tempdirs] records the objects created and not cleaned up by a call of
    [cleanup]; an object that the program drops is removed by its finalizer,
    at a time the program does not decide, and stays in [tempdirs]. *)
Definition TemporaryDirectory (dir : Path) : M string :=
  fun self w =>
    match mkdtemp (fs w) (tempdirs w) dir with
    | Some n => (Ok n, self, mkWorld (fs w) (n :: tempdirs w) (procs w) (out w))
    | None => (Raise FileNotFoundError, self, w)
    end.

(** [tempdir.cleanup()]: the directory and all it contains are removed. *)
Definition cleanup (n : string) : M unit :=
  modify_world (fun w =>
    mkWorld (fs_rmtree (Path_of_string n) (fs w))
            (filter (fun m => negb (String.eqb m n)) (tempdirs w))
            (procs w) (out w)).

(** [File.__init__] *)
Definition File_init (input_path : Path) (dir_path temp_path : option Path) : M File :=
  let output :=
    match dir_path with
    | Some d => joinpath d (Path_of_string (name input_path))
    | None => input_path
    end in
  match with_suffix output ".chd" with
  | None => raise ValueError
  | Some output' =>
      let t := match_type input_path in
      match t with
      | Some archive =>
          n <- TemporaryDirectory
                 (match temp_path with
                  | Some tp => tp
                  | None => parent output'
                  end) ;;
          ret (mkFile input_path output' t (Some n))
      | _ => ret (mkFile input_path output' t None)
      end
  end.

(** Rounding of the fraction [n / d] to the nearest integer, ties to the
    even one ([d] positive). *)
Definition round_half_even (n d : Z) : Z :=
  let q := n / d in
  let r := n mod d in
  if 2 * r <? d then q
  else if d <? 2 * r then q + 1
  else if Z.even q then q else q + 1.

(** [round(x, 3)].  Python rounds the exact value of the float [x] to three
    decimals, ties to even, and returns the float nearest to the result:
    the rational [k / 1000] returned here stands for the float nearest to
    it.  The order of two results and the comparison of a result with an
    integer are those of the floats; the distance between the float and
    [k / 1000] is left out. *)
Definition round3 (x : Q) : Q :=
  Qmake (round_half_even (Qnum x * 1000) (Zpos (Qden x))) 1000.

Definition exponents_map : list (string * Z) :=
  [("B", 0); ("KB", 1); ("MB", 2); ("GB", 3)].

Fixpoint dict_get (k : string) (d : list (string * Z)) : option Z :=
  match d with
  | [] => None
  | (k', v) :: d' => if String.eqb k' k then Some v else dict_get k d'
  end.

(** [File.get_size].  The float division of a size below 2^53 by a power
    of 1024 is exact, so the quotient is a rational here; the result is a
    number of thousandths, standing for the float nearest to it (see
    [round3]), which compares with 750 as its exact value does.  A size of
    2^53 bytes or more, which the division itself would round, is outside
    the model. *)
Definition get_size (self : File) (unit : string) : M Q :=
  match dict_get unit exponents_map with
  | None => raise ValueError
  | Some e =>
      file_size <- st_size (input self) ;;
      if String.eqb unit "bytes" then ret (inject_Z file_size)
      else
        let size := Qdiv (inject_Z file_size) (inject_Z (1024 ^ e)) in
        ret (round3 size)
  end.

(** The counting of [App.message_job]. *)
Definition count_message (message : Message) (self : App) : App :=
  match message with
  | Started =>
      mkApp (mode self) (chdman self) (p7z self) (output_dir self) (temp_path self)
            (no_rename self) (chd_processors self) (parallel self) (threads self)
            (quiet self) (names self) (dry_run self)
            (stats_started self + 1) (stats_skipped self)
            (stats_failed self) (stats_completed self)
  | Skipped =>
      mkApp (mode self) (chdman self) (p7z self) (output_dir self) (temp_path self)
            (no_rename self) (chd_processors self) (parallel self) (threads self)
            (quiet self) (names self) (dry_run self)
            (stats_started self) (stats_skipped self + 1)
            (stats_failed self) (stats_completed self)
  | Failed =>
      mkApp (mode self) (chdman self) (p7z self) (output_dir self) (temp_path self)
            (no_rename self) (chd_processors self) (parallel self) (threads self)
            (quiet self) (names self) (dry_run self)
            (stats_started self) (stats_skipped self)
            (stats_failed self + 1) (stats_completed self)
  | Completed =>
      mkApp (mode self) (chdman self) (p7z self) (output_dir self) (temp_path self)
            (no_rename self) (chd_processors self) (parallel self) (threads self)
            (quiet self) (names self) (dry_run self)
            (stats_started self) (stats_skipped self)
            (stats_failed self) (stats_completed self + 1)
  end.

Definition print (e : Event) (w : World) : World :=
  mkWorld (fs w) (tempdirs w) (procs w) (out w ++ [e]).

(** [App.message_job].  Of the printed line
    [Job {job_index} {message}: {path_msg}] the three values are kept. *)
Definition message_job (message : Message) (path : Path) (job_index : Z) : M unit :=
  fun self w =>
    let self' := if negb (parallel self) then count_message message self else self in
    let path_msg := if names self then name path else as_posix path in
    (Ok tt, self', print (mkEvent message path_msg job_index) w).

(** [App.run_convert_process] *)
Definition run_convert_process (cmd : list string) : M CompletedProcess :=
  self <- get_self ;;
  if quiet self then subprocess_run cmd true true
  else if parallel self then subprocess_run cmd false true
  else subprocess_run cmd false false.

(** The command [App.convert_file] builds for chdman. *)
Definition chdman_command (file : File) : M (list string) :=
  self <- get_self ;;
  subcommand <-
    match mode self with
    | mode_auto =>
        size <- get_size file "MB" ;;
        if negb (Qle_bool size (inject_Z 750)) then ret ["createdvd"]
        else ret ["createcd"]
    | mode_cd => ret ["createcd"]
    | mode_dvd => ret ["createdvd"]
    end ;;
  ret ([as_posix (chdman self)] ++ subcommand
       ++ (if chd_processors self =? 0 then []
           else ["--numprocessors"; str_of_int (chd_processors self)])
       ++ ["--input"; as_posix (input file); "--output"; as_posix (output file)]).

(** [App.convert_file] *)
Definition convert_file (file : File) (job_index : Z) : M CompletedProcess :=
  (if job_index =? 0 then ret tt
   else message_job Started (input file) job_index) ;;
  cmd <- chdman_command file ;;
  completed <- run_convert_process cmd ;;
  (if job_index =? 0 then ret tt
   else
     present <- path_exists (output file) ;;
     if (returncode completed =? 0) && present
     then message_job Completed (output file) job_index
     else unlink (output file) ;;
          message_job Failed (output file) job_index) ;;
  ret completed.

(** [re.findall(r"Path = (.+)", text, re.M)]: on every line, what follows
    the first "Path = ", when something follows. *)
Definition findall_Path (text : string) : list string :=
  flat_map (fun line =>
              match find_after "Path = " line with
              | Some (String c rest) => [String c rest]
              | _ => []
              end)
           (split "010" text).

(** [archive.tempdir.name]; without a temporary directory the attribute
    access fails. *)
Definition tempdir_name (file : File) : M string :=
  match tempdir file with
  | Some n => ret n
  | None => raise AttributeError
  end.

Fixpoint mapM {A B : Type} (f : A -> M B) (l : list A) : M (list B) :=
  match l with
  | [] => ret []
  | a :: l' => b <- f a ;; bs <- mapM f l' ;; ret (b :: bs)
  end.

(** [App.listing_from_archive] *)
Definition listing_from_archive (file : File) : M (list File) :=
  self <- get_self ;;
  let cmd := [as_posix (p7z self); "l"; "-slt"; "-y"; as_posix (input file)] in
  completed <- subprocess_run cmd true true ;;
  if returncode completed =? 0 then
    let listing := findall_Path (stdout completed) in
    mapM (fun entry =>
            n <- tempdir_name file ;;
            File_init (joinpath (Path_of_string n) (Path_of_string entry)) None None)
         (tl listing)
  else ret [].

(** The member list of [App.convert_archive], from the listing. *)
Definition archive_members (archlist : list File) : list File :=
  let archlist := filter (fun f => has_type image f || has_type sheet f) archlist in
  let archlist := filter_other_in_gdi_dirs archlist in
  let archlist := filter_images_in_sheet_dirs archlist in
  match filter (has_type sheet) archlist with
  | _ :: _ => filter (fun f => negb (String.eqb (suffix (input f)) ".iso")) archlist
  | [] => archlist
  end.

Definition lift_option {A : Type} (e : Exn) (o : option A) : M A :=
  match o with
  | Some a => ret a
  | None => raise e
  end.

(** The body of the loop of [App.convert_archive] over the members. *)
Definition convert_member (archive : File) (job_index : Z) (file : File)
  : M CompletedProcess :=
  completed <- convert_file file 0 ;;
  self <- get_self ;;
  dest_path <-
    (if no_rename self
     then lift_option ValueError (with_name (output archive) (name (output file)))
     else ret (output archive)) ;;
  unlink dest_path ;;
  (if returncode completed =? 0 then
     move (output file) dest_path ;;
     present <- path_exists dest_path ;;
     if present then message_job Completed dest_path job_index else ret tt
   else message_job Failed dest_path job_index) ;;
  ret completed.

Fixpoint convert_members (archive : File) (job_index : Z) (archlist : list File)
  (completed : CompletedProcess) : M CompletedProcess :=
  match archlist with
  | [] => ret completed
  | file :: archlist' =>
      completed' <- convert_member archive job_index file ;;
      convert_members archive job_index archlist' completed'
  end.

(** The command [App.convert_archive] builds for the extraction. *)
Definition extract_command (archive : File) : M (list string) :=
  self <- get_self ;;
  n <- tempdir_name archive ;;
  ret ([as_posix (p7z self); "x"]
       ++ (if quiet self || parallel self then ["-y"] else [])
       ++ (if parallel self then ["-bd"] else [])
       ++ [("-o" ++ n)%string; as_posix (input archive)]).

(** [App.convert_archive] *)
Definition convert_archive (archive : File) (job_index : Z)
  : M (option CompletedProcess) :=
  message_job Started (input archive) job_index ;;
  archlist <- listing_from_archive archive ;;
  let archlist := archive_members archlist in
  match archlist with
  | [] =>
      message_job Failed (output archive) job_index ;;
      ret None
  | _ :: _ =>
      cmd <- extract_command archive ;;
      completed <- run_convert_process cmd ;;
      completed' <-
        (if returncode completed =? 0
         then convert_members archive job_index archlist completed
         else message_job Failed (output archive) job_index ;;
              ret completed) ;;
      n <- tempdir_name archive ;;
      cleanup n ;;
      ret (Some completed')
  end.

(** A call submitted to the pool with [apply_async]. *)
Inductive Job : Type :=
| Job_convert_file (file : File) (job_index : Z)
| Job_convert_archive (file : File) (job_index : Z).

(** The body of the loop of [App.convert]; [pool] is the queue of the calls
    submitted so far. *)
Definition convert_entry (file : File) (job_index : Z) (pool : list Job)
  : M (list Job) :=
  self <- get_self ;;
  if dry_run self then
    message_job Skipped (input file) job_index ;; ret pool
  else
    present <- path_exists (output file) ;;
    if present then
      message_job Skipped (input file) job_index ;; ret pool
    else if has_type image file || has_type sheet file then
      if parallel self then ret (pool ++ [Job_convert_file file job_index])
      else convert_file file job_index ;; ret pool
    else if has_type archive file then
      if parallel self then ret (pool ++ [Job_convert_archive file job_index])
      else convert_archive file job_index ;; ret pool
    else
      message_job Skipped (input file) job_index ;; ret pool.

Fixpoint convert_loop (file_list : list File) (job_index last_index : Z)
  (pool : list Job) : M (Z * list Job) :=
  match file_list with
  | [] => ret (last_index, pool)
  | file :: file_list' =>
      pool' <- convert_entry file job_index pool ;;
      convert_loop file_list' (job_index + 1) (job_index + 1) pool'
  end.

(** A worker runs a submitted call on its own copy of the application
    object; its result, or the exception it raised, stays in a result
    object that nobody reads.  What it does to the world remains. *)
Definition run_job (j : Job) : M unit :=
  fun self w =>
    match j with
    | Job_convert_file file job_index =>
        let '(_, _, w') := convert_file file job_index self w in (Ok tt, self, w')
    | Job_convert_archive file job_index =>
        let '(_, _, w') := convert_archive file job_index self w in (Ok tt, self, w')
    end.

(** [pool.close(); pool.join()]: the submitted calls are run one after
    another, in the order of submission, which is one of the schedules of
    the pool. *)
Fixpoint pool_join (pool : list Job) : M unit :=
  match pool with
  | [] => ret tt
  | j :: pool' => run_job j ;; pool_join pool'
  end.

(** [App.convert].  The pool, whatever the number of its workers, is the
    queue of the calls submitted to it. *)
Definition convert (file_list : list File) (start_index : Z) : M Z :=
  r <- convert_loop file_list start_index start_index [] ;;
  self <- get_self ;;
  (if parallel self then pool_join (snd r) else ret tt) ;;
  ret (fst r).

End Tochd.


(** ** Discovery of the input files *)

Section Discovery.

Variable mkdtemp : FS -> list string -> Path -> option string.

(** [fullpath]: the expansion of the variables and of the tilde and the
    resolution of a name, which depend on the environment and the disk. *)
Variable fullpath : World -> string -> Path.

(** [path.is_dir()] and [list(path.iterdir())], which depend on the disk. *)
Variable is_dir : World -> Path -> bool.
Variable iterdir : World -> Path -> list Path.

(** [App.exclude_hidden] *)
Definition exclude_hidden : bool := true.

(** [App.get_supported_file] *)
Definition get_supported_file (path : Path) : M (option File) :=
  self <- get_self ;;
  if negb (exclude_hidden && prefix "." (name path)) then
    file <- File_init mkdtemp path (output_dir self) (temp_path self) ;;
    match type file with
    | Some _ => ret (Some file)
    | None => ret None
    end
  else ret None.

(** [new_list.append(supported)] under [if supported]. *)
Definition append_supported (new_list : list File) (supported : option File)
  : list File :=
  match supported with
  | Some file => new_list ++ [file]
  | None => new_list
  end.

(** The loop of [App.get_files] over the entries of a directory. *)
Fixpoint get_files_dir (entries : list Path) (new_list : list File) : M (list File) :=
  match entries with
  | [] => ret new_list
  | dir_entry :: entries' =>
      supported <- get_supported_file dir_entry ;;
      get_files_dir entries' (append_supported new_list supported)
  end.

(** The loop of [App.get_files] over the names. *)
Fixpoint get_files_loop (files : list string) (new_list : list File) : M (list File) :=
  match files with
  | [] => ret new_list
  | file :: files' =>
      w <- get_world ;;
      let path := fullpath w file in
      new_list' <-
        (if fs_exists path (fs w) then
           supported <- get_supported_file path ;;
           ret (append_supported new_list supported)
         else if is_dir w path then get_files_dir (iterdir w path) new_list
         else ret new_list) ;;
      get_files_loop files' new_list'
  end.

(** [App.get_files] *)
Definition get_files (files : list string) : M (list File) :=
  new_list <- get_files_loop files [] ;;
  let new_list := filter_other_in_gdi_dirs new_list in
  let new_list := filter_images_in_sheet_dirs new_list in
  ret new_list.

End Discovery.
(** ** Definitions for the statements and the examples *)

(** The extension the classifier looks up: the suffix in lower case, its
    leading dot stripped. *)
Definition extension (path : Path) : string := lstrip_dot (lower (suffix path)).

Definition result_of {A : Type} (r : Result A * App * World) : Result A := fst (fst r).
Definition app_of {A : Type} (r : Result A * App * World) : App := snd (fst r).
Definition world_of {A : Type} (r : Result A * App * World) : World := snd r.

(** A sequence of calls of [message_job]. *)
Fixpoint message_jobs (calls : list (Message * Path * Z)) : M unit :=
  match calls with
  | [] => ret tt
  | (message, path, job_index) :: calls' =>
      message_job message path job_index ;; message_jobs calls'
  end.

(** The path shown by [message_job]. *)
Definition path_msg (self : App) (path : Path) : string :=
  if names self then name path else as_posix path.

(** The process [App.run_convert_process] starts for a command. *)
Definition convert_spawn (self : App) (cmd : list string) : Spawn :=
  mkSpawn cmd (quiet self) (quiet self || parallel self).

(** The process [App.listing_from_archive] starts. *)
Definition listing_spawn (self : App) (file : File) : Spawn :=
  mkSpawn [as_posix (p7z self); "l"; "-slt"; "-y"; as_posix (input file)] true true.

(** The sub-command of a chdman call, and whether a call is an extraction. *)
Definition subcommand (sp : Spawn) : string := nth 1 (command sp) "".

Definition is_extraction (sp : Spawn) : bool := String.eqb (subcommand sp) "x".

(** *** A concrete run *)

(** A file as [File] builds it for the input path [p] without output
    directory; an archive gets the temporary directory [n]. *)
Definition entry_in (n : option string) (p : string) : File :=
  let path := Path_of_string p in
  mkFile path
         (match with_suffix path ".chd" with Some o => o | None => path end)
         (match_type path)
         (match match_type path with Some archive => n | _ => None end).

Definition entry (p : string) : File := entry_in None p.

Definition example_app (m : Mode) (no_rename parallel dry_run : bool) : App :=
  mkApp m (Path_of_string "/usr/bin/chdman") (Path_of_string "/usr/bin/7z")
        None None no_rename 0 parallel 2 false false dry_run 0 0 0 0.

Definition example_world (f : FS) (live : list string) : World := mkWorld f live [] [].

(** External programs that work: 7z lists [listing] and extracts
    [extracted], chdman exits with [rc] and writes its output file. *)
Definition working_tools (listing : string) (extracted : FS) (rc : Z)
  : list Spawn -> Spawn -> FS -> CompletedProcess * FS :=
  fun _ sp f =>
    if String.eqb (subcommand sp) "l" then (mkCompleted 0 listing, f)
    else if String.eqb (subcommand sp) "x" then (mkCompleted 0 "", extracted ++ f)
    else (mkCompleted rc "", (Path_of_string (last (command sp) ""), 1) :: f).

(** External programs that exit with status 2 and touch nothing. *)
Definition broken_tools : list Spawn -> Spawn -> FS -> CompletedProcess * FS :=
  fun _ _ f => (mkCompleted 2 "", f).

(** The directories of the examples; a live temporary directory is a
    directory too.  A temporary directory is created under a directory that
    is there, and under no other. *)
Definition example_dirs : list string := ["/d"; "/roms"; "/out"].

Definition example_mkdtemp : FS -> list string -> Path -> option string :=
  fun _ live dir =>
    if existsb (String.eqb (as_posix dir)) (example_dirs ++ live)
    then Some (as_posix dir ++ "/tmp" ++ str_of_int (Z.of_nat (List.length live)))%string
    else None.

(** The listing 7z prints for game.7z holding track.iso. *)
Definition example_listing : string :=
  "Path = /d/game.7z
Type = 7z

Path = track.iso
Size = 1
".

(** The application object after [message_job]. *)
Definition counted (message : Message) (self : App) : App :=
  if negb (parallel self) then count_message message self else self.

(** The line [message_job] prints. *)
Definition job_line (self : App) (message : Message) (path : Path) (job_index : Z)
  : Event :=
  mkEvent message (path_msg self path) job_index.

(** The command of chdman with a given sub-command. *)
Definition chdman_line (self : App) (file : File) (sub : string) : list string :=
  [as_posix (chdman self); sub]
  ++ (if chd_processors self =? 0 then []
      else ["--numprocessors"; str_of_int (chd_processors self)])
  ++ ["--input"; as_posix (input file); "--output"; as_posix (output file)].

(** The sub-command [App.convert_file] chooses, where it chooses one: under
    [auto] the input file must be there to be measured. *)
Definition chosen_subcommand (self : App) (file : File) (f : FS) : option string :=
  match mode self with
  | mode_cd => Some "createcd"
  | mode_dvd => Some "createdvd"
  | mode_auto =>
      match fs_stat (input file) f with
      | Some size =>
          Some (if 750000 <? round_half_even (size * 1000) (1024 ^ 2)
                then "createdvd" else "createcd")
      | None => None
      end
  end.

(** The archive /d/game.7z with its temporary directory /d/tmp0, the tools
    that list and extract its member track.iso, and the world before the
    job. *)
Definition example_game : File := entry_in (Some "/d/tmp0") "/d/game.7z".

Definition example_tools : list Spawn -> Spawn -> FS -> CompletedProcess * FS :=
  working_tools example_listing [(Path_of_string "/d/tmp0/track.iso", 1)] 0.

Definition example_world0 : World :=
  example_world [(Path_of_string "/d/game.7z", 10)] ["/d/tmp0"].

(** The listing 7z prints for an archive that holds a text file only. *)
Definition example_listing_unsupported : string :=
  "Path = /d/game.7z
Type = 7z

Path = readme.txt
Size = 1
".

(** A computation that leaves the application object as it found it
    whenever parallel mode is on. *)
Definition keeps_self {A : Type} (m : M A) : Prop :=
  forall self w, parallel self = true -> app_of (m self w) = self.

(** *** Definitions for the further properties *)

(** The application object after the lines [evs] have been printed. *)
Definition tally (evs : list Event) (self : App) : App :=
  fold_left (fun s e => counted (ev_message e) s) evs self.

(** The number of lines of one kind. *)
Definition count_of (message : Message) (evs : list Event) : Z :=
  Z.of_nat (List.length
              (filter (fun e => match message, ev_message e with
                                | Started, Started | Skipped, Skipped
                                | Failed, Failed | Completed, Completed => true
                                | _, _ => false
                                end) evs)).

(** A computation started in the state [self], [w] only appends lines to
    the output, the lines it appends satisfy [R], and the application
    object counts them. *)
Definition trace_at {A : Type} (R : list Event -> Prop) (m : M A)
  (self : App) (w : World) : Prop :=
  exists evs,
    out (world_of (m self w)) = out w ++ evs
    /\ R evs
    /\ app_of (m self w) = tally evs self.

Definition trace {A : Type} (R : list Event -> Prop) (m : M A) : Prop :=
  forall self w, trace_at R m self w.

(** A computation that prints nothing and leaves the application object as
    it is. *)
Definition silent {A : Type} (m : M A) : Prop :=
  forall self w, out (world_of (m self w)) = out w /\ app_of (m self w) = self.

(** Lines that open a job, and lines that close the job [job_index]. *)
Definition opening (e : Event) : Prop :=
  ev_message e = Started \/ ev_message e = Skipped.

Definition closing (job_index : Z) (e : Event) : Prop :=
  (ev_message e = Failed \/ ev_message e = Completed)
  /\ ev_job_index e = job_index.

(** The lines of one job: one line that opens it, then lines that close
    it, all with its index. *)
Definition job_lines (job_index : Z) (evs : list Event) : Prop :=
  exists e rest,
    evs = e :: rest
    /\ opening e /\ ev_job_index e = job_index
    /\ Forall (closing job_index) rest.

(** The text of a listing made of the given lines. *)
Definition unlines (lines : list string) : string := join "
" lines.

(** What [findall_Path] takes from one line. *)
Definition captured (line : string) : list string :=
  match find_after "Path = " line with
  | Some (String c rest) => [String c rest]
  | _ => []
  end.

(** A computation that removes no temporary directory. *)
Definition grows {A : Type} (m : M A) : Prop :=
  forall self w, incl (tempdirs w) (tempdirs (world_of (m self w))).

(** The command of the extraction into the temporary directory [n]. *)
Definition extract_line (self : App) (archive : File) (n : string) : list string :=
  [as_posix (p7z self); "x"]
  ++ (if quiet self || parallel self then ["-y"] else [])
  ++ (if parallel self then ["-bd"] else [])
  ++ [("-o" ++ n)%string; as_posix (input archive)].

(** What every file of the queue satisfies: it has the type of its input,
    which is a supported one; its name does not start with a dot; its
    output has the suffix .chd. *)
Definition queued (f : File) : Prop :=
  type f = match_type (input f)
  /\ type f <> None
  /\ prefix "." (name (input f)) = false
  /\ suffix (output f) = ".chd".

(** A disk for the examples of the discovery: names are paths as they are
    written, /roms is the only directory. *)
Definition example_fullpath : World -> string -> Path := fun _ s => Path_of_string s.

Definition example_is_dir : World -> Path -> bool :=
  fun _ p => path_eqb p (Path_of_string "/roms").

Definition example_iterdir : World -> Path -> list Path :=
  fun _ p =>
    if path_eqb p (Path_of_string "/roms")
    then map Path_of_string ["/roms/b.cue"; "/roms/b.iso"; "/roms/c.ISO";
                             "/roms/.hidden.iso"; "/roms/notes.txt"; "/roms/sub"]
    else [].

(** The path and the file of the entry [e] of a listing, for an archive
    whose temporary directory is [n]: the file as [File] builds it when
    the entry is not itself an archive. *)
Definition member_path (n e : string) : Path :=
  joinpath (Path_of_string n) (Path_of_string e).

Definition member (n e : string) : File :=
  let p := member_path n e in
  mkFile p (match with_suffix p ".chd" with Some o => o | None => p end)
         (match_type p) None.

(** An entry of a listing with a name, which is not an archive. *)
Definition plain_member (n e : string) : Prop :=
  name (member_path n e) <> "" /\ match_type (member_path n e) <> Some archive.

(** The listing 7z prints for an archive that holds another archive, in a
    sub-directory. *)
Definition example_listing_nested : string :=
  "Path = /d/game.7z
Type = 7z

Path = sub/inner.zip
Size = 1
".

(** The listing 7z prints for an archive that holds another archive, at
    its top. *)
Definition example_listing_inner : string :=
  "Path = /d/game.7z
Type = 7z

Path = inner.zip
Size = 1
".

(** [App.convert] from the entry [job_index] on, the calls submitted so
    far being [pool]: the rest of the loop, then the pool. *)
Definition convert_tail
  (run_process : list Spawn -> Spawn -> FS -> CompletedProcess * FS)
  (mkdtemp : FS -> list string -> Path -> option string)
  (file_list : list File) (job_index : Z) (pool : list Job) : M Z :=
  r <- convert_loop run_process mkdtemp file_list job_index job_index pool ;;
  self <- get_self ;;
  (if parallel self then pool_join run_process mkdtemp (snd r) else ret tt) ;;
  ret (fst r).
(** * Properties *)

(** ** Classification *)

Lemma match_type_extension (path : Path) :
  match_type path = match_type_items (extension path) types.
Proof.
  unfold match_type, extension.
  destruct (String.eqb_spec (suffix path) "") as [E | E]; simpl.
  - rewrite E. reflexivity.
  - reflexivity.
Qed.

Ltac split_on_extension e x :=
  destruct (String.eqb_spec e x) as [-> | ?];
  [ simpl; repeat split; intros; try reflexivity; try discriminate;
    try (intuition (discriminate || congruence || auto)) | ].

Lemma match_type_items_table (e : string) :
  (match_type_items e types = Some sheet <-> In e ["gdi"; "cue"])
  /\ (match_type_items e types = Some image <-> e = "iso")
  /\ (match_type_items e types = Some archive
      <-> In e ["7z"; "zip"; "gz"; "gzip"; "bz2"; "bzip2"; "rar"; "tar"])
  /\ (match_type_items e types = None
      <-> ~ In e ["gdi"; "cue"; "iso"; "7z"; "zip"; "gz"; "gzip"; "bz2"; "bzip2";
                  "rar"; "tar"]).
Proof.
  split_on_extension e "gdi".
  split_on_extension e "cue".
  split_on_extension e "iso".
  split_on_extension e "7z".
  split_on_extension e "zip".
  split_on_extension e "gz".
  split_on_extension e "gzip".
  split_on_extension e "bz2".
  split_on_extension e "bzip2".
  split_on_extension e "rar".
  split_on_extension e "tar".
  assert (H : match_type_items e types = None).
  { unfold types, match_type_items, mem_string, existsb.
    repeat match goal with
           | N : e <> ?x |- context [String.eqb e ?x] =>
               rewrite (proj2 (String.eqb_neq e x) N)
           end.
    reflexivity. }
  rewrite H. simpl.
  repeat split; intros; try discriminate; try reflexivity;
    try (intuition congruence).
Qed.

(** C8.  The classifier depends on the path through its extension only (the
    suffix in lower case without its leading dot), and follows the table:
    gdi and cue are sheets, iso is an image, 7z, zip, gz, gzip, bz2, bzip2,
    rar and tar are archives, every other extension is unsupported, and so
    is a path without a suffix. *)
Theorem match_type_table (path : Path) :
  (forall path', extension path' = extension path ->
                 match_type path' = match_type path)
  /\ (match_type path = Some sheet <-> In (extension path) ["gdi"; "cue"])
  /\ (match_type path = Some image <-> extension path = "iso")
  /\ (match_type path = Some archive
      <-> In (extension path)
             ["7z"; "zip"; "gz"; "gzip"; "bz2"; "bzip2"; "rar"; "tar"])
  /\ (match_type path = None
      <-> ~ In (extension path)
               ["gdi"; "cue"; "iso"; "7z"; "zip"; "gz"; "gzip"; "bz2"; "bzip2";
                "rar"; "tar"])
  /\ (suffix path = "" -> match_type path = None).
Proof.
  split.
  - intros path' E. rewrite !match_type_extension, E. reflexivity.
  - rewrite match_type_extension.
    destruct (match_type_items_table (extension path)) as (H1 & H2 & H3 & H4).
    repeat (split; [assumption | ]).
    intros E. unfold extension. rewrite E. reflexivity.
Qed.

(** A witness of the table: an upper case image and a file without suffix. *)
Lemma match_type_table_witness :
  match_type (Path_of_string "/roms/Game.ISO") = Some image
  /\ match_type (Path_of_string "/roms/README") = None.
Proof.
  split.
  - apply (proj1 (proj2 (proj2 (match_type_table (Path_of_string "/roms/Game.ISO"))))).
    reflexivity.
  - apply (proj2 (proj2 (proj2 (proj2 (proj2
             (match_type_table (Path_of_string "/roms/README"))))))).
    reflexivity.
Defined.

(** ** The two filters *)

Lemma in_dirs_true (p : Path) (dirs : list Path) :
  in_dirs p dirs = true <-> In p dirs.
Proof.
  unfold in_dirs. destruct (in_dec Path_eq_dec p dirs); split; intros;
    try discriminate; try reflexivity; try assumption; contradiction.
Qed.

Lemma in_dirs_false (p : Path) (dirs : list Path) :
  in_dirs p dirs = false <-> ~ In p dirs.
Proof.
  unfold in_dirs. destruct (in_dec Path_eq_dec p dirs); split; intros;
    try discriminate; try reflexivity; try assumption; contradiction.
Qed.

(** The directories a filter collects: the parents of the entries that
    satisfy its test. *)
Lemma in_collected_dirs (test : File -> bool) (l : list File) (d : Path) :
  In d (map (fun f => parent (input f)) (filter test l))
  <-> exists g, In g l /\ test g = true /\ parent (input g) = d.
Proof.
  rewrite in_map_iff. split.
  - intros (g & E & H). apply filter_In in H. destruct H as [H1 H2].
    exists g. auto.
  - intros (g & H1 & H2 & E). exists g. split; [assumption | ].
    apply filter_In. auto.
Qed.

(** The first pass keeps exactly the entries with the suffix .gdi and the
    entries of the directories without an entry with the suffix .gdi. *)
Lemma filter_other_in_gdi_dirs_In (l : list File) (f : File) :
  In f (filter_other_in_gdi_dirs l)
  <-> In f l
      /\ (suffix (input f) = ".gdi"
          \/ ~ exists g, In g l /\ suffix (input g) = ".gdi"
                         /\ parent (input g) = parent (input f)).
Proof.
  unfold filter_other_in_gdi_dirs.
  pose proof (in_collected_dirs
                (fun f => String.eqb (suffix (input f)) ".gdi") l) as D.
  set (gdi_dirs := map (fun f => parent (input f))
                       (filter (fun f => String.eqb (suffix (input f)) ".gdi") l)) in *.
  assert (S : forall d, In d gdi_dirs
                        <-> exists g, In g l /\ suffix (input g) = ".gdi"
                                      /\ parent (input g) = d).
  { intros d. rewrite D. split; intros (g & H1 & H2 & H3); exists g;
      (split; [assumption | split; [ | assumption]]).
    - apply String.eqb_eq. assumption.
    - apply String.eqb_eq. assumption. }
  clearbody gdi_dirs. clear D.
  destruct gdi_dirs as [ | d0 dirs].
  - split.
    + intros H. split; [assumption | ]. right. intros E.
      apply S in E. destruct E.
    + intros [H _]. assumption.
  - rewrite filter_In. split.
    + intros [H1 H2]. split; [assumption | ].
      apply orb_true_iff in H2. destruct H2 as [H2 | H2].
      * right. rewrite <- S. apply in_dirs_false.
        apply negb_true_iff. assumption.
      * left. apply String.eqb_eq. assumption.
    + intros [H1 H2]. split; [assumption | ].
      apply orb_true_iff. destruct H2 as [H2 | H2].
      * right. apply String.eqb_eq. assumption.
      * left. apply negb_true_iff. apply in_dirs_false. rewrite S. assumption.
Qed.

(** C7.  After the first pass an entry of the batch is retained exactly when
    it has the suffix .gdi or no entry of the batch with the suffix .gdi has
    its directory; of a.gdi, a.bin and a.cue in one directory only a.gdi
    remains. *)
Theorem filter_other_in_gdi_dirs_retained (l : list File) (f : File) :
  (In f (filter_other_in_gdi_dirs l)
   <-> In f l
       /\ (suffix (input f) = ".gdi"
           \/ ~ exists g, In g l /\ suffix (input g) = ".gdi"
                          /\ parent (input g) = parent (input f)))
  /\ filter_other_in_gdi_dirs [entry "/d/a.gdi"; entry "/d/a.bin"; entry "/d/a.cue"]
     = [entry "/d/a.gdi"].
Proof.
  split; [apply filter_other_in_gdi_dirs_In | reflexivity].
Qed.

(** The second pass drops exactly the entries with the suffix .iso whose
    directory holds an entry of type sheet. *)
Lemma filter_images_in_sheet_dirs_retained (l : list File) (f : File) :
  In f (filter_images_in_sheet_dirs l)
  <-> In f l
      /\ ~ (suffix (input f) = ".iso"
            /\ exists g, In g l /\ has_type sheet g = true
                         /\ parent (input g) = parent (input f)).
Proof.
  unfold filter_images_in_sheet_dirs.
  pose proof (in_collected_dirs (has_type sheet) l) as S.
  set (sheet_dirs := map (fun f => parent (input f)) (filter (has_type sheet) l)) in *.
  clearbody sheet_dirs.
  destruct sheet_dirs as [ | d0 dirs].
  - split.
    + intros H. split; [assumption | ]. intros [_ E]. apply S in E. destruct E.
    + intros [H _]. assumption.
  - rewrite filter_In. split.
    + intros [H1 H2]. split; [assumption | ]. intros [E1 E2].
      apply S in E2. apply in_dirs_true in E2. apply String.eqb_eq in E1.
      rewrite E1, E2 in H2. discriminate.
    + intros [H1 H2]. split; [assumption | ].
      apply negb_true_iff. apply andb_false_iff.
      destruct (String.eqb_spec (suffix (input f)) ".iso") as [E | E].
      * left. apply in_dirs_false. rewrite S. intros G. apply H2. auto.
      * right. reflexivity.
Qed.

(** C9.  The filters compare the suffix as it is written.  An entry with
    the suffix .GDI has the type sheet, yet it does not make its directory
    one of the first pass: where no entry of its directory has the suffix
    .gdi, the first pass keeps the whole directory; where one has, the
    first pass drops the .GDI entry.  The second pass keeps an entry with
    the suffix .ISO whatever its directory holds, and drops only entries
    whose suffix is .iso.  Each part holds of any batch, whatever else the
    batch holds. *)
Theorem filters_compare_literal_suffixes (l : list File) :
  (forall F, suffix (input F) = ".GDI" -> match_type (input F) = Some sheet)
  /\ (forall F, In F l -> suffix (input F) = ".GDI" ->
      ((forall h, In h l -> parent (input h) = parent (input F) ->
                  suffix (input h) <> ".gdi") ->
       forall x, In x l -> parent (input x) = parent (input F) ->
                 In x (filter_other_in_gdi_dirs l))
      /\ ((exists g, In g l /\ suffix (input g) = ".gdi"
                     /\ parent (input g) = parent (input F)) ->
          ~ In F (filter_other_in_gdi_dirs l)))
  /\ (forall iso, In iso l -> suffix (input iso) = ".ISO" ->
      In iso (filter_images_in_sheet_dirs l))
  /\ (forall x, In x l -> ~ In x (filter_images_in_sheet_dirs l) ->
                suffix (input x) = ".iso").
Proof.
  split; [ | split; [ | split]].
  - intros F SF. unfold match_type. rewrite SF. reflexivity.
  - intros F HF SF. split.
    + intros N x Hx Px.
      apply (filter_other_in_gdi_dirs_In l x).
      split; [assumption | ]. right. intros (g & G1 & G2 & G3).
      apply (N g G1); [congruence | assumption].
    + intros G H.
      apply (filter_other_in_gdi_dirs_In l F) in H.
      destruct H as [_ [H | H]].
      * rewrite SF in H. discriminate.
      * apply H. assumption.
  - intros iso HI SI. apply filter_images_in_sheet_dirs_retained.
    split; [assumption | ]. intros [E _]. rewrite SI in E. discriminate.
  - intros x Hx Nx.
    destruct (string_dec (suffix (input x)) ".iso") as [E | E]; [assumption | ].
    exfalso. apply Nx. apply filter_images_in_sheet_dirs_retained.
    split; [assumption | ]. intros [E' _]. contradiction.
Qed.

(** A witness: b.GDI beside a.gdi, with no .ISO entry in the batch; b.GDI
    beside a track only; c.ISO beside a sheet. *)
Lemma filters_compare_literal_suffixes_witness :
  (match_type (input (entry "/d/b.GDI")) = Some sheet
   /\ ~ In (entry "/d/b.GDI")
          (filter_other_in_gdi_dirs [entry "/d/a.gdi"; entry "/d/b.GDI"]))
  /\ In (entry "/d/track01.bin")
        (filter_other_in_gdi_dirs [entry "/d/b.GDI"; entry "/d/track01.bin"])
  /\ In (entry "/d/c.ISO")
        (filter_images_in_sheet_dirs [entry "/d/a.cue"; entry "/d/c.ISO"]).
Proof.
  split; [split | split].
  - apply (proj1 (filters_compare_literal_suffixes [])). reflexivity.
  - apply (proj2 (proj1 (proj2 (filters_compare_literal_suffixes
                                  [entry "/d/a.gdi"; entry "/d/b.GDI"]))
                    (entry "/d/b.GDI") (or_intror (or_introl eq_refl)) eq_refl)).
    exists (entry "/d/a.gdi"). split; [left; reflexivity | ].
    split; reflexivity.
  - apply (proj1 (proj1 (proj2 (filters_compare_literal_suffixes
                                  [entry "/d/b.GDI"; entry "/d/track01.bin"]))
                    (entry "/d/b.GDI") (or_introl eq_refl) eq_refl)).
    + intros h [<- | [<- | []]] _; discriminate.
    + right. left. reflexivity.
    + reflexivity.
  - apply (proj1 (proj2 (proj2 (filters_compare_literal_suffixes
                                  [entry "/d/a.cue"; entry "/d/c.ISO"])))).
    + right. left. reflexivity.
    + reflexivity.
Defined.

(** ** The converter *)

Ltac run_monad :=
  cbv beta iota zeta delta
    [bind ret raise get_self get_world modify_world path_exists unlink
     st_size message_job run_convert_process subprocess_run lift_option move
     tempdir_name cleanup TemporaryDirectory].

Lemma round_half_even_750 (size : Z) :
  750000 < round_half_even (size * 1000) (1024 ^ 2) <-> 786432525 <= size.
Proof.
  change (1024 ^ 2) with 1048576. unfold round_half_even.
  pose proof (Z.div_mod (size * 1000) 1048576 ltac:(lia)) as D.
  pose proof (Z.mod_pos_bound (size * 1000) 1048576 ltac:(lia)) as B.
  set (q := size * 1000 / 1048576) in *.
  set (r := (size * 1000) mod 1048576) in *.
  clearbody q r.
  destruct (Z.ltb_spec (2 * r) 1048576); [lia | ].
  destruct (Z.ltb_spec 1048576 (2 * r)); [lia | ].
  destruct (Z.even q); lia.
Qed.

(** The test of [auto] on the rounded size, in thousandths. *)
Lemma auto_test (size : Z) :
  negb (Qle_bool (round3 (inject_Z size / inject_Z (1024 ^ 2))) (inject_Z 750))
  = (750000 <? round_half_even (size * 1000) (1024 ^ 2)).
Proof.
  unfold round3, Qle_bool. change (1024 ^ 2) with 1048576.
  cbn [Qnum Qden inject_Z Qdiv Qmult Qinv].
  change (Z.pos (1 * 1048576)) with 1048576.
  rewrite !Z.mul_1_r. change (750 * 1000) with 750000.
  destruct (Z.leb_spec (round_half_even (size * 1000) 1048576) 750000);
    destruct (Z.ltb_spec 750000 (round_half_even (size * 1000) 1048576));
    simpl; try reflexivity; lia.
Qed.

Lemma chdman_command_eq (file : File) (self : App) (w : World) :
  chdman_command file self w
  = (match chosen_subcommand self file (fs w) with
     | Some sub => Ok (chdman_line self file sub)
     | None => Raise FileNotFoundError
     end, self, w).
Proof.
  unfold chdman_command, chosen_subcommand, chdman_line, get_size.
  change (dict_get "MB" exponents_map) with (Some 2).
  change (String.eqb "MB" "bytes") with false.
  run_monad.
  destruct (mode self); try reflexivity.
  destruct (fs_stat (input file) (fs w)) as [size | ]; [ | reflexivity].
  rewrite auto_test.
  destruct (750000 <? round_half_even (size * 1000) (1024 ^ 2)); reflexivity.
Qed.

Lemma chosen_subcommand_counted (m : Message) (self : App) (file : File) (f : FS) :
  chosen_subcommand (counted m self) file f = chosen_subcommand self file f.
Proof. unfold counted. destruct (parallel self), m; reflexivity. Qed.

Lemma chdman_line_counted (m : Message) (self : App) (file : File) (sub : string) :
  chdman_line (counted m self) file sub = chdman_line self file sub.
Proof. unfold counted. destruct (parallel self), m; reflexivity. Qed.

Lemma convert_spawn_counted (m : Message) (self : App) (cmd : list string) :
  convert_spawn (counted m self) cmd = convert_spawn self cmd.
Proof. unfold counted. destruct (parallel self), m; reflexivity. Qed.

Lemma path_msg_counted (m : Message) (self : App) (p : Path) :
  path_msg (counted m self) p = path_msg self p.
Proof. unfold counted. destruct (parallel self), m; reflexivity. Qed.

Section Converter.

Variable run_process : list Spawn -> Spawn -> FS -> CompletedProcess * FS.

Lemma run_convert_process_eq (cmd : list string) (self : App) (w : World) :
  run_convert_process run_process cmd self w
  = (Ok (fst (run_process (procs w) (convert_spawn self cmd) (fs w))), self,
     mkWorld (snd (run_process (procs w) (convert_spawn self cmd) (fs w)))
             (tempdirs w) (procs w ++ [convert_spawn self cmd]) (out w)).
Proof.
  unfold convert_spawn. run_monad.
  destruct (quiet self), (parallel self); cbn [orb];
    match goal with |- context [run_process ?a ?b ?c] => destruct (run_process a b c) end;
    reflexivity.
Qed.

(** What [convert_file] does once the sub-command is chosen. *)
Lemma convert_file_eq (file : File) (job_index : Z) (self : App) (w : World)
  (sub : string) :
  chosen_subcommand self file (fs w) = Some sub ->
  let sp := convert_spawn self (chdman_line self file sub) in
  let c := fst (run_process (procs w) sp (fs w)) in
  let fs1 := snd (run_process (procs w) sp (fs w)) in
  convert_file run_process file job_index self w
  = if job_index =? 0 then
      (Ok c, self, mkWorld fs1 (tempdirs w) (procs w ++ [sp]) (out w))
    else if (returncode c =? 0) && fs_exists (output file) fs1 then
      (Ok c, counted Completed (counted Started self),
       mkWorld fs1 (tempdirs w) (procs w ++ [sp])
               (out w ++ [job_line self Started (input file) job_index;
                          job_line self Completed (output file) job_index]))
    else
      (Ok c, counted Failed (counted Started self),
       mkWorld (fs_unlink (output file) fs1) (tempdirs w) (procs w ++ [sp])
               (out w ++ [job_line self Started (input file) job_index;
                          job_line self Failed (output file) job_index])).
Proof.
  intros Hsub sp c fs1. unfold convert_file.
  destruct (job_index =? 0).
  - unfold bind at 1. unfold ret at 1.
    unfold bind at 1. rewrite chdman_command_eq, Hsub.
    unfold bind at 1. rewrite run_convert_process_eq.
    reflexivity.
  - unfold bind at 1. unfold message_job at 1.
    fold (counted Started self). fold (path_msg self (input file)).
    unfold bind at 1. rewrite chdman_command_eq. cbn [fs print].
    rewrite chosen_subcommand_counted, Hsub, chdman_line_counted.
    unfold bind at 1. rewrite run_convert_process_eq. cbn [fs print procs tempdirs out].
    rewrite convert_spawn_counted. fold sp. fold c. fold fs1.
    run_monad. cbn [fs print procs tempdirs out set_fs].
    destruct ((returncode c =? 0) && fs_exists (output file) fs1);
      cbv beta iota zeta; unfold counted, job_line, path_msg, print, set_fs;
      cbn [fs procs tempdirs out]; rewrite <- app_assoc;
      destruct (parallel self); reflexivity.
Qed.

End Converter.

(** C3, as the code has it.  Under [auto], [convert_file] runs chdman once,
    with createdvd exactly when the size in MB (bytes / 1024^2) rounded to
    three decimals exceeds 750, that is from 786432525 bytes on (750 MB and
    525 bytes), and with createcd otherwise. *)
Theorem convert_file_auto_subcommand
  (run_process : list Spawn -> Spawn -> FS -> CompletedProcess * FS)
  (file : File) (job_index : Z) (self : App) (w : World) (size : Z) :
  mode self = mode_auto ->
  fs_stat (input file) (fs w) = Some size ->
  exists c self' w' sp,
    convert_file run_process file job_index self w = (Ok c, self', w')
    /\ procs w' = procs w ++ [sp]
    /\ (subcommand sp = "createdvd" \/ subcommand sp = "createcd")
    /\ (subcommand sp = "createdvd"
        <-> 750000 < round_half_even (size * 1000) (1024 ^ 2))
    /\ (subcommand sp = "createdvd" <-> 786432525 <= size).
Proof.
  intros Hm Hs.
  assert (Hsub : chosen_subcommand self file (fs w)
                 = Some (if 750000 <? round_half_even (size * 1000) (1024 ^ 2)
                         then "createdvd" else "createcd")).
  { unfold chosen_subcommand. rewrite Hm, Hs. reflexivity. }
  pose proof (convert_file_eq run_process file job_index self w _ Hsub) as E.
  cbv zeta in E.
  set (sub := if 750000 <? round_half_even (size * 1000) (1024 ^ 2)
              then "createdvd" else "createcd") in *.
  set (sp := convert_spawn self (chdman_line self file sub)) in *.
  assert (Hsp : subcommand sp = sub) by reflexivity.
  assert (Hdvd : sub = "createdvd"
                 <-> 750000 < round_half_even (size * 1000) (1024 ^ 2)).
  { unfold sub.
    destruct (Z.ltb_spec 750000 (round_half_even (size * 1000) (1024 ^ 2)));
      split; intros; try reflexivity; try assumption; try discriminate; lia. }
  assert (Hcases : sub = "createdvd" \/ sub = "createcd").
  { unfold sub.
    destruct (750000 <? round_half_even (size * 1000) (1024 ^ 2)); auto. }
  clearbody sub.
  destruct (job_index =? 0);
    [ | destruct ((returncode (fst (run_process (procs w) sp (fs w))) =? 0)
                  && fs_exists (output file) (snd (run_process (procs w) sp (fs w))))];
    (eexists; eexists; eexists; exists sp;
     split; [exact E | ];
     split; [reflexivity | ];
     rewrite Hsp; split; [exact Hcases | ];
     split; [exact Hdvd | ];
     rewrite Hdvd; apply round_half_even_750).
Qed.

(** A witness: an image of 750 MB and 525 bytes is converted as a DVD. *)
Lemma convert_file_auto_subcommand_witness :
  exists c self' w' sp,
    convert_file (working_tools "" [] 0) (entry "/d/big.iso") 1
                 (example_app mode_auto false false false)
                 (example_world [(Path_of_string "/d/big.iso", 786432525)] [])
    = (Ok c, self', w')
    /\ procs w' = [] ++ [sp]
    /\ (subcommand sp = "createdvd" \/ subcommand sp = "createcd")
    /\ (subcommand sp = "createdvd"
        <-> 750000 < round_half_even (786432525 * 1000) (1024 ^ 2))
    /\ (subcommand sp = "createdvd" <-> 786432525 <= 786432525).
Proof.
  apply (convert_file_auto_subcommand (working_tools "" [] 0) (entry "/d/big.iso") 1
           (example_app mode_auto false false false)
           (example_world [(Path_of_string "/d/big.iso", 786432525)] [])
           786432525).
  - reflexivity.
  - reflexivity.
Defined.

(** Against C3 as stated: an image of 750 MB and one byte is converted
    with createcd, as is an image of exactly 750 MB. *)
Lemma auto_one_byte_above_750MB_is_cd :
  map subcommand
      (procs (world_of
                (convert_file (working_tools "" [] 0) (entry "/d/big.iso") 1
                   (example_app mode_auto false false false)
                   (example_world
                      [(Path_of_string "/d/big.iso", 750 * 1024 ^ 2 + 1)] []))))
  = ["createcd"]
  /\ map subcommand
         (procs (world_of
                   (convert_file (working_tools "" [] 0) (entry "/d/big.iso") 1
                      (example_app mode_auto false false false)
                      (example_world
                         [(Path_of_string "/d/big.iso", 750 * 1024 ^ 2)] []))))
     = ["createcd"].
Proof. split; vm_compute; reflexivity. Qed.

Lemma fs_stat_unlink_same (p : Path) (f : FS) : fs_stat p (fs_unlink p f) = None.
Proof.
  induction f as [ | [q size] f IH]; [reflexivity | ].
  simpl. destruct (path_eqb q p) eqn:E; simpl.
  - assumption.
  - rewrite E. assumption.
Qed.

Lemma fs_stat_unlink_other (p q : Path) (f : FS) :
  p <> q -> fs_stat p (fs_unlink q f) = fs_stat p f.
Proof.
  intros N. induction f as [ | [r size] f IH]; [reflexivity | ].
  simpl. unfold path_eqb at 1. destruct (Path_eq_dec r q) as [E | E]; simpl.
  - rewrite IH. unfold path_eqb. destruct (Path_eq_dec r p); [congruence | reflexivity].
  - rewrite IH. reflexivity.
Qed.

(** The output is gone after a failure reported with a job index. *)
Lemma convert_file_failed_output_gone (p : Path) (f : FS) :
  fs_exists p (fs_unlink p f) = false.
Proof. unfold fs_exists. rewrite fs_stat_unlink_same. reflexivity. Qed.

(** C4, as the code has it.  Where [convert_file] gets to run chdman (under
    [auto] the input must be there to be measured), it runs it once.  With
    a job index other than 0 it then prints Completed when the exit status
    is zero and the output exists, and otherwise unlinks the output and
    prints Failed.  With the job index 0 it prints nothing, checks nothing
    and unlinks nothing: the files are as chdman left them. *)
Theorem convert_file_outcome
  (run_process : list Spawn -> Spawn -> FS -> CompletedProcess * FS)
  (file : File) (job_index : Z) (self : App) (w : World) :
  mode self <> mode_auto \/ fs_exists (input file) (fs w) = true ->
  exists c self' w' sp fs1,
    convert_file run_process file job_index self w = (Ok c, self', w')
    /\ run_process (procs w) sp (fs w) = (c, fs1)
    /\ procs w' = procs w ++ [sp]
    /\ (job_index <> 0 ->
        (returncode c = 0 /\ fs_exists (output file) fs1 = true ->
         fs w' = fs1
         /\ out w' = out w ++ [job_line self Started (input file) job_index;
                               job_line self Completed (output file) job_index])
        /\ (~ (returncode c = 0 /\ fs_exists (output file) fs1 = true) ->
            fs w' = fs_unlink (output file) fs1
            /\ fs_exists (output file) (fs w') = false
            /\ out w' = out w ++ [job_line self Started (input file) job_index;
                                  job_line self Failed (output file) job_index]))
    /\ (job_index = 0 -> fs w' = fs1 /\ out w' = out w /\ self' = self).
Proof.
  intros H.
  assert (Hsub : exists sub, chosen_subcommand self file (fs w) = Some sub).
  { unfold chosen_subcommand. destruct (mode self) eqn:Hm.
    - destruct H as [H | H]; [congruence | ].
      unfold fs_exists in H.
      destruct (fs_stat (input file) (fs w)); [eexists; reflexivity | discriminate].
    - eexists; reflexivity.
    - eexists; reflexivity. }
  destruct Hsub as [sub Hsub].
  pose proof (convert_file_eq run_process file job_index self w _ Hsub) as E.
  cbv zeta in E.
  set (sp := convert_spawn self (chdman_line self file sub)) in *.
  destruct (run_process (procs w) sp (fs w)) as [c fs1] eqn:R.
  cbn [fst snd] in E.
  destruct (Z.eqb_spec job_index 0) as [J | J].
  - exists c, self, (mkWorld fs1 (tempdirs w) (procs w ++ [sp]) (out w)), sp, fs1.
    split; [exact E | ]. split; [exact R | ]. split; [reflexivity | ].
    split; [intros N; contradiction | ]. intros _. repeat split.
  - destruct ((returncode c =? 0) && fs_exists (output file) fs1) eqn:C.
    + eexists; eexists; eexists; exists sp, fs1.
      split; [exact E | ]. split; [exact R | ]. split; [reflexivity | ].
      split; [ | intros N; contradiction]. intros _. split.
      * intros _. split; reflexivity.
      * intros N. exfalso. apply N. apply andb_true_iff in C.
        destruct C as [C1 C2]. split; [lia | assumption].
    + eexists; eexists; eexists; exists sp, fs1.
      split; [exact E | ]. split; [exact R | ]. split; [reflexivity | ].
      split; [ | intros N; contradiction]. intros _. split.
      * intros [C1 C2]. rewrite C1, C2 in C. discriminate.
      * intros _. split; [reflexivity | ].
        split; [apply convert_file_failed_output_gone | reflexivity].
Qed.

(** A witness: chdman exits with 1 and leaves a partial output; with the
    job index 1 the output is unlinked and Failed is printed. *)
Lemma convert_file_outcome_witness :
  exists c self' w' sp fs1,
    convert_file (working_tools "" [] 1) (entry "/d/a.iso") 1
                 (example_app mode_cd false false false)
                 (example_world [(Path_of_string "/d/a.iso", 5)] [])
    = (Ok c, self', w')
    /\ returncode c = 1
    /\ fs_exists (Path_of_string "/d/a.chd") fs1 = true
    /\ fs_exists (Path_of_string "/d/a.chd") (fs w') = false
    /\ procs w' = [sp]
    /\ map ev_message (out w') = [Started; Failed].
Proof.
  destruct (convert_file_outcome (working_tools "" [] 1) (entry "/d/a.iso") 1
              (example_app mode_cd false false false)
              (example_world [(Path_of_string "/d/a.iso", 5)] []))
    as (c & self' & w' & sp & fs1 & E & R & P & H1 & _).
  - left. discriminate.
  - exists c, self', w', sp, fs1.
    assert (Hc : c = mkCompleted 1 ""
                 /\ fs1 = [(Path_of_string "/d/a.chd", 1); (Path_of_string "/d/a.iso", 5)]).
    { revert E R P. vm_compute. intros E R P.
      injection E as E1 E2 E3. subst w'. injection P as P. subst sp.
      injection R as R1 R2. subst c fs1. split; reflexivity. }
    destruct Hc as [Hc Hf]. subst c fs1.
    destruct (H1 ltac:(discriminate)) as [_ H2].
    destruct H2 as (F & _ & O). { intros [N _]. discriminate. }
    split; [exact E | ]. split; [reflexivity | ]. split; [reflexivity | ].
    split; [rewrite F; reflexivity | ]. split; [exact P | ].
    rewrite O. reflexivity.
Defined.

(** Against C4 as stated: with the job index 0, chdman exits with 1 and
    its partial output stays on disk; nothing is printed. *)
Lemma convert_file_sentinel_keeps_partial_output :
  let r := convert_file (working_tools "" [] 1) (entry "/d/a.iso") 0
             (example_app mode_cd false false false)
             (example_world [(Path_of_string "/d/a.iso", 5)] []) in
  result_of r = Ok (mkCompleted 1 "")
  /\ fs_exists (output (entry "/d/a.iso")) (fs (world_of r)) = true
  /\ out (world_of r) = [].
Proof. vm_compute. repeat split. Qed.

(** ** The archive pipeline *)

Lemma convert_file_sentinel_self
  (run_process : list Spawn -> Spawn -> FS -> CompletedProcess * FS)
  (file : File) (self : App) (w : World) :
  app_of (convert_file run_process file 0 self w) = self.
Proof.
  unfold convert_file. change (0 =? 0) with true.
  unfold bind at 1. unfold ret at 1.
  unfold bind at 1. rewrite chdman_command_eq.
  destruct (chosen_subcommand self file (fs w)); [ | reflexivity].
  unfold bind at 1. rewrite run_convert_process_eq. reflexivity.
Qed.

Lemma with_name_joinpath (p : Path) (n : string) :
  name p <> "" -> valid_name n = true ->
  with_name p n = Some (joinpath (parent p) (mkPath false [n])).
Proof.
  intros Hp Hn. unfold with_name. rewrite Hn.
  destruct (String.eqb_spec (name p) ""); [contradiction | reflexivity].
Qed.

Lemma fs_stat_head (p : Path) (size : Z) (f : FS) :
  fs_stat p ((p, size) :: f) = Some size.
Proof.
  simpl. unfold path_eqb. destruct (Path_eq_dec p p); [reflexivity | contradiction].
Qed.

(** C1, as the code has it.  For every member of an archive, once chdman
    has returned for it, the destination is: with [no_rename], the
    directory of the output of the archive joined with the name of the
    converted member; without [no_rename] (the default), the output path of
    the archive itself.  After an exit status of zero the converted file is
    moved to the destination and Completed is printed for the destination
    with the job index of the archive; after another exit status the
    destination is unlinked and Failed is printed for it. *)
Theorem convert_member_destination
  (run_process : list Spawn -> Spawn -> FS -> CompletedProcess * FS)
  (archive : File) (job_index : Z) (file : File) (self : App) (w : World)
  (c : CompletedProcess) (self1 : App) (w1 : World) (size : Z) :
  convert_file run_process file 0 self w = (Ok c, self1, w1) ->
  (no_rename self = true ->
   name (output archive) <> "" /\ valid_name (name (output file)) = true) ->
  let dest_path :=
    if no_rename self
    then joinpath (parent (output archive)) (mkPath false [name (output file)])
    else output archive in
  (returncode c = 0 ->
   fs_stat (output file) (fs_unlink dest_path (fs w1)) = Some size ->
   exists self' w',
     convert_member run_process archive job_index file self w = (Ok c, self', w')
     /\ fs_stat dest_path (fs w') = Some size
     /\ fs_exists (output file) (fs w') = false
     /\ out w' = out w1 ++ [job_line self Completed dest_path job_index])
  /\ (returncode c <> 0 ->
      exists self' w',
        convert_member run_process archive job_index file self w = (Ok c, self', w')
        /\ fs w' = fs_unlink dest_path (fs w1)
        /\ out w' = out w1 ++ [job_line self Failed dest_path job_index]).
Proof.
  intros Hc Hn dest_path.
  assert (Hself : self1 = self).
  { pose proof (convert_file_sentinel_self run_process file self w) as S.
    rewrite Hc in S. exact S. }
  subst self1.
  assert (Hdest : (if no_rename self
                   then lift_option ValueError
                          (with_name (output archive) (name (output file)))
                   else ret (output archive)) = ret dest_path).
  { unfold dest_path. destruct (no_rename self); [ | reflexivity].
    destruct (Hn eq_refl) as [H1 H2].
    rewrite (with_name_joinpath _ _ H1 H2). reflexivity. }
  clearbody dest_path.
  split.
  - intros Hrc Hsrc.
    assert (Hne : output file <> dest_path).
    { intros E. rewrite E, fs_stat_unlink_same in Hsrc. discriminate. }
    unfold convert_member.
    unfold bind at 1. rewrite Hc.
    unfold bind at 1. unfold get_self at 1.
    rewrite Hdest.
    assert (Hz : (returncode c =? 0) = true) by (rewrite Hrc; reflexivity).
    rewrite Hz. run_monad. cbn [fs set_fs]. rewrite Hsrc.
    cbn [fs set_fs tempdirs procs out].
    unfold fs_exists at 1. rewrite fs_stat_head.
    eexists; eexists. split; [reflexivity | ].
    cbn [fs out print set_fs].
    split; [apply fs_stat_head | ].
    split; [ | reflexivity].
    unfold fs_exists. simpl. unfold path_eqb at 1.
    destruct (Path_eq_dec dest_path (output file)) as [E | _]; [congruence | ].
    rewrite fs_stat_unlink_other by assumption.
    rewrite fs_stat_unlink_same. reflexivity.
  - intros Hrc.
    unfold convert_member.
    unfold bind at 1. rewrite Hc.
    unfold bind at 1. unfold get_self at 1.
    rewrite Hdest.
    assert (Hz : (returncode c =? 0) = false) by (apply Z.eqb_neq; exact Hrc).
    rewrite Hz. run_monad.
    eexists; eexists. split; [reflexivity | ].
    split; reflexivity.
Qed.

(** A witness: with [no_rename] the converted member of /d/game.7z goes to
    /d/track.chd. *)
Lemma convert_member_destination_witness :
  exists self' w',
    convert_member (working_tools "" [] 0) example_game 1 (entry "/d/tmp0/track.iso")
      (example_app mode_cd true false false)
      (example_world [(Path_of_string "/d/tmp0/track.iso", 1)] ["/d/tmp0"])
    = (Ok (mkCompleted 0 ""), self', w')
    /\ fs_stat (Path_of_string "/d/track.chd") (fs w') = Some 1
    /\ fs_exists (Path_of_string "/d/tmp0/track.chd") (fs w') = false
    /\ map ev_path_msg (out w') = ["/d/track.chd"].
Proof.
  destruct (convert_member_destination (working_tools "" [] 0) example_game 1
              (entry "/d/tmp0/track.iso")
              (example_app mode_cd true false false)
              (example_world [(Path_of_string "/d/tmp0/track.iso", 1)] ["/d/tmp0"])
              (mkCompleted 0 "")
              (example_app mode_cd true false false)
              (mkWorld [(Path_of_string "/d/tmp0/track.chd", 1);
                        (Path_of_string "/d/tmp0/track.iso", 1)]
                       ["/d/tmp0"]
                       [convert_spawn (example_app mode_cd true false false)
                          (chdman_line (example_app mode_cd true false false)
                             (entry "/d/tmp0/track.iso") "createcd")]
                       [])
              1)
    as [H _].
  - reflexivity.
  - intros _. split; [discriminate | reflexivity].
  - destruct H as (self' & w' & E & H1 & H2 & H3).
    + reflexivity.
    + reflexivity.
    + exists self', w'. split; [exact E | ]. split; [exact H1 | ].
      split; [exact H2 | ]. rewrite H3. reflexivity.
Defined.

(** Against C1 as stated: with [no_rename] the member of /d/game.7z ends at
    /d/track.chd and nothing is written at the output path of the archive;
    without [no_rename] the member ends at the output path of the archive,
    /d/game.chd, and not under its own name. *)
Lemma no_rename_keeps_member_name :
  let kept := convert_archive example_tools example_mkdtemp example_game 1
                (example_app mode_cd true false false) example_world0 in
  let renamed := convert_archive example_tools example_mkdtemp example_game 1
                   (example_app mode_cd false false false) example_world0 in
  output example_game = Path_of_string "/d/game.chd"
  /\ map fst (fs (world_of kept))
     = [Path_of_string "/d/track.chd"; Path_of_string "/d/game.7z"]
  /\ map ev_path_msg (out (world_of kept)) = ["/d/game.7z"; "/d/track.chd"]
  /\ map fst (fs (world_of renamed))
     = [Path_of_string "/d/game.chd"; Path_of_string "/d/game.7z"]
  /\ map ev_path_msg (out (world_of renamed)) = ["/d/game.7z"; "/d/game.chd"].
Proof. vm_compute. repeat split. Qed.

(** [File.__init__] touches the live temporary directories only, and only
    adds to them. *)
Lemma File_init_frame (mkdtemp : FS -> list string -> Path -> option string)
  (p : Path) (d t : option Path) (self : App) (w : World) :
  exists r tds,
    File_init mkdtemp p d t self w = (r, self, mkWorld (fs w) tds (procs w) (out w))
    /\ incl (tempdirs w) tds.
Proof.
  destruct w as [f tds ps o]. unfold File_init.
  destruct (with_suffix _ _); [ | eexists; eexists; split; [reflexivity | apply incl_refl]].
  destruct (match_type p) as [[ | | ] | ]; run_monad;
    try destruct (mkdtemp _ _ _) as [n | ];
    eexists; eexists; (split; [reflexivity | ]);
    try apply incl_refl.
  apply incl_tl. apply incl_refl.
Qed.

Lemma mapM_frame {A B : Type} (f : A -> M B) :
  (forall a self w, exists r tds,
      f a self w = (r, self, mkWorld (fs w) tds (procs w) (out w))
      /\ incl (tempdirs w) tds) ->
  forall l self w, exists r tds,
      mapM f l self w = (r, self, mkWorld (fs w) tds (procs w) (out w))
      /\ incl (tempdirs w) tds.
Proof.
  intros Hf l. induction l as [ | a l IH]; intros self w.
  - destruct w as [fi tds ps o]. exists (Ok []), tds. split; [reflexivity | apply incl_refl].
  - simpl. unfold bind at 1.
    destruct (Hf a self w) as (r & tds & E & I). rewrite E.
    destruct r as [b | e].
    + unfold bind at 1.
      destruct (IH self (mkWorld (fs w) tds (procs w) (out w)))
        as (r' & tds' & E' & I'). rewrite E'. cbn [fs tempdirs procs out] in *.
      destruct r' as [bs | e]; eexists; eexists;
        (split; [reflexivity | eapply incl_tran; eassumption]).
    + eexists; eexists. split; [reflexivity | assumption].
Qed.

Lemma listing_spawn_counted (m : Message) (self : App) (file : File) :
  listing_spawn (counted m self) file = listing_spawn self file.
Proof. unfold counted. destruct (parallel self), m; reflexivity. Qed.

Section Archive.

Variable run_process : list Spawn -> Spawn -> FS -> CompletedProcess * FS.
Variable mkdtemp : FS -> list string -> Path -> option string.

(** [listing_from_archive] runs the listing and nothing else; it prints
    nothing; when the listing fails the list is empty. *)
Lemma listing_from_archive_frame (file : File) (self : App) (w : World) :
  let sp := listing_spawn self file in
  exists r tds,
    listing_from_archive run_process mkdtemp file self w
    = (r, self, mkWorld (snd (run_process (procs w) sp (fs w))) tds
                        (procs w ++ [sp]) (out w))
    /\ incl (tempdirs w) tds
    /\ (returncode (fst (run_process (procs w) sp (fs w))) <> 0 -> r = Ok []).
Proof.
  intros sp. unfold listing_from_archive.
  unfold bind at 1. unfold get_self at 1.
  unfold bind at 1. unfold subprocess_run. fold (listing_spawn self file). fold sp.
  destruct (run_process (procs w) sp (fs w)) as [c fs1]. cbn [fst snd].
  destruct (Z.eqb_spec (returncode c) 0) as [Z | Z].
  - match goal with
    | |- context [mapM ?f ?entries ?s ?w0] =>
        assert (Hf : forall a s0 w1, exists r tds,
                   f a s0 w1 = (r, s0, mkWorld (fs w1) tds (procs w1) (out w1))
                   /\ incl (tempdirs w1) tds);
        [ | destruct (mapM_frame f Hf entries s w0) as (r & tds & E & I) ]
    end.
    + intros a s0 w0. unfold tempdir_name, bind, ret, raise.
      destruct (tempdir file) as [n | ].
      * apply (File_init_frame mkdtemp).
      * destruct w0 as [fi t ps o]. exists (Raise AttributeError), t.
        split; [reflexivity | apply incl_refl].
    + exists r, tds. rewrite E. cbn [fs tempdirs procs out] in *.
      split; [reflexivity | ]. split; [assumption | ]. intros N. contradiction.
  - exists (Ok []), (tempdirs w). split; [reflexivity | ].
    split; [apply incl_refl | ]. reflexivity.
Qed.

End Archive.

Section ArchiveJob.

Variable run_process : list Spawn -> Spawn -> FS -> CompletedProcess * FS.
Variable mkdtemp : FS -> list string -> Path -> option string.

(** What [convert_archive] does when the member list is empty: it prints
    Failed after Started and returns; the only process is the listing, and
    no temporary directory is cleaned up. *)
Lemma convert_archive_empty_eq (archive : File) (job_index : Z) (self : App)
  (w : World) (l : list File) (self1 : App) (w1 : World) :
  listing_from_archive run_process mkdtemp archive (counted Started self)
    (print (job_line self Started (input archive) job_index) w)
  = (Ok l, self1, w1) ->
  archive_members l = [] ->
  convert_archive run_process mkdtemp archive job_index self w
  = (Ok None, counted Failed (counted Started self),
     mkWorld (fs w1) (tempdirs w1) (procs w ++ [listing_spawn self archive])
             (out w ++ [job_line self Started (input archive) job_index;
                        job_line self Failed (output archive) job_index]))
  /\ incl (tempdirs w) (tempdirs w1).
Proof.
  intros E Hl.
  destruct (listing_from_archive_frame run_process mkdtemp archive
              (counted Started self)
              (print (job_line self Started (input archive) job_index) w))
    as (r & tds & E' & I & _).
  rewrite E in E'. injection E' as E1 E2 E3. subst r self1 w1.
  rewrite listing_spawn_counted in *. cbn [fs tempdirs procs out print] in *.
  split; [ | assumption].
  unfold convert_archive.
  unfold bind at 1. unfold message_job at 1.
  fold (path_msg self (input archive)).
  fold (job_line self Started (input archive) job_index).
  fold (counted Started self).
  unfold bind at 1. rewrite E, Hl.
  run_monad. cbn [fs tempdirs procs out print].
  fold (path_msg (counted Started self) (output archive)).
  rewrite path_msg_counted.
  fold (counted Failed (counted Started self)).
  unfold print, job_line. cbn [fs tempdirs procs out].
  rewrite <- app_assoc. reflexivity.
Qed.

(** An archive job without members.  Let the listing of an archive job
    exit with a status other than zero, or let [listing_from_archive]
    return a list of which no member remains after the filters.  In the
    first case the list is empty.  In both cases [convert_archive] prints
    Started and then Failed, once, returns [None], and the listing is the
    only process it runs: no extraction.  An archive whose listing cannot
    be made into files is not among these: [listing_from_archive] raises
    for it. *)
Theorem convert_archive_without_members (archive : File) (job_index : Z)
  (self : App) (w : World) :
  let started := message_job Started (input archive) job_index self w in
  let listed := listing_from_archive run_process mkdtemp archive
                  (app_of started) (world_of started) in
  returncode (fst (run_process (procs w) (listing_spawn self archive) (fs w))) <> 0
  \/ (exists l, result_of listed = Ok l /\ archive_members l = []) ->
  (returncode (fst (run_process (procs w) (listing_spawn self archive) (fs w))) <> 0 ->
   result_of listed = Ok [])
  /\ exists self' w',
      convert_archive run_process mkdtemp archive job_index self w
      = (Ok None, self', w')
      /\ out w' = out w ++ [job_line self Started (input archive) job_index;
                            job_line self Failed (output archive) job_index]
      /\ procs w' = procs w ++ [listing_spawn self archive]
      /\ is_extraction (listing_spawn self archive) = false.
Proof.
  intros started listed H.
  assert (Hs : started = (Ok tt, counted Started self,
                          print (job_line self Started (input archive) job_index) w))
    by reflexivity.
  unfold listed. rewrite Hs. unfold app_of, world_of. cbn [fst snd].
  destruct (listing_from_archive_frame run_process mkdtemp archive
              (counted Started self)
              (print (job_line self Started (input archive) job_index) w))
    as (r & tds & E & I & Hnz).
  rewrite listing_spawn_counted in *. cbn [fs tempdirs procs out print] in *.
  assert (Hr : returncode (fst (run_process (procs w) (listing_spawn self archive)
                                            (fs w))) <> 0 -> r = Ok []).
  { exact Hnz. }
  split.
  - intros N. rewrite E. unfold result_of. cbn [fst]. apply Hr. exact N.
  - assert (Hl : exists l, r = Ok l /\ archive_members l = []).
    { destruct H as [N | (l & H1 & H2)].
      - exists []. split; [apply Hr; exact N | reflexivity].
      - exists l. split; [ | exact H2].
        unfold listed in H1. rewrite Hs in H1. unfold app_of, world_of in H1.
        cbn [fst snd] in H1. rewrite E in H1. exact H1. }
    destruct Hl as (l & Hrl & Hl). subst r.
    destruct (convert_archive_empty_eq archive job_index self w l _ _ E Hl) as [C _].
    eexists; eexists. split; [exact C | ].
    split; [reflexivity | ]. split; reflexivity.
Qed.

End ArchiveJob.

(** A witness: the listing fails; and the archive holds a text file only. *)
Lemma convert_archive_without_members_witness :
  (exists self' w',
      convert_archive broken_tools example_mkdtemp example_game 1
        (example_app mode_cd false false false) example_world0
      = (Ok None, self', w')
      /\ map ev_message (out w') = [Started; Failed]
      /\ map subcommand (procs w') = ["l"])
  /\ (exists self' w',
         convert_archive (working_tools example_listing_unsupported [] 0)
           example_mkdtemp example_game 1
           (example_app mode_cd false false false) example_world0
         = (Ok None, self', w')
         /\ map ev_message (out w') = [Started; Failed]
         /\ map subcommand (procs w') = ["l"]).
Proof.
  split.
  - destruct (convert_archive_without_members broken_tools example_mkdtemp
                example_game 1 (example_app mode_cd false false false) example_world0)
      as (_ & self' & w' & E & O & P & _).
    + left. vm_compute. discriminate.
    + exists self', w'. split; [exact E | ].
      rewrite O, P. split; reflexivity.
  - destruct (convert_archive_without_members
                (working_tools example_listing_unsupported [] 0) example_mkdtemp
                example_game 1 (example_app mode_cd false false false) example_world0)
      as (_ & self' & w' & E & O & P & _).
    + right. exists [entry "/d/tmp0/readme.txt"]. split; reflexivity.
    + exists self', w'. split; [exact E | ].
      rewrite O, P. split; reflexivity.
Defined.

(** C5, at the input where it fails.  The archive /d/game.7z holds one
    file, sub/inner.zip: an archive, so neither an image nor a sheet, and
    no member would remain after the filters.  To make the entry a [File]
    a temporary directory is created beside it, in the directory sub of
    the temporary directory of the job, which is not there: nothing is
    extracted yet.  [convert_archive] raises [FileNotFoundError] after the
    line Started; there is no line Failed, and the temporary directory of
    the job stays.  With the same file at the top of the archive the job
    prints Started and Failed and returns [None]. *)
Theorem convert_archive_nested_archive_raises :
  let self := example_app mode_cd false false false in
  let nested := convert_archive (working_tools example_listing_nested [] 0)
                  example_mkdtemp example_game 1 self example_world0 in
  let top := convert_archive (working_tools example_listing_inner [] 0)
               example_mkdtemp example_game 1 self example_world0 in
  tl (findall_Path example_listing_nested) = ["sub/inner.zip"]
  /\ match_type (member_path "/d/tmp0" "sub/inner.zip") = Some archive
  /\ (forall o n, archive_members
                    [mkFile (member_path "/d/tmp0" "sub/inner.zip") o
                            (Some archive) n] = [])
  /\ example_mkdtemp (fs example_world0) (tempdirs example_world0)
       (parent (member_path "/d/tmp0" "sub/inner.zip")) = None
  /\ result_of nested = Raise FileNotFoundError
  /\ out (world_of nested) = [job_line self Started (input example_game) 1]
  /\ map subcommand (procs (world_of nested)) = ["l"]
  /\ tempdirs (world_of nested) = ["/d/tmp0"]
  /\ result_of top = Ok None
  /\ out (world_of top) = [job_line self Started (input example_game) 1;
                           job_line self Failed (output example_game) 1].
Proof. vm_compute. repeat split. Qed.

(** C2, at the input where it fails.  The archive /d/game.7z comes with its
    temporary directory /d/tmp0; the listing fails, the member list is
    empty, and when [convert_archive] has returned the temporary directory
    is still there.  On the path through the extraction it is cleaned
    up. *)
Theorem convert_archive_empty_leaves_tempdir :
  let failed := convert_archive broken_tools example_mkdtemp example_game 1
                  (example_app mode_cd false false false) example_world0 in
  let done := convert_archive example_tools example_mkdtemp example_game 1
                (example_app mode_cd false false false) example_world0 in
  tempdir example_game = Some "/d/tmp0"
  /\ result_of failed = Ok None
  /\ map ev_message (out (world_of failed)) = [Started; Failed]
  /\ tempdirs (world_of failed) = ["/d/tmp0"]
  /\ tempdirs (world_of done) = [].
Proof. vm_compute. repeat split. Qed.

(** Whenever the member list is empty, every temporary directory that was
    live before the archive job is live after it: the job returns before
    the cleanup. *)
Lemma convert_archive_empty_keeps_tempdirs
  (run_process : list Spawn -> Spawn -> FS -> CompletedProcess * FS)
  (mkdtemp : FS -> list string -> Path -> option string)
  (archive : File) (job_index : Z) (self : App) (w : World)
  (l : list File) (self1 : App) (w1 : World) :
  listing_from_archive run_process mkdtemp archive (counted Started self)
    (print (job_line self Started (input archive) job_index) w)
  = (Ok l, self1, w1) ->
  archive_members l = [] ->
  incl (tempdirs w)
       (tempdirs (world_of (convert_archive run_process mkdtemp archive job_index
                              self w))).
Proof.
  intros E Hl.
  destruct (convert_archive_empty_eq run_process mkdtemp archive job_index self w
              l self1 w1 E Hl) as [C I].
  rewrite C. exact I.
Qed.

(** ** The scheduler *)

Section Scheduler.

Variable run_process : list Spawn -> Spawn -> FS -> CompletedProcess * FS.
Variable mkdtemp : FS -> list string -> Path -> option string.

(** What the body of the loop does on the two first branches. *)
Lemma convert_entry_skipped_eq (file : File) (job_index : Z) (pool : list Job)
  (self : App) (w : World) :
  dry_run self = true \/ fs_exists (output file) (fs w) = true ->
  convert_entry run_process mkdtemp file job_index pool self w
  = (Ok pool, counted Skipped self,
     print (job_line self Skipped (input file) job_index) w).
Proof.
  intros H. unfold convert_entry.
  unfold bind at 1. unfold get_self at 1.
  destruct (dry_run self) eqn:D.
  - reflexivity.
  - destruct H as [H | H]; [discriminate | ].
    run_monad. rewrite H. reflexivity.
Qed.

(** The body of the loop, whatever the state it is run in: when dry-run
    mode is on or the output path of the entry exists, it prints Skipped
    for the entry with its job index, and does nothing else: no process is
    run, nothing is submitted to the pool, the files and the temporary
    directories are as before. *)
Lemma convert_entry_skipped
  (file : File) (job_index : Z) (pool : list Job) (self : App) (w : World) :
  dry_run self = true \/ fs_exists (output file) (fs w) = true ->
  exists self' w',
    convert_entry run_process mkdtemp file job_index pool self w
    = (Ok pool, self', w')
    /\ out w' = out w ++ [job_line self Skipped (input file) job_index]
    /\ procs w' = procs w
    /\ fs w' = fs w
    /\ tempdirs w' = tempdirs w.
Proof.
  intros H. rewrite (convert_entry_skipped_eq file job_index pool self w H).
  eexists; eexists. split; [reflexivity | ]. repeat split.
Qed.

Lemma dry_run_counted (m : Message) (self : App) :
  dry_run (counted m self) = dry_run self.
Proof. unfold counted. destruct (parallel self), m; reflexivity. Qed.

(** A dry run of the loop: one Skipped line per entry, with the indices
    in order, no process, nothing submitted. *)
Lemma convert_loop_dry_run (file_list : list File) :
  forall (job_index : Z) (self : App) (w : World),
    dry_run self = true ->
    exists self' w',
      convert_loop run_process mkdtemp file_list job_index job_index [] self w
      = (Ok (job_index + Z.of_nat (List.length file_list), []), self', w')
      /\ procs w' = procs w /\ fs w' = fs w
      /\ map ev_message (out w')
         = map ev_message (out w) ++ repeat Skipped (List.length file_list)
      /\ map ev_job_index (out w')
         = map ev_job_index (out w)
           ++ map (fun i => job_index + Z.of_nat i) (seq 0 (List.length file_list)).
Proof.
  induction file_list as [ | file file_list IH]; intros job_index self w D.
  - exists self, w. simpl. rewrite Z.add_0_r, !app_nil_r. repeat split.
  - cbn [convert_loop]. unfold bind at 1.
    rewrite (convert_entry_skipped_eq file job_index [] self w (or_introl D)).
    destruct (IH (job_index + 1) (counted Skipped self)
                 (print (job_line self Skipped (input file) job_index) w))
      as (self' & w' & E & P & F & O & J).
    { rewrite dry_run_counted. exact D. }
    exists self', w'. rewrite E.
    split.
    { replace (job_index + Z.of_nat (List.length (file :: file_list)))
        with (job_index + 1 + Z.of_nat (List.length file_list))
        by (cbn [List.length]; lia).
      reflexivity. }
    split; [exact P | ]. split; [exact F | ].
    cbn [out print] in O, J. rewrite map_app in O, J. cbn [map] in O, J.
    rewrite <- app_assoc in O, J. cbn [List.length repeat seq map].
    split; [exact O | ].
    rewrite J. f_equal. cbn [app ev_job_index job_line]. rewrite Z.add_0_r.
    f_equal. rewrite <- seq_shift, map_map.
    apply map_ext. intros i. lia.
Qed.

(** A dry run of [convert] runs no process, whatever the queue and the
    mode. *)
Lemma convert_dry_run (file_list : list File) (start_index : Z)
  (self : App) (w : World) :
  dry_run self = true ->
  exists self' w',
    convert run_process mkdtemp file_list start_index self w
    = (Ok (start_index + Z.of_nat (List.length file_list)), self', w')
    /\ procs w' = procs w /\ fs w' = fs w
    /\ map ev_message (out w')
       = map ev_message (out w) ++ repeat Skipped (List.length file_list).
Proof.
  intros D.
  destruct (convert_loop_dry_run file_list start_index self w D)
    as (self' & w' & E & P & F & O & _).
  exists self', w'. unfold convert.
  unfold bind at 1. rewrite E.
  unfold bind at 1. unfold get_self at 1. cbn [snd fst].
  split; [ | auto].
  destruct (parallel self'); reflexivity.
Qed.

End Scheduler.

(** ** The counters under parallel mode *)

Lemma keeps_ret {A : Type} (a : A) : keeps_self (ret a).
Proof. intros self w _. reflexivity. Qed.

Lemma keeps_raise {A : Type} (e : Exn) : keeps_self (@raise A e).
Proof. intros self w _. reflexivity. Qed.

Lemma keeps_bind {A B : Type} (m : M A) (k : A -> M B) :
  keeps_self m -> (forall a, keeps_self (k a)) -> keeps_self (bind m k).
Proof.
  intros Hm Hk self w P. unfold bind.
  pose proof (Hm self w P) as E.
  destruct (m self w) as [[r self'] w']. unfold app_of in E. cbn [fst snd] in E.
  subst self'. destruct r as [a | e].
  - apply Hk. exact P.
  - reflexivity.
Qed.

Lemma keeps_get_self : keeps_self get_self.
Proof. intros self w _. reflexivity. Qed.

Lemma keeps_get_world : keeps_self get_world.
Proof. intros self w _. reflexivity. Qed.

Lemma keeps_modify_world (f : World -> World) : keeps_self (modify_world f).
Proof. intros self w _. reflexivity. Qed.

Lemma keeps_message_job (message : Message) (path : Path) (job_index : Z) :
  keeps_self (message_job message path job_index).
Proof. intros self w P. unfold message_job, app_of. cbn [fst snd]. rewrite P. reflexivity. Qed.

Lemma keeps_subprocess_run
  (run_process : list Spawn -> Spawn -> FS -> CompletedProcess * FS)
  (cmd : list string) (so se : bool) :
  keeps_self (subprocess_run run_process cmd so se).
Proof.
  intros self w _. unfold subprocess_run.
  destruct (run_process _ _ _). reflexivity.
Qed.

Lemma keeps_TemporaryDirectory (mkdtemp : FS -> list string -> Path -> option string) (dir : Path) :
  keeps_self (TemporaryDirectory mkdtemp dir).
Proof.
  intros self w _. unfold TemporaryDirectory.
  destruct (mkdtemp _ _ _); reflexivity.
Qed.

Create HintDb keeps.
#[local] Hint Resolve keeps_ret keeps_raise keeps_get_self keeps_get_world
  keeps_modify_world keeps_message_job keeps_subprocess_run
  keeps_TemporaryDirectory : keeps.

Ltac keeps :=
  repeat first
    [ solve [auto with keeps]
    | apply keeps_bind; [ | intro ]
    | match goal with
      | |- keeps_self (if ?b then _ else _) => destruct b
      | |- keeps_self (match ?x with _ => _ end) => destruct x
      end ].

Lemma keeps_path_exists (p : Path) : keeps_self (path_exists p).
Proof. unfold path_exists. keeps. Qed.

Lemma keeps_unlink (p : Path) : keeps_self (unlink p).
Proof. unfold unlink. keeps. Qed.

Lemma keeps_st_size (p : Path) : keeps_self (st_size p).
Proof. unfold st_size. keeps. Qed.

Lemma keeps_move (src dst : Path) : keeps_self (move src dst).
Proof. unfold move. apply keeps_bind; [apply keeps_st_size | intro; keeps]. Qed.

Lemma keeps_lift_option {A : Type} (e : Exn) (o : option A) :
  keeps_self (lift_option e o).
Proof. unfold lift_option. keeps. Qed.

Lemma keeps_tempdir_name (file : File) : keeps_self (tempdir_name file).
Proof. unfold tempdir_name. keeps. Qed.

Lemma keeps_get_size (file : File) (unit : string) : keeps_self (get_size file unit).
Proof.
  unfold get_size. destruct (dict_get unit exponents_map); [ | keeps].
  apply keeps_bind; [apply keeps_st_size | intro; keeps].
Qed.

Lemma keeps_chdman_command (file : File) : keeps_self (chdman_command file).
Proof.
  unfold chdman_command. apply keeps_bind; [keeps | intro self].
  apply keeps_bind; [ | intro; keeps].
  destruct (mode self); [ | keeps | keeps].
  apply keeps_bind; [apply keeps_get_size | intro; keeps].
Qed.

Lemma keeps_cleanup (n : string) : keeps_self (cleanup n).
Proof. unfold cleanup. keeps. Qed.

#[local] Hint Resolve keeps_path_exists keeps_unlink keeps_st_size keeps_move
  keeps_lift_option keeps_tempdir_name keeps_get_size keeps_chdman_command
  keeps_cleanup : keeps.

Section Parallel.

Variable run_process : list Spawn -> Spawn -> FS -> CompletedProcess * FS.
Variable mkdtemp : FS -> list string -> Path -> option string.

Lemma keeps_run_convert_process (cmd : list string) :
  keeps_self (run_convert_process run_process cmd).
Proof. unfold run_convert_process. keeps. Qed.

Lemma keeps_convert_file (file : File) (job_index : Z) :
  keeps_self (convert_file run_process file job_index).
Proof.
  pose proof keeps_run_convert_process as R.
  unfold convert_file. keeps.
Qed.

Lemma keeps_File_init (p : Path) (d t : option Path) :
  keeps_self (File_init mkdtemp p d t).
Proof. unfold File_init. keeps. Qed.

Lemma keeps_mapM {A B : Type} (f : A -> M B) (l : list A) :
  (forall a, keeps_self (f a)) -> keeps_self (mapM f l).
Proof. intros Hf. induction l as [ | a l IH]; simpl; keeps. Qed.

Lemma keeps_listing_from_archive (file : File) :
  keeps_self (listing_from_archive run_process mkdtemp file).
Proof.
  pose proof keeps_File_init as F.
  unfold listing_from_archive. keeps. apply keeps_mapM. intros entry. keeps.
Qed.

Lemma keeps_convert_member (archive : File) (job_index : Z) (file : File) :
  keeps_self (convert_member run_process archive job_index file).
Proof.
  pose proof keeps_convert_file as F.
  unfold convert_member. keeps.
Qed.

Lemma keeps_convert_members (archive : File) (job_index : Z) (archlist : list File) :
  forall completed,
    keeps_self (convert_members run_process archive job_index archlist completed).
Proof.
  pose proof keeps_convert_member as F.
  induction archlist as [ | file archlist IH]; intros completed; simpl; keeps.
Qed.

Lemma keeps_extract_command (archive : File) : keeps_self (extract_command archive).
Proof. unfold extract_command. keeps. Qed.

Lemma keeps_convert_archive (archive : File) (job_index : Z) :
  keeps_self (convert_archive run_process mkdtemp archive job_index).
Proof.
  pose proof keeps_listing_from_archive as L.
  pose proof keeps_convert_members as C.
  pose proof keeps_extract_command as X.
  pose proof keeps_run_convert_process as R.
  unfold convert_archive.
  apply keeps_bind; [keeps | intro].
  apply keeps_bind; [keeps | intro archlist].
  destruct (archive_members archlist) as [ | file members]; keeps.
Qed.

Lemma keeps_convert_entry (file : File) (job_index : Z) (pool : list Job) :
  keeps_self (convert_entry run_process mkdtemp file job_index pool).
Proof.
  pose proof keeps_convert_file as F.
  pose proof keeps_convert_archive as A.
  unfold convert_entry. keeps.
Qed.

Lemma keeps_convert_loop (file_list : list File) :
  forall job_index last_index pool,
    keeps_self (convert_loop run_process mkdtemp file_list job_index last_index pool).
Proof.
  pose proof keeps_convert_entry as E.
  induction file_list as [ | file file_list IH]; intros job_index last_index pool;
    simpl; keeps.
Qed.

Lemma keeps_run_job (j : Job) : keeps_self (run_job run_process mkdtemp j).
Proof.
  intros self w _. unfold run_job.
  destruct j as [file job_index | file job_index].
  - destruct (convert_file _ _ _ _ _) as [[r s] w']. reflexivity.
  - destruct (convert_archive _ _ _ _ _ _) as [[r s] w']. reflexivity.
Qed.

Lemma keeps_pool_join (pool : list Job) :
  keeps_self (pool_join run_process mkdtemp pool).
Proof.
  pose proof keeps_run_job as J.
  induction pool as [ | j pool IH]; simpl; keeps.
Qed.

Lemma keeps_convert (file_list : list File) (start_index : Z) :
  keeps_self (convert run_process mkdtemp file_list start_index).
Proof.
  pose proof keeps_convert_loop as L.
  pose proof keeps_pool_join as J.
  unfold convert. keeps.
Qed.

Lemma keeps_message_jobs (calls : list (Message * Path * Z)) :
  keeps_self (message_jobs calls).
Proof.
  induction calls as [ | [[message path] job_index] calls IH]; simpl; keeps.
Qed.

(** C10.  In parallel mode, with the four counters at zero, they are at zero
    after any sequence of calls of [message_job], and after the whole of
    [convert] on any queue. *)
Theorem parallel_mode_keeps_stats_zero (calls : list (Message * Path * Z))
  (file_list : list File) (start_index : Z) (self : App) (w : World) :
  parallel self = true ->
  stats_started self = 0 -> stats_skipped self = 0 ->
  stats_failed self = 0 -> stats_completed self = 0 ->
  let after_calls := app_of (message_jobs calls self w) in
  let after_run := app_of (convert run_process mkdtemp file_list start_index self w) in
  (stats_started after_calls = 0 /\ stats_skipped after_calls = 0
   /\ stats_failed after_calls = 0 /\ stats_completed after_calls = 0)
  /\ (stats_started after_run = 0 /\ stats_skipped after_run = 0
      /\ stats_failed after_run = 0 /\ stats_completed after_run = 0).
Proof.
  intros P H1 H2 H3 H4 after_calls after_run.
  unfold after_calls, after_run.
  rewrite (keeps_message_jobs calls self w P).
  rewrite (keeps_convert file_list start_index self w P).
  repeat split; assumption.
Qed.

End Parallel.

(** A witness: four messages, and a run over an archive and an image, in
    parallel mode. *)
Lemma parallel_mode_keeps_stats_zero_witness :
  let self := example_app mode_cd false true false in
  let calls := [(Started, Path_of_string "/d/a.iso", 1);
                (Completed, Path_of_string "/d/a.chd", 1);
                (Skipped, Path_of_string "/d/b.iso", 2);
                (Failed, Path_of_string "/d/c.chd", 3)] in
  let after_calls := app_of (message_jobs calls self example_world0) in
  let after_run := app_of (convert example_tools example_mkdtemp
                             [example_game; entry "/d/x.iso"] 1 self example_world0) in
  (stats_started after_calls = 0 /\ stats_skipped after_calls = 0
   /\ stats_failed after_calls = 0 /\ stats_completed after_calls = 0)
  /\ (stats_started after_run = 0 /\ stats_skipped after_run = 0
      /\ stats_failed after_run = 0 /\ stats_completed after_run = 0).
Proof.
  intros self calls.
  apply (parallel_mode_keeps_stats_zero example_tools example_mkdtemp calls
           [example_game; entry "/d/x.iso"] 1 self example_world0);
    reflexivity.
Defined.

(** * Further properties *)

(** ** The filters as a pipeline *)

Lemma filter_all_true {A : Type} (p : A -> bool) (l : list A) :
  (forall x, In x l -> p x = true) -> filter p l = l.
Proof.
  induction l as [ | a l IH]; intros H; [reflexivity | ].
  simpl. rewrite (H a (or_introl eq_refl)). f_equal.
  apply IH. intros x Hx. apply H. right. exact Hx.
Qed.

Lemma filter_other_in_gdi_dirs_incl (l : list File) :
  incl (filter_other_in_gdi_dirs l) l.
Proof. intros f H. apply filter_other_in_gdi_dirs_In in H. apply H. Qed.

Lemma filter_images_in_sheet_dirs_incl (l : list File) :
  incl (filter_images_in_sheet_dirs l) l.
Proof. intros f H. apply filter_images_in_sheet_dirs_retained in H. apply H. Qed.

Lemma gdi_dirs_post (l : list File) (f g : File) :
  In f (filter_other_in_gdi_dirs l) -> In g (filter_other_in_gdi_dirs l) ->
  suffix (input g) = ".gdi" -> parent (input g) = parent (input f) ->
  suffix (input f) = ".gdi".
Proof.
  intros Hf Hg Sg Pg.
  apply filter_other_in_gdi_dirs_In in Hf. destruct Hf as [_ [Hf | Hf]].
  - exact Hf.
  - exfalso. apply Hf. exists g. split; [ | auto].
    apply filter_other_in_gdi_dirs_incl. exact Hg.
Qed.

(** The first pass changes nothing in a batch whose directories with an
    entry .gdi hold only such entries. *)
Lemma filter_other_in_gdi_dirs_fixed (l' : list File) :
  (forall f g, In f l' -> In g l' ->
               suffix (input g) = ".gdi" -> parent (input g) = parent (input f) ->
               suffix (input f) = ".gdi") ->
  filter_other_in_gdi_dirs l' = l'.
Proof.
  intros P. unfold filter_other_in_gdi_dirs.
  pose proof (in_collected_dirs
                (fun f => String.eqb (suffix (input f)) ".gdi") l') as D.
  destruct (map (fun f => parent (input f))
                (filter (fun f => String.eqb (suffix (input f)) ".gdi") l'))
    as [ | d0 dirs] eqn:E; [reflexivity | ].
  apply filter_all_true. intros x Hx.
  destruct (String.eqb_spec (suffix (input x)) ".gdi") as [S | S];
    [apply orb_true_r | ].
  apply orb_true_iff. left. apply negb_true_iff. apply in_dirs_false.
  intros Hd. apply D in Hd. destruct Hd as (g & Hg & Sg & Pg).
  apply String.eqb_eq in Sg. apply S. exact (P x g Hx Hg Sg Pg).
Qed.

Lemma sheet_dirs_post (l : list File) (f g : File) :
  In f (filter_images_in_sheet_dirs l) -> In g (filter_images_in_sheet_dirs l) ->
  has_type sheet g = true -> parent (input g) = parent (input f) ->
  suffix (input f) <> ".iso".
Proof.
  intros Hf Hg Tg Pg S.
  apply filter_images_in_sheet_dirs_retained in Hf. destruct Hf as [_ Hf].
  apply Hf. split; [exact S | ]. exists g. split; [ | auto].
  apply filter_images_in_sheet_dirs_incl. exact Hg.
Qed.

(** The second pass changes nothing in a batch where no entry .iso shares
    its directory with a sheet. *)
Lemma filter_images_in_sheet_dirs_fixed (l' : list File) :
  (forall f g, In f l' -> In g l' ->
               has_type sheet g = true -> parent (input g) = parent (input f) ->
               suffix (input f) <> ".iso") ->
  filter_images_in_sheet_dirs l' = l'.
Proof.
  intros P. unfold filter_images_in_sheet_dirs.
  pose proof (in_collected_dirs (has_type sheet) l') as D.
  destruct (map (fun f => parent (input f)) (filter (has_type sheet) l'))
    as [ | d0 dirs] eqn:E; [reflexivity | ].
  apply filter_all_true. intros x Hx.
  apply negb_true_iff. apply andb_false_iff.
  destruct (String.eqb_spec (suffix (input x)) ".iso") as [S | S]; [ | right; reflexivity].
  left. apply in_dirs_false. intros Hd. apply D in Hd.
  destruct Hd as (g & Hg & Tg & Pg). exact (P x g Hx Hg Tg Pg S).
Qed.

(** After the first pass, a directory that holds an entry with the suffix
    .gdi holds only such entries; a second run of the pass changes
    nothing. *)
Theorem filter_other_in_gdi_dirs_exclusive (l : list File) :
  (forall f g,
      In f (filter_other_in_gdi_dirs l) -> In g (filter_other_in_gdi_dirs l) ->
      suffix (input g) = ".gdi" -> parent (input g) = parent (input f) ->
      suffix (input f) = ".gdi")
  /\ filter_other_in_gdi_dirs (filter_other_in_gdi_dirs l)
     = filter_other_in_gdi_dirs l.
Proof.
  split.
  - apply gdi_dirs_post.
  - apply filter_other_in_gdi_dirs_fixed. apply gdi_dirs_post.
Qed.

(** After the second pass, no entry with the suffix .iso shares its
    directory with an entry of type sheet; a second run of the pass changes
    nothing. *)
Theorem filter_images_in_sheet_dirs_exclusive (l : list File) :
  (forall f g,
      In f (filter_images_in_sheet_dirs l) -> In g (filter_images_in_sheet_dirs l) ->
      has_type sheet g = true -> parent (input g) = parent (input f) ->
      suffix (input f) <> ".iso")
  /\ filter_images_in_sheet_dirs (filter_images_in_sheet_dirs l)
     = filter_images_in_sheet_dirs l.
Proof.
  split.
  - apply sheet_dirs_post.
  - apply filter_images_in_sheet_dirs_fixed. apply sheet_dirs_post.
Qed.

(** A witness of the two passes: the sheet a.gdi with a track in /d, and
    the sheet b.cue with b.iso in /e. *)
Lemma filter_other_in_gdi_dirs_exclusive_witness :
  suffix (input (entry "/d/a.gdi")) = ".gdi"
  /\ filter_other_in_gdi_dirs [entry "/d/a.gdi"; entry "/d/t.iso"; entry "/e/b.iso"]
     = [entry "/d/a.gdi"; entry "/e/b.iso"].
Proof.
  split.
  - apply (proj1 (filter_other_in_gdi_dirs_exclusive
                    [entry "/d/a.gdi"; entry "/d/t.iso"; entry "/e/b.iso"])
             (entry "/d/a.gdi") (entry "/d/a.gdi")).
    + simpl. auto.
    + simpl. auto.
    + reflexivity.
    + reflexivity.
  - reflexivity.
Defined.

Lemma filter_images_in_sheet_dirs_exclusive_witness :
  suffix (input (entry "/e/b.cue")) <> ".iso"
  /\ filter_images_in_sheet_dirs [entry "/e/b.cue"; entry "/e/b.iso"; entry "/f/c.iso"]
     = [entry "/e/b.cue"; entry "/f/c.iso"].
Proof.
  split.
  - apply (proj1 (filter_images_in_sheet_dirs_exclusive
                    [entry "/e/b.cue"; entry "/e/b.iso"; entry "/f/c.iso"])
             (entry "/e/b.cue") (entry "/e/b.cue")).
    + simpl. auto.
    + simpl. auto.
    + reflexivity.
    + reflexivity.
  - reflexivity.
Defined.

(** The pipeline of [get_files] and of [convert_archive], the second pass
    after the first: it only removes entries, it never removes an entry
    with the suffix .gdi, its result satisfies what each pass ensures, and
    running it on its own result changes nothing. *)
Theorem filter_pipeline (l : list File) :
  let l' := filter_images_in_sheet_dirs (filter_other_in_gdi_dirs l) in
  incl l' l
  /\ (forall g, In g l -> suffix (input g) = ".gdi" -> In g l')
  /\ (forall f g, In f l' -> In g l' ->
                  suffix (input g) = ".gdi" -> parent (input g) = parent (input f) ->
                  suffix (input f) = ".gdi")
  /\ (forall f g, In f l' -> In g l' ->
                  has_type sheet g = true -> parent (input g) = parent (input f) ->
                  suffix (input f) <> ".iso")
  /\ filter_images_in_sheet_dirs (filter_other_in_gdi_dirs l') = l'.
Proof.
  intros l'.
  assert (I2 : incl l' (filter_other_in_gdi_dirs l))
    by apply filter_images_in_sheet_dirs_incl.
  assert (G : forall f g, In f l' -> In g l' ->
                          suffix (input g) = ".gdi" ->
                          parent (input g) = parent (input f) ->
                          suffix (input f) = ".gdi").
  { intros f g Hf Hg. apply (gdi_dirs_post l); apply I2; assumption. }
  split; [ | split; [ | split; [exact G | split]]].
  - intros f H. apply filter_other_in_gdi_dirs_incl. apply I2. exact H.
  - intros g Hg Sg. apply filter_images_in_sheet_dirs_retained. split.
    + apply filter_other_in_gdi_dirs_In. split; [exact Hg | left; exact Sg].
    + intros [S _]. rewrite Sg in S. discriminate.
  - apply sheet_dirs_post.
  - rewrite (filter_other_in_gdi_dirs_fixed l' G).
    apply filter_images_in_sheet_dirs_fixed. apply sheet_dirs_post.
Qed.

(** A witness: a sheet .gdi with its tracks, and a sheet .cue with an
    image. *)
Lemma filter_pipeline_witness :
  let l := [entry "/d/a.gdi"; entry "/d/t1.iso"; entry "/e/b.cue"; entry "/e/b.iso";
            entry "/f/c.iso"] in
  filter_images_in_sheet_dirs (filter_other_in_gdi_dirs l)
  = [entry "/d/a.gdi"; entry "/e/b.cue"; entry "/f/c.iso"]
  /\ In (entry "/d/a.gdi") (filter_images_in_sheet_dirs (filter_other_in_gdi_dirs l)).
Proof.
  intros l. split; [reflexivity | ].
  apply (proj1 (proj2 (filter_pipeline l)) (entry "/d/a.gdi")).
  - simpl. auto.
  - reflexivity.
Defined.

Lemma has_type_image_or_sheet (f : File) :
  has_type image f || has_type sheet f = true
  <-> type f = Some image \/ type f = Some sheet.
Proof.
  unfold has_type. destruct (type f) as [[ | | ] | ]; simpl; split; intros H;
    try reflexivity; try discriminate; auto;
    destruct H as [H | H]; discriminate.
Qed.

(** The members [convert_archive] converts: they are entries of the
    listing, of type image or sheet; and when one of them is of type
    sheet, none has the suffix .iso, in whatever directory. *)
Theorem archive_members_sound (l : list File) :
  (forall f, In f (archive_members l) ->
             In f l /\ (type f = Some image \/ type f = Some sheet))
  /\ (forall f g, In f (archive_members l) -> In g (archive_members l) ->
                  type g = Some sheet -> suffix (input f) <> ".iso").
Proof.
  unfold archive_members.
  set (typed := filter (fun f => has_type image f || has_type sheet f) l).
  set (x := filter_images_in_sheet_dirs (filter_other_in_gdi_dirs typed)).
  assert (Ix : forall f, In f x ->
                         In f l /\ (type f = Some image \/ type f = Some sheet)).
  { intros f H. apply filter_images_in_sheet_dirs_incl in H.
    apply filter_other_in_gdi_dirs_incl in H.
    apply filter_In in H. destruct H as [H1 H2].
    split; [exact H1 | apply has_type_image_or_sheet; exact H2]. }
  destruct (filter (has_type sheet) x) as [ | s0 sheets] eqn:E.
  - split; [exact Ix | ].
    intros f g _ Hg Tg. exfalso.
    assert (Hs : In g (filter (has_type sheet) x)).
    { apply filter_In. split; [exact Hg | ]. unfold has_type. rewrite Tg. reflexivity. }
    rewrite E in Hs. destruct Hs.
  - split.
    + intros f H. apply filter_In in H. apply Ix. apply H.
    + intros f g Hf _ _ S. apply filter_In in Hf. destruct Hf as [_ Hf].
      rewrite S in Hf. discriminate.
Qed.

(** A witness: an archive with a sheet, its track and an image elsewhere. *)
Lemma archive_members_sound_witness :
  archive_members [entry "/t/disc.cue"; entry "/t/disc.bin"; entry "/t/sub/extra.iso";
                   entry "/t/sub/EXTRA.ISO"]
  = [entry "/t/disc.cue"; entry "/t/sub/EXTRA.ISO"]
  /\ suffix (input (entry "/t/sub/EXTRA.ISO")) <> ".iso".
Proof.
  split; [reflexivity | ].
  apply (proj2 (archive_members_sound
                  [entry "/t/disc.cue"; entry "/t/disc.bin"; entry "/t/sub/extra.iso";
                   entry "/t/sub/EXTRA.ISO"])
           (entry "/t/sub/EXTRA.ISO") (entry "/t/disc.cue")).
  - simpl. auto.
  - simpl. auto.
  - reflexivity.
Defined.

(** ** The size of a file *)

Lemma round_half_even_error (n d : Z) :
  0 < d -> 2 * Z.abs (d * round_half_even n d - n) <= d.
Proof.
  intros Hd. unfold round_half_even.
  pose proof (Z.div_mod n d ltac:(lia)) as D.
  pose proof (Z.mod_pos_bound n d Hd) as B.
  set (q := n / d) in *. set (r := n mod d) in *. clearbody q r.
  destruct (Z.ltb_spec (2 * r) d); [nia | ].
  destruct (Z.ltb_spec d (2 * r)); [nia | ].
  destruct (Z.even q); nia.
Qed.

Lemma round_half_even_monotone (n1 n2 d : Z) :
  0 < d -> n1 <= n2 -> round_half_even n1 d <= round_half_even n2 d.
Proof.
  intros Hd Hn.
  pose proof (Z.div_le_mono n1 n2 d Hd Hn) as Q.
  unfold round_half_even.
  pose proof (Z.div_mod n1 d ltac:(lia)) as D1.
  pose proof (Z.mod_pos_bound n1 d Hd) as B1.
  pose proof (Z.div_mod n2 d ltac:(lia)) as D2.
  pose proof (Z.mod_pos_bound n2 d Hd) as B2.
  set (q1 := n1 / d) in *. set (r1 := n1 mod d) in *.
  set (q2 := n2 / d) in *. set (r2 := n2 mod d) in *.
  clearbody q1 r1 q2 r2.
  assert (C : q1 < q2 \/ (q1 = q2 /\ r1 <= r2)) by nia.
  destruct C as [C | [C R]].
  - destruct (2 * r1 <? d), (d <? 2 * r1), (Z.even q1),
      (2 * r2 <? d), (d <? 2 * r2), (Z.even q2); lia.
  - subst q2.
    destruct (Z.ltb_spec (2 * r1) d), (Z.ltb_spec d (2 * r1)),
      (Z.ltb_spec (2 * r2) d), (Z.ltb_spec d (2 * r2)), (Z.even q1); lia.
Qed.

Lemma get_size_known_unit (unit : string) :
  In unit ["B"; "KB"; "MB"; "GB"] ->
  exists e, dict_get unit exponents_map = Some e /\ 0 <= e <= 3
            /\ String.eqb unit "bytes" = false.
Proof.
  intros [H | [H | [H | [H | []]]]]; subst unit;
    [exists 0 | exists 1 | exists 2 | exists 3]; repeat split; lia.
Qed.

Lemma get_size_unknown_unit (unit : string) :
  ~ In unit ["B"; "KB"; "MB"; "GB"] -> dict_get unit exponents_map = None.
Proof.
  intros N. unfold exponents_map, dict_get.
  destruct (String.eqb_spec "B" unit) as [E | _]; [exfalso; apply N; simpl; auto | ].
  destruct (String.eqb_spec "KB" unit) as [E | _]; [exfalso; apply N; simpl; auto | ].
  destruct (String.eqb_spec "MB" unit) as [E | _]; [exfalso; apply N; simpl; auto | ].
  destruct (String.eqb_spec "GB" unit) as [E | _]; [exfalso; apply N; simpl; auto | ].
  reflexivity.
Qed.

(** The errors of [get_size].  A unit other than B, KB, MB and GB raises
    ValueError, whether the file is there or not: so does the unit bytes,
    whose branch is never reached.  With one of the four units a missing
    file raises FileNotFoundError.  Neither touches the state. *)
Theorem get_size_errors (file : File) (unit : string) (self : App) (w : World) :
  (~ In unit ["B"; "KB"; "MB"; "GB"] ->
   get_size file unit self w = (Raise ValueError, self, w))
  /\ (In unit ["B"; "KB"; "MB"; "GB"] -> fs_stat (input file) (fs w) = None ->
      get_size file unit self w = (Raise FileNotFoundError, self, w)).
Proof.
  split.
  - intros N. unfold get_size. rewrite (get_size_unknown_unit unit N). reflexivity.
  - intros H S. destruct (get_size_known_unit unit H) as (e & E & _ & _).
    unfold get_size. rewrite E. run_monad. rewrite S. reflexivity.
Qed.

(** A witness: the unit bytes, and a missing file measured in MB. *)
Lemma get_size_errors_witness :
  get_size (entry "/d/a.iso") "bytes" (example_app mode_cd false false false)
           (example_world [(Path_of_string "/d/a.iso", 5)] [])
  = (Raise ValueError, example_app mode_cd false false false,
     example_world [(Path_of_string "/d/a.iso", 5)] [])
  /\ get_size (entry "/d/a.iso") "MB" (example_app mode_cd false false false)
              (example_world [] [])
     = (Raise FileNotFoundError, example_app mode_cd false false false,
        example_world [] []).
Proof.
  split.
  - apply (proj1 (get_size_errors (entry "/d/a.iso") "bytes"
                    (example_app mode_cd false false false)
                    (example_world [(Path_of_string "/d/a.iso", 5)] []))).
    simpl. intros [H | [H | [H | [H | []]]]]; discriminate.
  - apply (proj2 (get_size_errors (entry "/d/a.iso") "MB"
                    (example_app mode_cd false false false) (example_world [] []))).
    + simpl. auto.
    + reflexivity.
Defined.

Lemma get_size_eq (file : File) (unit : string) (e : Z) (self : App)
  (w : World) (size : Z) :
  dict_get unit exponents_map = Some e ->
  fs_stat (input file) (fs w) = Some size ->
  get_size file unit self w
  = (Ok (Qmake (round_half_even (size * 1000) (1024 ^ e)) 1000), self, w).
Proof.
  intros E S.
  assert (U : In unit ["B"; "KB"; "MB"; "GB"]).
  { destruct (in_dec string_dec unit ["B"; "KB"; "MB"; "GB"]) as [I | N]; [exact I | ].
    rewrite (get_size_unknown_unit unit N) in E. discriminate. }
  destruct U as [U | [U | [U | [U | []]]]]; subst unit;
    injection E as E; subst e;
    unfold get_size; cbn [dict_get exponents_map String.eqb Ascii.eqb Bool.eqb];
    run_monad; rewrite S; unfold round3;
    cbn [Qnum Qden inject_Z Qdiv Qmult Qinv Z.pow Z.pow_pos Pos.iter Z.mul Pos.mul];
    rewrite ?Z.mul_1_r; reflexivity.
Qed.

Lemma exponent_positive (unit : string) (e : Z) :
  dict_get unit exponents_map = Some e -> exists p, 1024 ^ e = Zpos p.
Proof.
  intros E.
  destruct (in_dec string_dec unit ["B"; "KB"; "MB"; "GB"]) as [U | N].
  - destruct U as [U | [U | [U | [U | []]]]]; subst unit;
      injection E as E; subst e; eexists; reflexivity.
  - rewrite (get_size_unknown_unit unit N) in E. discriminate.
Qed.

Lemma round_half_even_tie (n d : Z) :
  0 < d -> 2 * Z.abs (d * round_half_even n d - n) = d ->
  Z.even (round_half_even n d) = true.
Proof.
  intros Hd. unfold round_half_even.
  pose proof (Z.div_mod n d ltac:(lia)) as D.
  pose proof (Z.mod_pos_bound n d Hd) as B.
  set (q := n / d) in *. set (r := n mod d) in *. clearbody q r.
  destruct (Z.ltb_spec (2 * r) d); [nia | ].
  destruct (Z.ltb_spec d (2 * r)); [nia | ].
  intros _. destruct (Z.even q) eqn:Q; [exact Q | ].
  change (q + 1) with (Z.succ q). rewrite Z.even_succ, <- Z.negb_even, Q.
  reflexivity.
Qed.

(** The value of [get_size], for a file of less than 2^53 bytes that is
    there, in one of the four units, whose exponent is [e].  The result
    is a number [k] of thousandths (standing for the float nearest to
    [k / 1000]): [k] is the integer nearest to the size times 1000 divided
    by 1024 to the power [e], and the even one of the two when the
    quotient lies half-way; in B it is the size times 1000.  The state is
    untouched. *)
Theorem get_size_value (file : File) (unit : string) (e : Z) (self : App)
  (w : World) (size : Z) :
  dict_get unit exponents_map = Some e ->
  fs_stat (input file) (fs w) = Some size ->
  0 <= size < 2 ^ 53 ->
  exists k,
    get_size file unit self w = (Ok (Qmake k 1000), self, w)
    /\ 2 * Z.abs (1024 ^ e * k - size * 1000) <= 1024 ^ e
    /\ (2 * Z.abs (1024 ^ e * k - size * 1000) = 1024 ^ e -> Z.even k = true)
    /\ (unit = "B" -> k = size * 1000).
Proof.
  intros E S _.
  exists (round_half_even (size * 1000) (1024 ^ e)).
  split; [apply get_size_eq; assumption | ].
  destruct (exponent_positive unit e E) as [p Hp]. rewrite Hp.
  split; [apply round_half_even_error; lia | ].
  split; [apply round_half_even_tie; lia | ].
  intros U. subst unit. injection E as <-. change (1024 ^ 0) with 1 in Hp.
  rewrite <- Hp. unfold round_half_even. rewrite Z.mod_1_r, Z.div_1_r. reflexivity.
Qed.

(** A witness: 65536 bytes are 0.0625 MB, half-way between 0.062 and
    0.063, and the result is 0.062. *)
Lemma get_size_value_witness :
  get_size (entry "/d/a.iso") "MB" (example_app mode_cd false false false)
           (example_world [(Path_of_string "/d/a.iso", 65536)] [])
  = (Ok (Qmake 62 1000), example_app mode_cd false false false,
     example_world [(Path_of_string "/d/a.iso", 65536)] []).
Proof.
  destruct (get_size_value (entry "/d/a.iso") "MB" 2
              (example_app mode_cd false false false)
              (example_world [(Path_of_string "/d/a.iso", 65536)] []) 65536)
    as (k & E & B & T & _).
  - reflexivity.
  - reflexivity.
  - lia.
  - rewrite E. change (1024 ^ 2) with 1048576 in B, T.
    assert (K : k = 62 \/ k = 63) by lia.
    destruct K as [-> | ->]; [reflexivity | ].
    discriminate (T eq_refl).
Defined.

(** [get_size] is monotone: in one unit, a file that is not smaller in
    bytes does not get a smaller size; so no file above a threshold is
    measured below a file under it. *)
Theorem get_size_monotone (file1 file2 : File) (unit : string) (e : Z)
  (self1 self2 : App) (w1 w2 : World) (size1 size2 : Z) :
  dict_get unit exponents_map = Some e ->
  fs_stat (input file1) (fs w1) = Some size1 ->
  fs_stat (input file2) (fs w2) = Some size2 ->
  size1 <= size2 ->
  exists q1 q2,
    result_of (get_size file1 unit self1 w1) = Ok q1
    /\ result_of (get_size file2 unit self2 w2) = Ok q2
    /\ Qle q1 q2.
Proof.
  intros E S1 S2 L.
  rewrite (get_size_eq file1 unit e self1 w1 size1 E S1).
  rewrite (get_size_eq file2 unit e self2 w2 size2 E S2).
  eexists; eexists. split; [reflexivity | ]. split; [reflexivity | ].
  destruct (exponent_positive unit e E) as [p Hp]. rewrite Hp.
  unfold Qle. cbn [Qnum Qden].
  pose proof (round_half_even_monotone (size1 * 1000) (size2 * 1000) (Zpos p)
                ltac:(lia) ltac:(lia)).
  lia.
Qed.

(** A witness: two sizes in MB. *)
Lemma get_size_monotone_witness :
  exists q1 q2,
    result_of (get_size (entry "/d/a.iso") "MB" (example_app mode_cd false false false)
                 (example_world [(Path_of_string "/d/a.iso", 786432000)] [])) = Ok q1
    /\ result_of (get_size (entry "/d/b.iso") "MB"
                    (example_app mode_cd false false false)
                    (example_world [(Path_of_string "/d/b.iso", 786432525)] [])) = Ok q2
    /\ Qle q1 q2.
Proof.
  apply (get_size_monotone (entry "/d/a.iso") (entry "/d/b.iso") "MB" 2 _ _ _ _
           786432000 786432525).
  - reflexivity.
  - reflexivity.
  - reflexivity.
  - lia.
Defined.

(** ** The lines of a run and the counters *)

Lemma tally_app (e1 e2 : list Event) (self : App) :
  tally (e1 ++ e2) self = tally e2 (tally e1 self).
Proof. unfold tally. apply fold_left_app. Qed.

Lemma parallel_counted (m : Message) (self : App) :
  parallel (counted m self) = parallel self.
Proof. unfold counted. destruct (parallel self) eqn:P, m; simpl; auto. Qed.

Lemma parallel_tally (evs : list Event) (self : App) :
  parallel (tally evs self) = parallel self.
Proof.
  revert self. induction evs as [ | e evs IH]; intros self; [reflexivity | ].
  unfold tally in *. simpl. rewrite IH. apply parallel_counted.
Qed.

(** *** Computations that print nothing *)

Lemma silent_ret {A : Type} (a : A) : silent (ret a).
Proof. intros self w. split; reflexivity. Qed.

Lemma silent_raise {A : Type} (e : Exn) : silent (@raise A e).
Proof. intros self w. split; reflexivity. Qed.

Lemma silent_get_self : silent get_self.
Proof. intros self w. split; reflexivity. Qed.

Lemma silent_get_world : silent get_world.
Proof. intros self w. split; reflexivity. Qed.

Lemma silent_bind {A B : Type} (m : M A) (k : A -> M B) :
  silent m -> (forall a, silent (k a)) -> silent (bind m k).
Proof.
  intros Hm Hk self w. unfold bind.
  destruct (Hm self w) as [O S].
  destruct (m self w) as [[r self'] w']. unfold app_of, world_of in *.
  cbn [fst snd] in *. subst self'. destruct r as [a | e].
  - destruct (Hk a self w') as [O' S']. unfold app_of, world_of in *.
    split; [rewrite O'; exact O | exact S'].
  - split; [exact O | reflexivity].
Qed.

Lemma silent_set_fs (f : World -> FS) :
  silent (modify_world (fun w => set_fs (f w) w)).
Proof. intros self w. split; reflexivity. Qed.

Lemma silent_subprocess_run
  (run_process : list Spawn -> Spawn -> FS -> CompletedProcess * FS)
  (cmd : list string) (so se : bool) :
  silent (subprocess_run run_process cmd so se).
Proof.
  intros self w. unfold subprocess_run.
  destruct (run_process _ _ _). split; reflexivity.
Qed.

Lemma silent_TemporaryDirectory (mkdtemp : FS -> list string -> Path -> option string) (dir : Path) :
  silent (TemporaryDirectory mkdtemp dir).
Proof.
  intros self w. unfold TemporaryDirectory.
  destruct (mkdtemp _ _ _); split; reflexivity.
Qed.

Lemma silent_cleanup (n : string) : silent (cleanup n).
Proof. intros self w. split; reflexivity. Qed.

Create HintDb silent.
#[local] Hint Resolve silent_ret silent_raise silent_get_self silent_get_world
  silent_set_fs silent_subprocess_run silent_TemporaryDirectory silent_cleanup
  : silent.

Ltac silent :=
  repeat first
    [ solve [auto with silent]
    | apply silent_bind; [ | intro ]
    | match goal with
      | |- silent (if ?b then _ else _) => destruct b
      | |- silent (match ?x with _ => _ end) => destruct x
      end ].

Lemma silent_path_exists (p : Path) : silent (path_exists p).
Proof. unfold path_exists. silent. Qed.

Lemma silent_unlink (p : Path) : silent (unlink p).
Proof. unfold unlink. silent. Qed.

Lemma silent_st_size (p : Path) : silent (st_size p).
Proof. unfold st_size. silent. Qed.

#[local] Hint Resolve silent_path_exists silent_unlink silent_st_size : silent.

Lemma silent_move (src dst : Path) : silent (move src dst).
Proof. unfold move. silent. Qed.

Lemma silent_lift_option {A : Type} (e : Exn) (o : option A) :
  silent (lift_option e o).
Proof. unfold lift_option. silent. Qed.

Lemma silent_tempdir_name (file : File) : silent (tempdir_name file).
Proof. unfold tempdir_name. silent. Qed.

Lemma silent_get_size (file : File) (unit : string) : silent (get_size file unit).
Proof. unfold get_size. destruct (dict_get unit exponents_map); silent. Qed.

#[local] Hint Resolve silent_move silent_lift_option silent_tempdir_name
  silent_get_size : silent.

Lemma silent_chdman_command (file : File) : silent (chdman_command file).
Proof.
  unfold chdman_command. apply silent_bind; [silent | intro self].
  apply silent_bind; [ | intro; silent].
  destruct (mode self); silent.
Qed.

Lemma silent_extract_command (archive : File) : silent (extract_command archive).
Proof. unfold extract_command. silent. Qed.

Lemma silent_File_init (mkdtemp : FS -> list string -> Path -> option string)
  (p : Path) (d t : option Path) :
  silent (File_init mkdtemp p d t).
Proof. unfold File_init. silent. Qed.

Lemma silent_mapM {A B : Type} (f : A -> M B) (l : list A) :
  (forall a, silent (f a)) -> silent (mapM f l).
Proof. intros Hf. induction l as [ | a l IH]; simpl; silent. Qed.

#[local] Hint Resolve silent_chdman_command silent_extract_command silent_File_init
  : silent.

Section Silent.

Variable run_process : list Spawn -> Spawn -> FS -> CompletedProcess * FS.
Variable mkdtemp : FS -> list string -> Path -> option string.

Lemma silent_run_convert_process (cmd : list string) :
  silent (run_convert_process run_process cmd).
Proof. unfold run_convert_process. silent. Qed.

Lemma silent_listing_from_archive (file : File) :
  silent (listing_from_archive run_process mkdtemp file).
Proof.
  unfold listing_from_archive. silent. apply silent_mapM. intros entry. silent.
Qed.

(** With the job index 0 [convert_file] prints nothing and counts
    nothing. *)
Lemma silent_convert_file_sentinel (file : File) :
  silent (convert_file run_process file 0).
Proof.
  pose proof silent_run_convert_process as R.
  unfold convert_file. change (0 =? 0) with true. cbv iota. silent.
Qed.

End Silent.

(** *** Computations that print lines *)

Lemma trace_at_silent {A : Type} (R : list Event -> Prop) (m : M A)
  (self : App) (w : World) :
  silent m -> R [] -> trace_at R m self w.
Proof.
  intros S H. destruct (S self w) as [O P]. exists []. rewrite app_nil_r.
  split; [exact O | ]. split; [exact H | exact P].
Qed.

Lemma trace_at_message_job (R : list Event -> Prop) (message : Message) (path : Path)
  (job_index : Z) (self : App) (w : World) :
  R [job_line self message path job_index] ->
  trace_at R (message_job message path job_index) self w.
Proof.
  intros H. exists [job_line self message path job_index].
  split; [reflexivity | ]. split; [exact H | reflexivity].
Qed.

Lemma trace_at_bind {A B : Type} (R1 R2 R : list Event -> Prop)
  (m : M A) (k : A -> M B) (self : App) (w : World) :
  trace_at R1 m self w ->
  (forall a self' w', m self w = (Ok a, self', w') -> trace_at R2 (k a) self' w') ->
  (forall e1, R1 e1 -> R e1) ->
  (forall e1 e2, R1 e1 -> R2 e2 -> R (e1 ++ e2)) ->
  trace_at R (bind m k) self w.
Proof.
  intros (e1 & O1 & H1 & S1) Hk Hr Happ. unfold trace_at, bind.
  destruct (m self w) as [[r self'] w'] eqn:E. unfold app_of, world_of in *.
  cbn [fst snd] in *. destruct r as [a | e].
  - destruct (Hk a self' w' eq_refl) as (e2 & O2 & H2 & S2).
    unfold app_of, world_of in *.
    exists (e1 ++ e2). split; [rewrite O2, O1, app_assoc; reflexivity | ].
    split; [apply Happ; assumption | ].
    rewrite S2, S1, tally_app. reflexivity.
  - exists e1. split; [exact O1 | ]. split; [apply Hr; exact H1 | exact S1].
Qed.

(** The lines all satisfy [P]. *)
Lemma lines_silent {A : Type} (P : Event -> Prop) (m : M A) :
  silent m -> trace (Forall P) m.
Proof. intros S self w. apply trace_at_silent; [exact S | constructor]. Qed.

Lemma lines_message_job (P : Event -> Prop) (message : Message) (path : Path)
  (job_index : Z) :
  (forall path_msg, P (mkEvent message path_msg job_index)) ->
  trace (Forall P) (message_job message path job_index).
Proof.
  intros H self w. apply trace_at_message_job.
  constructor; [apply H | constructor].
Qed.

Lemma lines_bind {A B : Type} (P : Event -> Prop) (m : M A) (k : A -> M B) :
  trace (Forall P) m -> (forall a, trace (Forall P) (k a)) ->
  trace (Forall P) (bind m k).
Proof.
  intros Hm Hk self w.
  apply (trace_at_bind (Forall P) (Forall P) (Forall P)).
  - apply Hm.
  - intros a self' w' _. apply Hk.
  - auto.
  - intros e1 e2 H1 H2. apply Forall_app. split; assumption.
Qed.

Ltac lines :=
  repeat first
    [ apply lines_silent; solve [auto with silent]
    | apply lines_message_job; intro; solve [unfold closing; simpl; auto]
    | solve [auto]
    | apply lines_bind; [ | intro ]
    | match goal with
      | |- trace _ (if ?b then _ else _) => destruct b
      | |- trace _ (match ?x with _ => _ end) => destruct x
      end ].

Section Lines.

Variable run_process : list Spawn -> Spawn -> FS -> CompletedProcess * FS.
Variable mkdtemp : FS -> list string -> Path -> option string.

(** What [convert_file] does after the line Started. *)
Lemma lines_convert_file (P : Event -> Prop) (file : File) (job_index : Z) :
  (forall message path_msg, P (mkEvent message path_msg job_index)) ->
  trace (Forall P) (convert_file run_process file job_index).
Proof.
  intros HP.
  pose proof (silent_run_convert_process run_process) as R.
  unfold convert_file.
  repeat first
    [ apply lines_silent; solve [auto with silent]
    | apply lines_message_job; intro; apply HP
    | apply lines_bind; [ | intro ]
    | match goal with
      | |- trace _ (if ?b then _ else _) => destruct b
      end ].
Qed.

Lemma closing_convert_member (archive : File) (job_index : Z) (file : File) :
  trace (Forall (closing job_index))
        (convert_member run_process archive job_index file).
Proof.
  pose proof (silent_convert_file_sentinel run_process) as F.
  unfold convert_member. lines.
Qed.

Lemma closing_convert_members (archive : File) (job_index : Z) (archlist : list File) :
  forall completed,
    trace (Forall (closing job_index))
          (convert_members run_process archive job_index archlist completed).
Proof.
  pose proof closing_convert_member as M.
  induction archlist as [ | file archlist IH]; intros completed; simpl; lines.
Qed.

(** What [convert_archive] does after the line Started. *)
Lemma closing_convert_archive_rest (archive : File) (job_index : Z) :
  trace (Forall (closing job_index))
        (archlist <- listing_from_archive run_process mkdtemp archive ;;
         match archive_members archlist with
         | [] => message_job Failed (output archive) job_index ;; ret None
         | _ :: _ =>
             cmd <- extract_command archive ;;
             completed <- run_convert_process run_process cmd ;;
             completed' <-
               (if returncode completed =? 0
                then convert_members run_process archive job_index
                       (archive_members archlist) completed
                else message_job Failed (output archive) job_index ;;
                     ret completed) ;;
             n <- tempdir_name archive ;;
             cleanup n ;;
             ret (Some completed')
         end)%py.
Proof.
  pose proof (silent_listing_from_archive run_process mkdtemp) as L.
  pose proof (silent_run_convert_process run_process) as R.
  pose proof closing_convert_members as M.
  apply lines_bind; [lines | intro archlist].
  destruct (archive_members archlist) as [ | file members]; lines.
Qed.

Lemma job_lines_started (job_index : Z) (e : Event) (rest : list Event) :
  ev_message e = Started -> ev_job_index e = job_index ->
  Forall (closing job_index) rest -> job_lines job_index (e :: rest).
Proof.
  intros H1 H2 H3. exists e, rest. split; [reflexivity | ].
  split; [left; exact H1 | ]. split; assumption.
Qed.

(** The lines of a job of [convert_archive]. *)
Lemma job_lines_convert_archive (archive : File) (job_index : Z) :
  trace (job_lines job_index) (convert_archive run_process mkdtemp archive job_index).
Proof.
  intros self w. unfold convert_archive.
  apply (trace_at_bind
           (fun evs => evs = [job_line self Started (input archive) job_index])
           (Forall (closing job_index)) (job_lines job_index)).
  - apply trace_at_message_job. reflexivity.
  - intros a self' w' _. apply closing_convert_archive_rest.
  - intros e1 ->. apply job_lines_started; [reflexivity | reflexivity | constructor].
  - intros e1 e2 -> H. apply job_lines_started; [reflexivity | reflexivity | exact H].
Qed.

(** The lines of a job of [convert_file] with a job index other than 0. *)
Lemma job_lines_convert_file (file : File) (job_index : Z) :
  job_index <> 0 ->
  trace (job_lines job_index) (convert_file run_process file job_index).
Proof.
  intros J self w. unfold convert_file.
  assert (Z0 : (job_index =? 0) = false) by (apply Z.eqb_neq; exact J).
  rewrite Z0.
  pose proof (silent_run_convert_process run_process) as R.
  apply (trace_at_bind
           (fun evs => evs = [job_line self Started (input file) job_index])
           (Forall (closing job_index)) (job_lines job_index)).
  - apply trace_at_message_job. reflexivity.
  - intros a self' w' _. generalize self' w'. lines.
  - intros e1 ->. apply job_lines_started; [reflexivity | reflexivity | constructor].
  - intros e1 e2 -> H. apply job_lines_started; [reflexivity | reflexivity | exact H].
Qed.

Lemma job_lines_skipped (file : File) (job_index : Z) (pool : list Job)
  (self : App) (w : World) :
  trace_at (job_lines job_index)
           (message_job Skipped (input file) job_index ;; ret pool)%py self w.
Proof.
  apply (trace_at_bind
           (fun evs => evs = [job_line self Skipped (input file) job_index])
           (Forall (closing job_index)) (job_lines job_index)).
  - apply trace_at_message_job. reflexivity.
  - intros a self' w' _. apply trace_at_silent; [apply silent_ret | constructor].
  - intros e1 ->. exists (job_line self Skipped (input file) job_index), [].
    split; [reflexivity | ]. split; [right; reflexivity | ].
    split; [reflexivity | constructor].
  - intros e1 e2 -> H. exists (job_line self Skipped (input file) job_index), e2.
    split; [reflexivity | ]. split; [right; reflexivity | ].
    split; [reflexivity | exact H].
Qed.

Lemma trace_at_then_ret {A B : Type} (R : list Event -> Prop) (m : M A) (b : B)
  (self : App) (w : World) :
  trace_at R m self w -> trace_at R (m ;; ret b)%py self w.
Proof.
  intros H.
  apply (trace_at_bind R (fun evs => evs = []) R).
  - exact H.
  - intros a self' w' _. apply trace_at_silent; [apply silent_ret | reflexivity].
  - auto.
  - intros e1 e2 H1 ->. rewrite app_nil_r. exact H1.
Qed.

(** The branches of the body of the loop of [convert]. *)
Lemma convert_entry_eq (file : File) (job_index : Z) (pool : list Job)
  (self : App) (w : World) :
  convert_entry run_process mkdtemp file job_index pool self w
  = if dry_run self || fs_exists (output file) (fs w) then
      (message_job Skipped (input file) job_index ;; ret pool)%py self w
    else if has_type image file || has_type sheet file then
      if parallel self then (Ok (pool ++ [Job_convert_file file job_index]), self, w)
      else (convert_file run_process file job_index ;; ret pool)%py self w
    else if has_type archive file then
      if parallel self then (Ok (pool ++ [Job_convert_archive file job_index]), self, w)
      else (convert_archive run_process mkdtemp file job_index ;; ret pool)%py self w
    else (message_job Skipped (input file) job_index ;; ret pool)%py self w.
Proof.
  unfold convert_entry. unfold bind at 1. unfold get_self at 1. cbv beta iota.
  destruct (dry_run self); [reflexivity | ]. cbn [orb].
  unfold bind at 1. unfold path_exists at 1. unfold bind at 1.
  unfold get_world at 1. cbv beta iota. unfold ret at 1. cbv beta iota.
  destruct (fs_exists (output file) (fs w)); [reflexivity | ].
  destruct (has_type image file || has_type sheet file).
  - destruct (parallel self); reflexivity.
  - destruct (has_type archive file); [ | reflexivity].
    destruct (parallel self); reflexivity.
Qed.

Lemma then_ret_result {A B : Type} (m : M A) (b b' : B) (self self' : App)
  (w w' : World) :
  (m ;; ret b)%py self w = (Ok b', self', w') -> b' = b.
Proof.
  unfold bind, ret. destruct (m self w) as [[[a | e] s1] w1]; intros E;
    [injection E as E _ _; auto | discriminate].
Qed.

(** In serial mode, the lines of one entry of the queue. *)
Lemma job_lines_convert_entry (file : File) (job_index : Z) (pool : list Job)
  (self : App) (w : World) :
  parallel self = false -> job_index <> 0 ->
  trace_at (job_lines job_index)
           (convert_entry run_process mkdtemp file job_index pool) self w.
Proof.
  intros P J. unfold trace_at. rewrite convert_entry_eq, P.
  destruct (dry_run self || fs_exists (output file) (fs w));
    [apply job_lines_skipped | ].
  destruct (has_type image file || has_type sheet file).
  { apply trace_at_then_ret. apply job_lines_convert_file. exact J. }
  destruct (has_type archive file); [ | apply job_lines_skipped].
  apply trace_at_then_ret. apply job_lines_convert_archive.
Qed.

End Lines.

(** *** A serial run *)

Lemma trace_at_weaken {A : Type} (R R' : list Event -> Prop) (m : M A)
  (self : App) (w : World) :
  trace_at R m self w -> (forall evs, R evs -> R' evs) -> trace_at R' m self w.
Proof.
  intros (evs & O & H & S) W. exists evs. split; [exact O | ]. split; [apply W; exact H | exact S].
Qed.

Lemma stats_tally (evs : list Event) (self : App) :
  parallel self = false ->
  stats_started (tally evs self) = stats_started self + count_of Started evs
  /\ stats_skipped (tally evs self) = stats_skipped self + count_of Skipped evs
  /\ stats_failed (tally evs self) = stats_failed self + count_of Failed evs
  /\ stats_completed (tally evs self) = stats_completed self + count_of Completed evs.
Proof.
  revert self. induction evs as [ | e evs IH]; intros self P.
  - unfold count_of. simpl. repeat split; lia.
  - change (tally (e :: evs) self) with (tally evs (counted (ev_message e) self)).
    destruct (IH (counted (ev_message e) self)) as (H1 & H2 & H3 & H4).
    { rewrite parallel_counted. exact P. }
    rewrite H1, H2, H3, H4. unfold counted. rewrite P. cbn [negb].
    unfold count_of. cbn [filter].
    destruct (ev_message e); cbn [count_message stats_started stats_skipped
                                   stats_failed stats_completed List.length];
      repeat split; lia.
Qed.

Section Serial.

Variable run_process : list Spawn -> Spawn -> FS -> CompletedProcess * FS.
Variable mkdtemp : FS -> list string -> Path -> option string.

(** In serial mode an entry of the queue prints lines and counts them,
    whatever its job index. *)
Lemma trace_convert_entry (file : File) (job_index : Z) (pool : list Job)
  (self : App) (w : World) :
  parallel self = false ->
  trace_at (fun _ => True)
           (convert_entry run_process mkdtemp file job_index pool) self w.
Proof.
  intros P.
  assert (S : trace_at (fun _ => True)
                (message_job Skipped (input file) job_index ;; ret pool)%py self w).
  { apply (trace_at_weaken (job_lines job_index)); [apply job_lines_skipped | auto]. }
  unfold trace_at. rewrite convert_entry_eq, P.
  destruct (dry_run self || fs_exists (output file) (fs w)); [exact S | ].
  destruct (has_type image file || has_type sheet file).
  { apply trace_at_then_ret.
    apply (trace_at_weaken (Forall (fun _ => True))); [ | auto].
    apply lines_convert_file. auto. }
  destruct (has_type archive file); [ | exact S].
  apply trace_at_then_ret.
  apply (trace_at_weaken (job_lines job_index)); [ | auto].
  apply job_lines_convert_archive.
Qed.

Lemma convert_entry_serial_pool (file : File) (job_index : Z) (pool pool' : list Job)
  (self self' : App) (w w' : World) :
  parallel self = false ->
  convert_entry run_process mkdtemp file job_index pool self w = (Ok pool', self', w') ->
  pool' = pool.
Proof.
  intros P. rewrite convert_entry_eq, P.
  destruct (dry_run self || fs_exists (output file) (fs w));
    [apply then_ret_result | ].
  destruct (has_type image file || has_type sheet file); [apply then_ret_result | ].
  destruct (has_type archive file); apply then_ret_result.
Qed.

(** The loop of a serial run: one block of lines for each entry it gets
    to, in the order of the queue. *)
Lemma convert_loop_serial (Q : Z -> Prop) (R : Z -> list Event -> Prop) :
  (forall j, Q j -> Q (j + 1)) ->
  (forall file j pool self w,
      parallel self = false -> Q j ->
      trace_at (R j) (convert_entry run_process mkdtemp file j pool) self w) ->
  forall file_list j pool self w,
    parallel self = false -> Q j ->
    let run := convert_loop run_process mkdtemp file_list j j pool self w in
    exists blocks,
      out (world_of run) = out w ++ concat blocks
      /\ app_of run = tally (concat blocks) self
      /\ (List.length blocks <= List.length file_list)%nat
      /\ (forall i, (i < List.length blocks)%nat ->
                    R (j + Z.of_nat i) (nth i blocks []))
      /\ (forall r, result_of run = Ok r ->
                    r = (j + Z.of_nat (List.length file_list), pool)
                    /\ List.length blocks = List.length file_list).
Proof.
  intros HQ Hentry file_list.
  induction file_list as [ | file file_list IH]; intros j pool self w P Hj run.
  - exists []. unfold run. cbn [convert_loop]. unfold ret, app_of, world_of, result_of.
    cbn [fst snd concat List.length]. rewrite app_nil_r, Z.add_0_r.
    split; [reflexivity | ]. split; [reflexivity | ]. split; [lia | ].
    split.
    + intros i Hi. inversion Hi.
    + intros r Hr. injection Hr as Hr. split; [symmetry; exact Hr | reflexivity].
  - unfold run. cbn [convert_loop]. unfold bind.
    destruct (Hentry file j pool self w P Hj) as (evs & O & H & St).
    pose proof (convert_entry_serial_pool file j pool) as Hpool.
    destruct (convert_entry run_process mkdtemp file j pool self w)
      as [[r self1] w1] eqn:E.
    unfold app_of, world_of in O, St. cbn [fst snd] in O, St.
    destruct r as [pool' | e].
    + assert (pool' = pool) by exact (Hpool pool' self self1 w w1 P E). subst pool'.
      destruct (IH (j + 1) pool self1 w1) as (blocks & O' & St' & L & B & Res).
      { subst self1. rewrite parallel_tally. exact P. }
      { apply HQ. exact Hj. }
      exists (evs :: blocks). cbn [concat List.length].
      split; [rewrite O', O, app_assoc; reflexivity | ].
      split; [rewrite St', St, tally_app; reflexivity | ].
      split; [lia | ].
      split.
      * intros [ | i] Hi.
        { cbn [nth]. rewrite Z.add_0_r. exact H. }
        { cbn [nth]. replace (j + Z.of_nat (S i)) with (j + 1 + Z.of_nat i) by lia.
          apply B. lia. }
      * intros r' Hr. destruct (Res r' Hr) as [R1 R2]. split; [ | lia].
        rewrite R1. f_equal. lia.
    + exists [evs]. cbn [concat List.length]. rewrite app_nil_r.
      unfold app_of, world_of, result_of. cbn [fst snd].
      split; [exact O | ]. split; [exact St | ]. split; [lia | ].
      split.
      * intros [ | i] Hi; [ | lia]. cbn [nth]. rewrite Z.add_0_r. exact H.
      * intros r' Hr. discriminate.
Qed.

(** A serial run of [convert] is its loop. *)
Lemma convert_serial_eq (file_list : list File) (start_index : Z)
  (self : App) (w : World) :
  parallel self = false ->
  convert run_process mkdtemp file_list start_index self w
  = match convert_loop run_process mkdtemp file_list start_index start_index []
            self w with
    | (Ok r, self', w') => (Ok (fst r), self', w')
    | (Raise e, self', w') => (Raise e, self', w')
    end.
Proof.
  intros P.
  destruct (convert_loop_serial (fun _ => True) (fun _ _ => True)
              ltac:(auto) ltac:(intros; apply trace_convert_entry; assumption)
              file_list start_index [] self w P I)
    as (blocks & _ & St & _).
  cbv zeta in St. unfold convert, bind.
  destruct (convert_loop run_process mkdtemp file_list start_index start_index []
              self w) as [[r self1] w1].
  unfold app_of in St. cbn [fst snd] in St.
  destruct r as [r | e]; [ | reflexivity].
  unfold get_self.
  assert (P1 : parallel self1 = false) by (rewrite St, parallel_tally; exact P).
  rewrite P1. reflexivity.
Qed.

(** In serial mode, with job indices from 1 on, the lines of a run of
    [convert] are one block for each entry the run gets to, in the order of
    the queue: one line Started or Skipped, then lines Failed or
    Completed, all with the index of the entry.  When [convert] returns it
    got to every entry, and it returns the index after the last. *)
Theorem convert_serial_job_lines (file_list : list File) (start_index : Z)
  (self : App) (w : World) :
  parallel self = false -> 0 < start_index ->
  let run := convert run_process mkdtemp file_list start_index self w in
  exists blocks,
    out (world_of run) = out w ++ concat blocks
    /\ (List.length blocks <= List.length file_list)%nat
    /\ (forall i, (i < List.length blocks)%nat ->
                  job_lines (start_index + Z.of_nat i) (nth i blocks []))
    /\ (forall r, result_of run = Ok r ->
                  r = start_index + Z.of_nat (List.length file_list)
                  /\ List.length blocks = List.length file_list).
Proof.
  intros P Hs run.
  destruct (convert_loop_serial (fun j => 0 < j) job_lines
              ltac:(cbv beta; intros; lia)
              ltac:(intros file j pool s0 w0 P0 Hj;
                    apply job_lines_convert_entry; [exact P0 | cbv beta in Hj; lia])
              file_list start_index [] self w P Hs)
    as (blocks & O & _ & L & B & R).
  cbv zeta in O, R.
  exists blocks. unfold run. rewrite (convert_serial_eq file_list start_index self w P).
  destruct (convert_loop run_process mkdtemp file_list start_index start_index []
              self w) as [[r0 self1] w1].
  unfold world_of, result_of in *. cbn [fst snd] in *.
  destruct r0 as [r0 | e]; cbn [fst snd].
  - split; [exact O | ]. split; [exact L | ]. split; [exact B | ].
    intros r Hr. injection Hr as Hr. destruct (R r0 eq_refl) as [R1 R2].
    subst r r0. split; [reflexivity | exact R2].
  - split; [exact O | ]. split; [exact L | ]. split; [exact B | ].
    intros r Hr. discriminate.
Qed.

(** In serial mode each of the four counters grows, over a run of
    [convert], by the number of lines of its kind the run prints, whether
    the run returns or raises; and the run only appends lines. *)
Theorem convert_serial_counters (file_list : list File) (start_index : Z)
  (self : App) (w : World) :
  parallel self = false ->
  let run := convert run_process mkdtemp file_list start_index self w in
  exists evs,
    out (world_of run) = out w ++ evs
    /\ stats_started (app_of run) = stats_started self + count_of Started evs
    /\ stats_skipped (app_of run) = stats_skipped self + count_of Skipped evs
    /\ stats_failed (app_of run) = stats_failed self + count_of Failed evs
    /\ stats_completed (app_of run) = stats_completed self + count_of Completed evs.
Proof.
  intros P run.
  destruct (convert_loop_serial (fun _ => True) (fun _ _ => True)
              ltac:(auto) ltac:(intros; apply trace_convert_entry; assumption)
              file_list start_index [] self w P I)
    as (blocks & O & St & _).
  cbv zeta in O, St.
  exists (concat blocks). unfold run.
  rewrite (convert_serial_eq file_list start_index self w P).
  destruct (convert_loop run_process mkdtemp file_list start_index start_index []
              self w) as [[r0 self1] w1].
  unfold world_of, app_of in *. cbn [fst snd] in *.
  assert (G : out w1 = out w ++ concat blocks
              /\ stats_started self1 = stats_started self + count_of Started (concat blocks)
              /\ stats_skipped self1 = stats_skipped self + count_of Skipped (concat blocks)
              /\ stats_failed self1 = stats_failed self + count_of Failed (concat blocks)
              /\ stats_completed self1
                 = stats_completed self + count_of Completed (concat blocks)).
  { split; [exact O | ]. rewrite St. apply stats_tally. exact P. }
  destruct r0; exact G.
Qed.

End Serial.

(** A witness: a serial run over the archive /d/game.7z and two images,
    the output of the second being there already. *)
Lemma convert_serial_job_lines_witness :
  let run := convert example_tools example_mkdtemp
               [example_game; entry "/d/a.iso"; entry "/d/x.iso"] 1
               (example_app mode_cd false false false)
               (example_world [(Path_of_string "/d/game.7z", 10);
                               (Path_of_string "/d/a.chd", 2)] ["/d/tmp0"]) in
  result_of run = Ok 4
  /\ map (fun e => (ev_message e, ev_job_index e)) (out (world_of run))
     = [(Started, 1); (Completed, 1); (Skipped, 2); (Started, 3); (Completed, 3)]
  /\ exists blocks,
      out (world_of run) = [] ++ concat blocks
      /\ (List.length blocks <= 3)%nat
      /\ (forall i, (i < List.length blocks)%nat ->
                    job_lines (1 + Z.of_nat i) (nth i blocks []))
      /\ (forall r, result_of run = Ok r ->
                    r = 1 + Z.of_nat 3 /\ List.length blocks = 3%nat).
Proof.
  intros run. split; [reflexivity | ]. split; [reflexivity | ].
  apply (convert_serial_job_lines example_tools example_mkdtemp
           [example_game; entry "/d/a.iso"; entry "/d/x.iso"] 1
           (example_app mode_cd false false false)
           (example_world [(Path_of_string "/d/game.7z", 10);
                           (Path_of_string "/d/a.chd", 2)] ["/d/tmp0"])).
  - reflexivity.
  - lia.
Defined.

Lemma convert_serial_counters_witness :
  let self := example_app mode_cd false false false in
  let w := example_world [(Path_of_string "/d/game.7z", 10);
                          (Path_of_string "/d/a.chd", 2)] ["/d/tmp0"] in
  let run := convert example_tools example_mkdtemp
               [example_game; entry "/d/a.iso"; entry "/d/x.iso"] 1 self w in
  (stats_started (app_of run), stats_skipped (app_of run),
   stats_failed (app_of run), stats_completed (app_of run)) = (2, 1, 0, 2)
  /\ exists evs,
      out (world_of run) = out w ++ evs
      /\ stats_started (app_of run) = stats_started self + count_of Started evs
      /\ stats_skipped (app_of run) = stats_skipped self + count_of Skipped evs
      /\ stats_failed (app_of run) = stats_failed self + count_of Failed evs
      /\ stats_completed (app_of run)
         = stats_completed self + count_of Completed evs.
Proof.
  intros self w run. split; [reflexivity | ].
  apply (convert_serial_counters example_tools example_mkdtemp
           [example_game; entry "/d/a.iso"; entry "/d/x.iso"] 1 self w).
  reflexivity.
Defined.

(** ** Exceptions *)

Section Exceptions.

Variable run_process : list Spawn -> Spawn -> FS -> CompletedProcess * FS.
Variable mkdtemp : FS -> list string -> Path -> option string.

Lemma convert_file_raise_eq (file : File) (job_index : Z) (self : App) (w : World) :
  chosen_subcommand self file (fs w) = None ->
  convert_file run_process file job_index self w
  = if job_index =? 0 then (Raise FileNotFoundError, self, w)
    else (Raise FileNotFoundError, counted Started self,
          print (job_line self Started (input file) job_index) w).
Proof.
  intros Hsub. unfold convert_file.
  destruct (job_index =? 0).
  - unfold bind at 1. unfold ret at 1.
    unfold bind at 1. rewrite chdman_command_eq, Hsub. reflexivity.
  - unfold bind at 1. unfold message_job at 1.
    fold (counted Started self). fold (path_msg self (input file)).
    fold (job_line self Started (input file) job_index).
    unfold bind at 1. rewrite chdman_command_eq. cbn [fs print].
    rewrite chosen_subcommand_counted, Hsub. reflexivity.
Qed.

(** Under [auto], when the input file is not there to be measured,
    [convert_file] raises FileNotFoundError: with a job index other than 0
    it has printed Started and prints neither Completed nor Failed; no
    process is run and no file is touched. *)
Theorem convert_file_auto_missing_input (file : File) (job_index : Z)
  (self : App) (w : World) :
  mode self = mode_auto ->
  fs_stat (input file) (fs w) = None ->
  job_index <> 0 ->
  exists self' w',
    convert_file run_process file job_index self w
    = (Raise FileNotFoundError, self', w')
    /\ out w' = out w ++ [job_line self Started (input file) job_index]
    /\ procs w' = procs w /\ fs w' = fs w.
Proof.
  intros Hm Hs J.
  assert (Hsub : chosen_subcommand self file (fs w) = None).
  { unfold chosen_subcommand. rewrite Hm, Hs. reflexivity. }
  rewrite (convert_file_raise_eq file job_index self w Hsub).
  assert (Z0 : (job_index =? 0) = false) by (apply Z.eqb_neq; exact J).
  rewrite Z0. eexists; eexists. split; [reflexivity | ]. repeat split.
Qed.

(** In serial mode an exception of one job ends the run: when the first
    entry of the queue is an image or a sheet to convert under [auto] and
    its input is not there, [convert] raises FileNotFoundError after the
    line Started of that entry, and the entries after it get no line at
    all. *)
Theorem convert_serial_stops_at_exception (file : File) (file_list : list File)
  (start_index : Z) (self : App) (w : World) :
  parallel self = false -> dry_run self = false ->
  mode self = mode_auto ->
  type file = Some image \/ type file = Some sheet ->
  fs_exists (output file) (fs w) = false ->
  fs_stat (input file) (fs w) = None ->
  start_index <> 0 ->
  exists self' w',
    convert run_process mkdtemp (file :: file_list) start_index self w
    = (Raise FileNotFoundError, self', w')
    /\ out w' = out w ++ [job_line self Started (input file) start_index]
    /\ procs w' = procs w /\ fs w' = fs w.
Proof.
  intros P D Hm T X Hs J.
  rewrite (convert_serial_eq run_process mkdtemp (file :: file_list) start_index
             self w P).
  cbn [convert_loop]. unfold bind at 1.
  rewrite convert_entry_eq, D, X, P. cbn [orb].
  rewrite (proj2 (has_type_image_or_sheet file) T).
  unfold bind at 1.
  assert (Hsub : chosen_subcommand self file (fs w) = None).
  { unfold chosen_subcommand. rewrite Hm, Hs. reflexivity. }
  rewrite (convert_file_raise_eq file start_index self w Hsub).
  assert (Z0 : (start_index =? 0) = false) by (apply Z.eqb_neq; exact J).
  rewrite Z0. eexists; eexists. split; [reflexivity | ]. repeat split.
Qed.

(** What [convert_member] does once chdman has returned for the member and
    the destination is known. *)
Lemma convert_member_eq (archive : File) (job_index : Z) (file : File)
  (self : App) (w : World) (c : CompletedProcess) (w1 : World) (dest_path : Path) :
  convert_file run_process file 0 self w = (Ok c, self, w1) ->
  (if no_rename self
   then with_name (output archive) (name (output file))
   else Some (output archive)) = Some dest_path ->
  convert_member run_process archive job_index file self w
  = if returncode c =? 0 then
      match fs_stat (output file) (fs_unlink dest_path (fs w1)) with
      | Some size =>
          (Ok c, counted Completed self,
           mkWorld ((dest_path, size)
                      :: fs_unlink dest_path
                           (fs_unlink (output file) (fs_unlink dest_path (fs w1))))
                   (tempdirs w1) (procs w1)
                   (out w1 ++ [job_line self Completed dest_path job_index]))
      | None =>
          (Raise FileNotFoundError, self, set_fs (fs_unlink dest_path (fs w1)) w1)
      end
    else
      (Ok c, counted Failed self,
       mkWorld (fs_unlink dest_path (fs w1)) (tempdirs w1) (procs w1)
               (out w1 ++ [job_line self Failed dest_path job_index])).
Proof.
  intros Hc Hd. unfold convert_member.
  unfold bind at 1. rewrite Hc.
  unfold bind at 1. unfold get_self at 1.
  assert (Hdest : (if no_rename self
                   then lift_option ValueError
                          (with_name (output archive) (name (output file)))
                   else ret (output archive)) = ret dest_path).
  { destruct (no_rename self).
    - rewrite Hd. reflexivity.
    - injection Hd as Hd. rewrite Hd. reflexivity. }
  rewrite Hdest.
  destruct (returncode c =? 0).
  - run_monad. cbn [fs set_fs].
    destruct (fs_stat (output file) (fs_unlink dest_path (fs w1))) as [size | ];
      [ | reflexivity].
    cbn [fs set_fs tempdirs procs out].
    unfold fs_exists at 1. rewrite fs_stat_head. reflexivity.
  - run_monad. reflexivity.
Qed.

(** When chdman exits with status zero for a member of an archive without
    having written its output, [convert_member] raises FileNotFoundError
    at the move: the destination has been unlinked, and neither Completed
    nor Failed is printed for the member. *)
Theorem convert_member_missing_output (archive : File) (job_index : Z) (file : File)
  (self : App) (w : World) (c : CompletedProcess) (self1 : App) (w1 : World)
  (dest_path : Path) :
  convert_file run_process file 0 self w = (Ok c, self1, w1) ->
  returncode c = 0 ->
  (if no_rename self
   then with_name (output archive) (name (output file))
   else Some (output archive)) = Some dest_path ->
  fs_exists (output file) (fs_unlink dest_path (fs w1)) = false ->
  exists w',
    convert_member run_process archive job_index file self w
    = (Raise FileNotFoundError, self, w')
    /\ fs w' = fs_unlink dest_path (fs w1)
    /\ out w' = out w /\ tempdirs w' = tempdirs w1.
Proof.
  intros Hc Hrc Hd X.
  assert (Hself : self1 = self).
  { pose proof (convert_file_sentinel_self run_process file self w) as S.
    rewrite Hc in S. exact S. }
  subst self1.
  assert (O : out w1 = out w).
  { pose proof (silent_convert_file_sentinel run_process file self w) as [S _].
    rewrite Hc in S. exact S. }
  rewrite (convert_member_eq archive job_index file self w c w1 dest_path Hc Hd).
  rewrite Hrc. change (0 =? 0) with true. cbv iota.
  unfold fs_exists in X.
  destruct (fs_stat (output file) (fs_unlink dest_path (fs w1))); [discriminate | ].
  eexists. split; [reflexivity | ]. cbn [fs out tempdirs set_fs].
  split; [reflexivity | ]. split; [exact O | reflexivity].
Qed.

End Exceptions.

(** A witness: an image whose input is gone, under [auto]. *)
Lemma convert_file_auto_missing_input_witness :
  exists self' w',
    convert_file example_tools (entry "/d/a.iso") 1
      (example_app mode_auto false false false) (example_world [] [])
    = (Raise FileNotFoundError, self', w')
    /\ out w' = [] ++ [job_line (example_app mode_auto false false false) Started
                         (input (entry "/d/a.iso")) 1]
    /\ procs w' = [] /\ fs w' = [].
Proof.
  apply (convert_file_auto_missing_input example_tools (entry "/d/a.iso") 1
           (example_app mode_auto false false false) (example_world [] [])).
  - reflexivity.
  - reflexivity.
  - discriminate.
Defined.

Lemma convert_serial_stops_at_exception_witness :
  exists self' w',
    convert example_tools example_mkdtemp [entry "/d/a.iso"; entry "/d/b.iso"] 1
      (example_app mode_auto false false false)
      (example_world [(Path_of_string "/d/b.iso", 7)] [])
    = (Raise FileNotFoundError, self', w')
    /\ out w' = [] ++ [job_line (example_app mode_auto false false false) Started
                         (input (entry "/d/a.iso")) 1]
    /\ procs w' = [] /\ fs w' = [(Path_of_string "/d/b.iso", 7)].
Proof.
  apply (convert_serial_stops_at_exception example_tools example_mkdtemp
           (entry "/d/a.iso") [entry "/d/b.iso"] 1
           (example_app mode_auto false false false)
           (example_world [(Path_of_string "/d/b.iso", 7)] [])).
  - reflexivity.
  - reflexivity.
  - reflexivity.
  - left. reflexivity.
  - reflexivity.
  - reflexivity.
  - discriminate.
Defined.

(** A witness: a chdman that exits with 0 and writes nothing. *)
Lemma convert_member_missing_output_witness :
  exists w',
    convert_member (fun _ _ f => (mkCompleted 0 "", f)) example_game 1
      (entry "/d/tmp0/track.iso") (example_app mode_cd false false false)
      (example_world [(Path_of_string "/d/tmp0/track.iso", 1)] ["/d/tmp0"])
    = (Raise FileNotFoundError, example_app mode_cd false false false, w')
    /\ fs w' = [(Path_of_string "/d/tmp0/track.iso", 1)]
    /\ out w' = [] /\ tempdirs w' = ["/d/tmp0"].
Proof.
  destruct (convert_member_missing_output (fun _ _ f => (mkCompleted 0 "", f))
              example_game 1 (entry "/d/tmp0/track.iso")
              (example_app mode_cd false false false)
              (example_world [(Path_of_string "/d/tmp0/track.iso", 1)] ["/d/tmp0"])
              (mkCompleted 0 "") (example_app mode_cd false false false)
              (mkWorld [(Path_of_string "/d/tmp0/track.iso", 1)] ["/d/tmp0"]
                       [convert_spawn (example_app mode_cd false false false)
                          (chdman_line (example_app mode_cd false false false)
                             (entry "/d/tmp0/track.iso") "createcd")] [])
              (Path_of_string "/d/game.chd"))
    as (w' & E & F & O & T).
  - reflexivity.
  - reflexivity.
  - reflexivity.
  - reflexivity.
  - exists w'. split; [exact E | ]. split; [exact F | ]. split; [exact O | exact T].
Defined.

(** ** The temporary directory of an archive job *)

Lemma grows_ret {A : Type} (a : A) : grows (ret a).
Proof. intros self w. apply incl_refl. Qed.

Lemma grows_raise {A : Type} (e : Exn) : grows (@raise A e).
Proof. intros self w. apply incl_refl. Qed.

Lemma grows_get_self : grows get_self.
Proof. intros self w. apply incl_refl. Qed.

Lemma grows_get_world : grows get_world.
Proof. intros self w. apply incl_refl. Qed.

Lemma grows_bind {A B : Type} (m : M A) (k : A -> M B) :
  grows m -> (forall a, grows (k a)) -> grows (bind m k).
Proof.
  intros Hm Hk self w. unfold bind.
  pose proof (Hm self w) as I.
  destruct (m self w) as [[r self'] w']. unfold world_of in *. cbn [snd] in *.
  destruct r as [a | e]; [ | exact I].
  eapply incl_tran; [exact I | ]. apply (Hk a self' w').
Qed.

Lemma grows_set_fs (f : World -> FS) :
  grows (modify_world (fun w => set_fs (f w) w)).
Proof. intros self w. apply incl_refl. Qed.

Lemma grows_message_job (message : Message) (path : Path) (job_index : Z) :
  grows (message_job message path job_index).
Proof. intros self w. apply incl_refl. Qed.

Lemma grows_subprocess_run
  (run_process : list Spawn -> Spawn -> FS -> CompletedProcess * FS)
  (cmd : list string) (so se : bool) :
  grows (subprocess_run run_process cmd so se).
Proof.
  intros self w. unfold subprocess_run.
  destruct (run_process _ _ _). apply incl_refl.
Qed.

Lemma grows_TemporaryDirectory (mkdtemp : FS -> list string -> Path -> option string) (dir : Path) :
  grows (TemporaryDirectory mkdtemp dir).
Proof.
  intros self w. unfold TemporaryDirectory.
  destruct (mkdtemp _ _ _); [apply incl_tl | ]; apply incl_refl.
Qed.

Create HintDb grows.
#[local] Hint Resolve grows_ret grows_raise grows_get_self grows_get_world
  grows_set_fs grows_message_job grows_subprocess_run grows_TemporaryDirectory
  : grows.

Ltac grows :=
  repeat first
    [ solve [auto with grows]
    | apply grows_bind; [ | intro ]
    | match goal with
      | |- grows (if ?b then _ else _) => destruct b
      | |- grows (match ?x with _ => _ end) => destruct x
      end ].

Lemma grows_path_exists (p : Path) : grows (path_exists p).
Proof. unfold path_exists. grows. Qed.

Lemma grows_unlink (p : Path) : grows (unlink p).
Proof. unfold unlink. grows. Qed.

Lemma grows_st_size (p : Path) : grows (st_size p).
Proof. unfold st_size. grows. Qed.

#[local] Hint Resolve grows_path_exists grows_unlink grows_st_size : grows.

Lemma grows_move (src dst : Path) : grows (move src dst).
Proof. unfold move. grows. Qed.

Lemma grows_lift_option {A : Type} (e : Exn) (o : option A) : grows (lift_option e o).
Proof. unfold lift_option. grows. Qed.

Lemma grows_get_size (file : File) (unit : string) : grows (get_size file unit).
Proof. unfold get_size. destruct (dict_get unit exponents_map); grows. Qed.

#[local] Hint Resolve grows_move grows_lift_option grows_get_size : grows.

Lemma grows_chdman_command (file : File) : grows (chdman_command file).
Proof.
  unfold chdman_command. apply grows_bind; [grows | intro self].
  apply grows_bind; [ | intro; grows].
  destruct (mode self); grows.
Qed.

#[local] Hint Resolve grows_chdman_command : grows.

Lemma fs_rmtree_under (d p : Path) (f : FS) :
  under d p = true -> fs_exists p (fs_rmtree d f) = false.
Proof.
  intros U. unfold fs_exists.
  assert (H : fs_stat p (fs_rmtree d f) = None); [ | rewrite H; reflexivity].
  induction f as [ | [q size] f IH]; [reflexivity | ].
  unfold fs_rmtree in *. cbn [filter fst].
  destruct (under d q) eqn:Uq; cbn [negb]; [exact IH | ].
  cbn [fs_stat]. unfold path_eqb. destruct (Path_eq_dec q p) as [E | _].
  - subst q. rewrite U in Uq. discriminate.
  - exact IH.
Qed.

Lemma not_in_filter_neq (n : string) (l : list string) :
  ~ In n (filter (fun m => negb (String.eqb m n)) l).
Proof.
  intros H. apply filter_In in H. destruct H as [_ H].
  rewrite String.eqb_refl in H. discriminate.
Qed.

Section Tempdir.

Variable run_process : list Spawn -> Spawn -> FS -> CompletedProcess * FS.
Variable mkdtemp : FS -> list string -> Path -> option string.

Lemma grows_run_convert_process (cmd : list string) :
  grows (run_convert_process run_process cmd).
Proof. unfold run_convert_process. grows. Qed.

Lemma grows_convert_file (file : File) (job_index : Z) :
  grows (convert_file run_process file job_index).
Proof.
  pose proof grows_run_convert_process as R.
  unfold convert_file. grows.
Qed.

Lemma grows_convert_member (archive : File) (job_index : Z) (file : File) :
  grows (convert_member run_process archive job_index file).
Proof.
  pose proof grows_convert_file as F.
  unfold convert_member. grows.
Qed.

Lemma grows_convert_members (archive : File) (job_index : Z) (archlist : list File) :
  forall completed,
    grows (convert_members run_process archive job_index archlist completed).
Proof.
  pose proof grows_convert_member as M.
  induction archlist as [ | file archlist IH]; intros completed; simpl; grows.
Qed.

Lemma grows_listing_from_archive (file : File) :
  grows (listing_from_archive run_process mkdtemp file).
Proof.
  intros self w.
  destruct (listing_from_archive_frame run_process mkdtemp file self w)
    as (r & tds & E & I & _).
  rewrite E. exact I.
Qed.

Lemma extract_command_eq (archive : File) (self : App) (w : World) :
  extract_command archive self w
  = (match tempdir archive with
     | Some n => Ok (extract_line self archive n)
     | None => Raise AttributeError
     end, self, w).
Proof.
  unfold extract_command, tempdir_name, extract_line. run_monad.
  destruct (tempdir archive); reflexivity.
Qed.

(** How a job of [convert_archive] ends, by its result. *)
Lemma convert_archive_ends (archive : File) (job_index : Z) (self : App) (w : World)
  (r : Result (option CompletedProcess)) (self' : App) (w' : World) :
  convert_archive run_process mkdtemp archive job_index self w = (r, self', w') ->
  match r with
  | Ok (Some c) =>
      exists n w3,
        tempdir archive = Some n
        /\ tempdirs w' = filter (fun m => negb (String.eqb m n)) (tempdirs w3)
        /\ fs w' = fs_rmtree (Path_of_string n) (fs w3)
  | _ => incl (tempdirs w) (tempdirs w')
  end.
Proof.
  unfold convert_archive. unfold bind at 1. unfold message_job at 1.
  unfold bind at 1.
  pose proof (grows_listing_from_archive archive
                (if negb (parallel self) then count_message Started self else self)
                (print (mkEvent Started
                          (if names self then name (input archive)
                           else as_posix (input archive)) job_index) w)) as G1.
  destruct (listing_from_archive run_process mkdtemp archive _ _)
    as [[[l | e] s1] w1]; unfold world_of in G1; cbn [snd tempdirs print] in G1.
  2: { intros E. injection E as <- <- <-. exact G1. }
  destruct (archive_members l) as [ | file members] eqn:M.
  { run_monad. intros E. injection E as <- <- <-. exact G1. }
  unfold bind at 1. rewrite extract_command_eq.
  destruct (tempdir archive) as [n | ] eqn:T.
  2: { intros E. injection E as <- <- <-. exact G1. }
  unfold bind at 1. rewrite run_convert_process_eq.
  set (sp := convert_spawn s1 (extract_line s1 archive n)).
  set (c := fst (run_process (procs w1) sp (fs w1))).
  set (w2 := mkWorld (snd (run_process (procs w1) sp (fs w1))) (tempdirs w1)
                     (procs w1 ++ [sp]) (out w1)).
  unfold bind at 1.
  assert (G2 : forall s, incl (tempdirs w)
                 (tempdirs (world_of
                    ((if returncode c =? 0
                      then convert_members run_process archive job_index
                             (file :: members) c
                      else (message_job Failed (output archive) job_index ;;
                            ret c)%py) s w2)))).
  { intros s. eapply incl_tran; [exact G1 | ].
    change (tempdirs w1) with (tempdirs w2).
    destruct (returncode c =? 0).
    - apply grows_convert_members.
    - apply grows_bind; [apply grows_message_job | intro; apply grows_ret]. }
  specialize (G2 s1).
  destruct ((if returncode c =? 0
             then convert_members run_process archive job_index (file :: members) c
             else (message_job Failed (output archive) job_index ;; ret c)%py) s1 w2)
    as [[[c' | e] s3] w3]; unfold world_of in G2; cbn [snd] in G2.
  2: { intros E. injection E as <- <- <-. exact G2. }
  unfold tempdir_name. rewrite T. run_monad.
  intros E. injection E as <- <- <-.
  exists n, w3. repeat split.
Qed.

(** The temporary directory and the result of [convert_archive].  When the
    job returns a completed process, the temporary directory of the archive
    has been cleaned up: it is no longer live and no file is left under
    it.  When the job returns [None] or raises, no temporary directory has
    been removed: those that were live before are live after. *)
Theorem convert_archive_tempdir (archive : File) (job_index : Z) (self : App)
  (w : World) :
  let run := convert_archive run_process mkdtemp archive job_index self w in
  (forall c, result_of run = Ok (Some c) ->
             exists n,
               tempdir archive = Some n
               /\ ~ In n (tempdirs (world_of run))
               /\ forall p, under (Path_of_string n) p = true ->
                            fs_exists p (fs (world_of run)) = false)
  /\ ((forall c, result_of run <> Ok (Some c)) ->
      incl (tempdirs w) (tempdirs (world_of run))).
Proof.
  intros run.
  pose proof (convert_archive_ends archive job_index self w) as H.
  fold run in H. destruct run as [[r self'] w'].
  specialize (H r self' w' eq_refl).
  unfold result_of, world_of. cbn [fst snd]. split.
  - intros c E. subst r. destruct H as (n & w3 & T & D & F).
    exists n. split; [exact T | ]. split.
    + rewrite D. apply not_in_filter_neq.
    + intros p U. rewrite F. apply fs_rmtree_under. exact U.
  - intros N. destruct r as [[c | ] | e]; [exfalso; apply (N c); reflexivity | | ];
      exact H.
Qed.

End Tempdir.

(** A witness: the job of /d/game.7z that converts its member, and the
    job whose chdman writes nothing. *)
Lemma convert_archive_tempdir_witness :
  let done := convert_archive example_tools example_mkdtemp example_game 1
                (example_app mode_cd false false false) example_world0 in
  let raised := convert_archive
                  (fun _ sp f =>
                     if String.eqb (subcommand sp) "l" then (mkCompleted 0 example_listing, f)
                     else (mkCompleted 0 "", f))
                  example_mkdtemp example_game 1
                  (example_app mode_cd false false false) example_world0 in
  (exists n, tempdir example_game = Some n
             /\ ~ In n (tempdirs (world_of done))
             /\ forall p, under (Path_of_string n) p = true ->
                          fs_exists p (fs (world_of done)) = false)
  /\ result_of raised = Raise FileNotFoundError
  /\ incl (tempdirs example_world0) (tempdirs (world_of raised)).
Proof.
  intros done raised. split; [ | split; [reflexivity | ]].
  - apply (proj1 (convert_archive_tempdir example_tools example_mkdtemp example_game 1
                    (example_app mode_cd false false false) example_world0)
             (mkCompleted 0 "")).
    reflexivity.
  - apply (proj2 (convert_archive_tempdir _ example_mkdtemp example_game 1
                    (example_app mode_cd false false false) example_world0)).
    intros c. vm_compute. discriminate.
Defined.

Section Extraction.

Variable run_process : list Spawn -> Spawn -> FS -> CompletedProcess * FS.
Variable mkdtemp : FS -> list string -> Path -> option string.

Lemma extract_line_counted (m : Message) (self : App) (archive : File) (n : string) :
  extract_line (counted m self) archive n = extract_line self archive n.
Proof. unfold counted. destruct (parallel self), m; reflexivity. Qed.

(** When the extraction exits with a status other than zero, the archive
    job prints Failed after Started and converts no member: the listing
    and the extraction are the only processes; the temporary directory is
    cleaned up and the completed extraction is returned. *)
Theorem convert_archive_extraction_failure (archive : File) (job_index : Z)
  (self : App) (w : World) (l : list File) (self1 : App) (w1 : World) (n : string) :
  listing_from_archive run_process mkdtemp archive (counted Started self)
    (print (job_line self Started (input archive) job_index) w)
  = (Ok l, self1, w1) ->
  archive_members l <> [] ->
  tempdir archive = Some n ->
  let sp := convert_spawn self (extract_line self archive n) in
  returncode (fst (run_process (procs w1) sp (fs w1))) <> 0 ->
  exists self' w',
    convert_archive run_process mkdtemp archive job_index self w
    = (Ok (Some (fst (run_process (procs w1) sp (fs w1)))), self', w')
    /\ out w' = out w ++ [job_line self Started (input archive) job_index;
                          job_line self Failed (output archive) job_index]
    /\ procs w' = procs w ++ [listing_spawn self archive; sp]
    /\ is_extraction sp = true
    /\ ~ In n (tempdirs w').
Proof.
  intros E M T sp Hrc.
  destruct (listing_from_archive_frame run_process mkdtemp archive
              (counted Started self)
              (print (job_line self Started (input archive) job_index) w))
    as (r & tds & E' & _ & _).
  rewrite E in E'. injection E' as E1 E2 E3. subst r self1.
  rewrite listing_spawn_counted in E3. cbn [fs tempdirs procs out print] in E3.
  assert (P1 : procs w1 = procs w ++ [listing_spawn self archive])
    by (rewrite E3; reflexivity).
  assert (O1 : out w1 = out w ++ [job_line self Started (input archive) job_index])
    by (rewrite E3; reflexivity).
  clear E3.
  unfold convert_archive.
  unfold bind at 1. unfold message_job at 1.
  fold (path_msg self (input archive)).
  fold (job_line self Started (input archive) job_index).
  fold (counted Started self).
  unfold bind at 1. rewrite E.
  destruct (archive_members l) as [ | file members]; [contradiction | ].
  unfold bind at 1. rewrite extract_command_eq, T.
  unfold bind at 1. rewrite run_convert_process_eq.
  rewrite extract_line_counted, convert_spawn_counted. fold sp.
  assert (Z0 : (returncode (fst (run_process (procs w1) sp (fs w1))) =? 0) = false)
    by (apply Z.eqb_neq; exact Hrc).
  rewrite Z0. unfold tempdir_name. rewrite T. run_monad.
  eexists; eexists. split; [reflexivity | ].
  cbn [out procs tempdirs print].
  split; [rewrite O1, <- app_assoc; unfold job_line, path_msg, counted;
          destruct (parallel self); reflexivity | ].
  split; [rewrite P1, <- app_assoc; reflexivity | ].
  split; [reflexivity | apply not_in_filter_neq].
Qed.

End Extraction.

(** A witness: a 7z that lists the member of /d/game.7z and fails to
    extract it. *)
Lemma convert_archive_extraction_failure_witness :
  exists self' w',
    convert_archive
      (fun _ sp f => if String.eqb (subcommand sp) "l"
                     then (mkCompleted 0 example_listing, f)
                     else (mkCompleted 2 "", f))
      example_mkdtemp example_game 1
      (example_app mode_cd false false false) example_world0
    = (Ok (Some (mkCompleted 2 "")), self', w')
    /\ map ev_message (out w') = [Started; Failed]
    /\ map subcommand (procs w') = ["l"; "x"]
    /\ ~ In "/d/tmp0" (tempdirs w').
Proof.
  destruct (convert_archive_extraction_failure
              (fun _ sp f => if String.eqb (subcommand sp) "l"
                             then (mkCompleted 0 example_listing, f)
                             else (mkCompleted 2 "", f))
              example_mkdtemp example_game 1
              (example_app mode_cd false false false) example_world0
              [entry "/d/tmp0/track.iso"]
              (counted Started (example_app mode_cd false false false))
              (mkWorld [(Path_of_string "/d/game.7z", 10)] ["/d/tmp0"]
                 [listing_spawn (example_app mode_cd false false false) example_game]
                 [job_line (example_app mode_cd false false false) Started
                    (input example_game) 1])
              "/d/tmp0")
    as (self' & w' & E & O & P & _ & T).
  - reflexivity.
  - discriminate.
  - reflexivity.
  - vm_compute. discriminate.
  - exists self', w'. split; [exact E | ]. rewrite O, P.
    split; [reflexivity | ]. split; [reflexivity | exact T].
Defined.

(** ** The attributes of a file *)

Lemma length_append (s t : string) :
  String.length (s ++ t) = (String.length s + String.length t)%nat.
Proof. induction s as [ | a s IH]; [reflexivity | simpl; rewrite IH; reflexivity]. Qed.

Lemma rfind_append (c : ascii) (s t : string) :
  rfind c t = None -> rfind c (s ++ String c t) = Some (String.length s).
Proof.
  intros H. induction s as [ | a s IH].
  - simpl. rewrite H, Ascii.eqb_refl. reflexivity.
  - simpl. rewrite IH. reflexivity.
Qed.

Lemma substring_append_tail (s t : string) :
  substring (String.length s) (String.length t) (s ++ t) = t.
Proof.
  induction s as [ | a s IH]; [ | exact IH].
  simpl. induction t as [ | b t IHt]; [reflexivity | ].
  simpl. rewrite IHt. reflexivity.
Qed.

Lemma length_substring (i k : nat) (s : string) :
  (i + k <= String.length s)%nat -> String.length (substring i k s) = k.
Proof.
  revert i k. induction s as [ | a s IH]; intros i k H.
  - simpl in H. assert (i = O) by lia. assert (k = O) by lia. subst. reflexivity.
  - destruct i as [ | i].
    + destruct k as [ | k]; [reflexivity | ].
      simpl. f_equal. apply (IH O k). simpl in H. lia.
    + simpl. apply IH. simpl in H. lia.
Qed.

Lemma length_zero (s : string) : String.length s = O -> s = "".
Proof. destruct s; [reflexivity | discriminate]. Qed.

(** The part of a name before its suffix is never empty. *)
Lemma stem_not_empty (p : Path) :
  name p <> "" ->
  (0 < String.length
         (if String.eqb (suffix p) "" then name p
          else substring 0 (String.length (name p) - String.length (suffix p))
                         (name p)))%nat.
Proof.
  intros N.
  assert (L : (0 < String.length (name p))%nat).
  { destruct (name p); [contradiction | simpl; lia]. }
  destruct (String.eqb_spec (suffix p) "") as [E | E]; [exact L | ].
  unfold suffix in *.
  destruct (rfind "." (name p)) as [i | ]; [ | contradiction].
  destruct (Nat.ltb_spec 0 i) as [H1 | H1]; [ | contradiction].
  destruct (Nat.ltb_spec i (String.length (name p) - 1)) as [H2 | H2];
    [ | contradiction].
  cbn [andb] in *.
  rewrite (length_substring i (String.length (name p) - i) (name p)) by lia.
  rewrite length_substring by lia. lia.
Qed.

Lemma name_with_last (a : bool) (ps : list string) (n : string) :
  name (mkPath a (ps ++ [n])) = n.
Proof. unfold name. cbn [parts]. apply last_last. Qed.

Lemma suffix_of_chd (a : bool) (ps : list string) (stem : string) :
  (0 < String.length stem)%nat ->
  suffix (mkPath a (ps ++ [(stem ++ ".chd")%string])) = ".chd".
Proof.
  intros L. unfold suffix. rewrite name_with_last.
  change (stem ++ ".chd")%string with (stem ++ String "." "chd")%string.
  rewrite (rfind_append "." stem "chd" eq_refl).
  rewrite length_append. cbn [String.length].
  destruct (Nat.ltb_spec 0 (String.length stem)) as [_ | H]; [ | lia].
  destruct (Nat.ltb_spec (String.length stem) (String.length stem + 4 - 1))
    as [_ | H]; [ | lia].
  cbn [andb].
  replace (String.length stem + 4 - String.length stem)%nat
    with (String.length ".chd") by (cbn [String.length]; lia).
  apply substring_append_tail.
Qed.

(** [with_suffix(".chd")]: the result has the suffix .chd, the directory
    of the path, and no type. *)
Lemma with_suffix_chd (p o : Path) :
  with_suffix p ".chd" = Some o ->
  suffix o = ".chd" /\ parent o = parent p /\ match_type o = None.
Proof.
  unfold with_suffix. intros E.
  destruct (String.eqb_spec (name p) "") as [N | N]; [discriminate | ].
  injection E as <-.
  pose proof (stem_not_empty p N) as L.
  assert (S : suffix (mkPath (absolute p)
                        (removelast (parts p)
                         ++ [if String.eqb (suffix p) "" then (name p ++ ".chd")%string
                             else (substring 0 (String.length (name p)
                                                - String.length (suffix p)) (name p)
                                   ++ ".chd")%string])) = ".chd").
  { destruct (String.eqb (suffix p) ""); apply suffix_of_chd; exact L. }
  split; [exact S | ]. split.
  - unfold parent. cbn [absolute parts]. rewrite removelast_last. reflexivity.
  - unfold match_type. rewrite S. reflexivity.
Qed.

Lemma with_suffix_total (p : Path) :
  name p <> "" -> exists o, with_suffix p ".chd" = Some o.
Proof.
  intros N. unfold with_suffix.
  destruct (String.eqb_spec (name p) "") as [E | _]; [contradiction | ].
  eexists. reflexivity.
Qed.

(** [File.__init__] without an output directory, step by step. *)
Lemma File_init_eq (mkdtemp : FS -> list string -> Path -> option string)
  (p o : Path) (t : option Path) (self : App) (w : World) :
  with_suffix p ".chd" = Some o ->
  File_init mkdtemp p None t self w
  = match match_type p with
    | Some archive =>
        match mkdtemp (fs w) (tempdirs w)
                (match t with Some tp => tp | None => parent o end) with
        | Some n => (Ok (mkFile p o (Some archive) (Some n)), self,
                     mkWorld (fs w) (n :: tempdirs w) (procs w) (out w))
        | None => (Raise FileNotFoundError, self, w)
        end
    | ty => (Ok (mkFile p o ty None), self, w)
    end.
Proof.
  intros E. unfold File_init. rewrite E.
  destruct (match_type p) as [[ | | ] | ]; run_monad; try reflexivity.
  destruct (mkdtemp _ _ _); reflexivity.
Qed.

(** The attributes [File] gives to a path with a name, built without an
    output directory (as the members of an archive are, and the inputs
    when no output directory is configured).  The output has the suffix
    .chd, lies beside the input and has itself no type.  For a path that
    is not an archive the construction succeeds, with the type of the
    path and no temporary directory, and changes nothing.  For an archive
    the temporary directory is created under [temp_path] when there is
    one and beside the output otherwise: when that succeeds the file
    carries the new directory, which is added to the live ones; when it
    fails the construction raises [FileNotFoundError] and changes
    nothing. *)
Theorem File_init_attributes (mkdtemp : FS -> list string -> Path -> option string)
  (p : Path) (t : option Path) (self : App) (w : World) :
  name p <> "" ->
  exists o,
    suffix o = ".chd" /\ parent o = parent p /\ match_type o = None
    /\ (match_type p <> Some archive ->
        File_init mkdtemp p None t self w
        = (Ok (mkFile p o (match_type p) None), self, w))
    /\ (match_type p = Some archive ->
        forall n,
          mkdtemp (fs w) (tempdirs w)
            (match t with Some tp => tp | None => parent p end) = Some n ->
          File_init mkdtemp p None t self w
          = (Ok (mkFile p o (Some archive) (Some n)), self,
             mkWorld (fs w) (n :: tempdirs w) (procs w) (out w)))
    /\ (match_type p = Some archive ->
        mkdtemp (fs w) (tempdirs w)
          (match t with Some tp => tp | None => parent p end) = None ->
        File_init mkdtemp p None t self w = (Raise FileNotFoundError, self, w)).
Proof.
  intros N. destruct (with_suffix_total p N) as [o Eo].
  destruct (with_suffix_chd p o Eo) as (S & Pa & Mt).
  exists o. split; [exact S | ]. split; [exact Pa | ]. split; [exact Mt | ].
  rewrite (File_init_eq mkdtemp p o t self w Eo). rewrite Pa.
  split; [ | split].
  - intros T. destruct (match_type p) as [[ | | ] | ]; try reflexivity.
    contradiction.
  - intros T n E. rewrite T, E. reflexivity.
  - intros T E. rewrite T, E. reflexivity.
Qed.

(** A witness: an archive in upper case, without a configured temporary
    path, in a directory that is there and in one that is not. *)
Lemma File_init_attributes_witness :
  (exists o,
      suffix o = ".chd" /\ parent o = Path_of_string "/roms"
      /\ File_init example_mkdtemp (Path_of_string "/roms/Game.v2.ZIP") None None
           (example_app mode_cd false false false) (example_world [] [])
         = (Ok (mkFile (Path_of_string "/roms/Game.v2.ZIP") o (Some archive)
                       (Some "/roms/tmp0")),
            example_app mode_cd false false false,
            example_world [] ["/roms/tmp0"]))
  /\ File_init example_mkdtemp (Path_of_string "/d/tmp0/sub/inner.zip") None None
       (example_app mode_cd false false false) (example_world [] ["/d/tmp0"])
     = (Raise FileNotFoundError, example_app mode_cd false false false,
        example_world [] ["/d/tmp0"]).
Proof.
  split.
  - destruct (File_init_attributes example_mkdtemp
                (Path_of_string "/roms/Game.v2.ZIP") None
                (example_app mode_cd false false false) (example_world [] []))
      as (o & S & Pa & _ & _ & E & _); [discriminate | ].
    exists o. split; [exact S | ]. split; [exact Pa | ].
    exact (E eq_refl "/roms/tmp0" eq_refl).
  - destruct (File_init_attributes example_mkdtemp
                (Path_of_string "/d/tmp0/sub/inner.zip") None
                (example_app mode_cd false false false)
                (example_world [] ["/d/tmp0"]))
      as (o & _ & _ & _ & _ & _ & E); [discriminate | ].
    exact (E eq_refl eq_refl).
Defined.

(** ** The listing of an archive *)

Lemma append_nil_r (s : string) : (s ++ "")%string = s.
Proof. induction s as [ | a s IH]; [reflexivity | simpl; rewrite IH; reflexivity]. Qed.

Lemma append_assoc (s t u : string) : ((s ++ t) ++ u)%string = (s ++ (t ++ u))%string.
Proof. induction s as [ | a s IH]; [reflexivity | simpl; rewrite IH; reflexivity]. Qed.

Lemma rev_string_acc (acc s : string) :
  rev_string acc s = (rev_string "" s ++ acc)%string.
Proof.
  revert acc. induction s as [ | a s IH]; intros acc; [reflexivity | ].
  simpl. rewrite (IH (String a acc)), (IH (String a "")), append_assoc. reflexivity.
Qed.

(** Splitting at a separator: a piece without the separator, followed by
    the separator, is the first piece. *)
Lemma split_on_piece (c : ascii) (s rest cur : string) :
  contains_char c s = false ->
  split_on c cur (s ++ String c rest)
  = (rev_string "" cur ++ s)%string :: split_on c "" rest.
Proof.
  revert cur. induction s as [ | a s IH]; intros cur H.
  - simpl. rewrite Ascii.eqb_refl, append_nil_r. reflexivity.
  - simpl in H. apply orb_false_iff in H. destruct H as [H1 H2].
    simpl. rewrite H1, (IH (String a cur) H2). f_equal.
    simpl. rewrite (rev_string_acc (String a "") cur), append_assoc. reflexivity.
Qed.

Lemma split_on_last (c : ascii) (s cur : string) :
  contains_char c s = false ->
  split_on c cur s = [(rev_string "" cur ++ s)%string].
Proof.
  revert cur. induction s as [ | a s IH]; intros cur H.
  - simpl. rewrite append_nil_r. reflexivity.
  - simpl in H. apply orb_false_iff in H. destruct H as [H1 H2].
    simpl. rewrite H1, (IH (String a cur) H2). f_equal.
    simpl. rewrite (rev_string_acc (String a "") cur), append_assoc. reflexivity.
Qed.

(** The lines of a text are found again. *)
Lemma split_unlines (line : string) (lines : list string) :
  Forall (fun s => contains_char "010" s = false) (line :: lines) ->
  split "010" (unlines (line :: lines)) = line :: lines.
Proof.
  revert line. induction lines as [ | l2 lines IH]; intros line H.
  - inversion H as [ | ? ? H1 _]; subst. unfold unlines, split. simpl.
    apply (split_on_last "010" line "" H1).
  - inversion H as [ | ? ? H1 H2]; subst.
    unfold unlines, split in *.
    change (split_on "010" "" (line ++ String "010" (join "
" (l2 :: lines))) = line :: l2 :: lines).
    rewrite (split_on_piece "010" line _ "" H1). f_equal. apply IH. exact H2.
Qed.

(** [findall_Path] works line by line. *)
Lemma findall_Path_unlines (lines : list string) :
  Forall (fun s => contains_char "010" s = false) lines ->
  findall_Path (unlines lines) = flat_map captured lines.
Proof.
  intros H. destruct lines as [ | line lines]; [reflexivity | ].
  unfold findall_Path. rewrite (split_unlines line lines H). reflexivity.
Qed.

Lemma captured_path (e : string) :
  e <> "" -> captured ("Path = " ++ e) = [e].
Proof.
  intros N. unfold captured. simpl. destruct e as [ | a e]; [contradiction | ].
  destruct (prefix "Path = " (String "P" (String "a" (String "t" (String "h"
              (String " " (String "=" (String " " (String a e))))))))) eqn:E.
  - reflexivity.
  - simpl in E. repeat (destruct (ascii_dec _ _) as [_ | N']; [ | contradiction]).
    destruct e; discriminate.
Qed.

Lemma contains_char_append (c : ascii) (s t : string) :
  contains_char c (s ++ t) = contains_char c s || contains_char c t.
Proof.
  induction s as [ | a s IH]; [reflexivity | ].
  simpl. rewrite IH, orb_assoc. reflexivity.
Qed.

Lemma captured_other (a : string) : find_after "Path = " a = None -> captured a = [].
Proof. intros H. unfold captured. rewrite H. reflexivity. Qed.

(** The listing that 7z prints is read back.  For a text of blocks, each
    made of a line [Path = ] followed by a path that is not empty and of
    further lines that do not hold [Path = ], [findall_Path] returns the
    paths, in order. *)
Theorem findall_Path_blocks (blocks : list (string * list string)) :
  Forall (fun b =>
            fst b <> "" /\ contains_char "010" (fst b) = false
            /\ Forall (fun a => contains_char "010" a = false
                                /\ find_after "Path = " a = None) (snd b))
         blocks ->
  findall_Path (unlines (flat_map (fun b => ("Path = " ++ fst b)%string :: snd b) blocks))
  = map fst blocks.
Proof.
  intros H. rewrite findall_Path_unlines.
  - induction H as [ | [e attrs] blocks (N & _ & A) _ IH]; [reflexivity | ].
    cbn [flat_map map fst snd app] in *.
    rewrite flat_map_app, IH.
    change (flat_map captured (("Path = " ++ e)%string :: attrs))
      with (captured ("Path = " ++ e) ++ flat_map captured attrs).
    rewrite (captured_path e N).
    assert (E : flat_map captured attrs = []).
    { clear - A. cbn [snd] in A.
      induction A as [ | a rest [_ Ha] _ IHa]; [reflexivity | ].
      cbn [flat_map]. rewrite (captured_other a Ha), IHa. reflexivity. }
    rewrite E. reflexivity.
  - induction H as [ | [e attrs] blocks (_ & C & A) _ IH]; [constructor | ].
    cbn [flat_map fst snd]. apply Forall_app. split; [ | exact IH].
    constructor.
    + cbn [fst] in C. rewrite contains_char_append, C. reflexivity.
    + clear - A. cbn [snd] in A.
      induction A as [ | a rest [Ha _] _ IHa]; constructor; assumption.
Qed.

(** A witness: the listing of an archive with two members. *)
Lemma findall_Path_blocks_witness :
  findall_Path "Path = game.7z
Type = 7z

Path = disc/game.cue
Size = 100
Path = disc/game.bin"
  = ["game.7z"; "disc/game.cue"; "disc/game.bin"].
Proof.
  apply (findall_Path_blocks
           [("game.7z", ["Type = 7z"; ""]); ("disc/game.cue", ["Size = 100"]);
            ("disc/game.bin", [])]).
  repeat constructor; discriminate.
Defined.

Lemma File_init_inv (mkdtemp : FS -> list string -> Path -> option string)
  (p : Path) (d t : option Path) (self self' : App) (w w' : World) (f : File) :
  File_init mkdtemp p d t self w = (Ok f, self', w') ->
  input f = p /\ type f = match_type p
  /\ with_suffix (match d with
                  | Some dd => joinpath dd (Path_of_string (name p))
                  | None => p
                  end) ".chd" = Some (output f).
Proof.
  unfold File_init.
  destruct (with_suffix _ ".chd") as [o | ]; [ | discriminate].
  destruct (match_type p) as [[ | | ] | ]; run_monad;
    try (destruct (mkdtemp _ _ _); [ | discriminate]);
    intros E; injection E as <- _ _; repeat split.
Qed.

(** [mapM] over calls that return and change nothing, and up to a call
    that raises. *)
Lemma mapM_pure {A B : Type} (f : A -> M B) (g : A -> B) (l : list A)
  (self : App) (w : World) :
  Forall (fun a => f a self w = (Ok (g a), self, w)) l ->
  mapM f l self w = (Ok (map g l), self, w).
Proof.
  intros H. induction H as [ | a l Ha _ IH]; [reflexivity | ].
  cbn [mapM map]. unfold bind at 1. rewrite Ha.
  unfold bind at 1. rewrite IH. reflexivity.
Qed.

Lemma mapM_raise {A B : Type} (f : A -> M B) (g : A -> B) (pre post : list A)
  (a : A) (e : Exn) (self : App) (w : World) :
  Forall (fun a => f a self w = (Ok (g a), self, w)) pre ->
  f a self w = (Raise e, self, w) ->
  mapM f (pre ++ a :: post) self w = (Raise e, self, w).
Proof.
  intros H Ha. induction H as [ | b pre Hb _ IH].
  - cbn [app mapM]. unfold bind at 1. rewrite Ha. reflexivity.
  - cbn [app mapM]. unfold bind at 1. rewrite Hb.
    unfold bind at 1. rewrite IH. reflexivity.
Qed.

Section Listing.

Variable run_process : list Spawn -> Spawn -> FS -> CompletedProcess * FS.
Variable mkdtemp : FS -> list string -> Path -> option string.

(** [listing_from_archive], once the listing has been run. *)
Lemma listing_from_archive_eq (file : File) (self : App) (w : World) :
  let sp := listing_spawn self file in
  let c := fst (run_process (procs w) sp (fs w)) in
  let w1 := mkWorld (snd (run_process (procs w) sp (fs w))) (tempdirs w)
                    (procs w ++ [sp]) (out w) in
  listing_from_archive run_process mkdtemp file self w
  = if returncode c =? 0
    then mapM (fun entry =>
                 n <- tempdir_name file ;;
                 File_init mkdtemp (joinpath (Path_of_string n) (Path_of_string entry))
                   None None)
              (tl (findall_Path (stdout c))) self w1
    else (Ok [], self, w1).
Proof.
  intros sp c w1. unfold listing_from_archive.
  unfold bind at 1. unfold get_self at 1.
  unfold bind at 1. unfold subprocess_run. fold (listing_spawn self file). fold sp.
  unfold c, w1. destruct (run_process (procs w) sp (fs w)) as [c0 fs1].
  cbn [fst snd]. destruct (returncode c0 =? 0); reflexivity.
Qed.

Lemma member_built (n e : string) (self : App) (w : World) :
  plain_member n e ->
  File_init mkdtemp (member_path n e) None None self w = (Ok (member n e), self, w).
Proof.
  intros [N T]. destruct (with_suffix_total _ N) as [o Eo].
  rewrite (File_init_eq mkdtemp _ o None self w Eo).
  unfold member. rewrite Eo.
  destruct (match_type (member_path n e)) as [[ | | ] | ]; try reflexivity.
  contradiction.
Qed.

(** The members [listing_from_archive] returns, and when it raises.  It
    runs the listing and nothing else.  When the listing exits with a
    status other than zero there are no members.  Otherwise the entries
    are the paths of the listing but the first, each joined to the
    temporary directory of the archive and made a [File].  When no entry
    is itself an archive, the members are these files, in order, each with
    the type of its path and its output beside it.  The first entry that
    is an archive gets a temporary directory of its own beside it: when
    that directory cannot be created, as in a sub-directory of an archive
    that is not extracted yet, [FileNotFoundError] is raised. *)
Theorem listing_from_archive_files (file : File) (self : App) (w : World) (n : string) :
  let sp := listing_spawn self file in
  let c := fst (run_process (procs w) sp (fs w)) in
  let w1 := mkWorld (snd (run_process (procs w) sp (fs w))) (tempdirs w)
                    (procs w ++ [sp]) (out w) in
  let entries := tl (findall_Path (stdout c)) in
  (returncode c <> 0 ->
   listing_from_archive run_process mkdtemp file self w = (Ok [], self, w1))
  /\ (returncode c = 0 -> tempdir file = Some n ->
      Forall (plain_member n) entries ->
      listing_from_archive run_process mkdtemp file self w
      = (Ok (map (member n) entries), self, w1))
  /\ (returncode c = 0 -> tempdir file = Some n ->
      forall pre e post,
        entries = pre ++ e :: post ->
        Forall (plain_member n) pre ->
        name (member_path n e) <> "" ->
        match_type (member_path n e) = Some archive ->
        mkdtemp (fs w1) (tempdirs w1) (parent (member_path n e)) = None ->
        listing_from_archive run_process mkdtemp file self w
        = (Raise FileNotFoundError, self, w1)).
Proof.
  intros sp c w1 entries. rewrite (listing_from_archive_eq file self w).
  fold sp. fold c. fold w1. fold entries.
  split; [ | split].
  - intros N. destruct (Z.eqb_spec (returncode c) 0); [contradiction | reflexivity].
  - intros Z0 T P. rewrite Z0. cbn [Z.eqb].
    apply mapM_pure. unfold tempdir_name. rewrite T.
    eapply Forall_impl; [ | exact P].
    intros e Pe. unfold bind at 1. unfold ret at 1.
    apply (member_built n e self w1 Pe).
  - intros Z0 T pre e post E P N A D. rewrite Z0, E. cbn [Z.eqb].
    apply (mapM_raise _ (member n)).
    + unfold tempdir_name. rewrite T.
      eapply Forall_impl; [ | exact P].
      intros e0 Pe. unfold bind at 1. unfold ret at 1.
      apply (member_built n e0 self w1 Pe).
    + unfold tempdir_name. rewrite T. unfold bind at 1. unfold ret at 1.
      destruct (with_suffix_total _ N) as [o Eo].
      destruct (with_suffix_chd _ o Eo) as (_ & Pa & _).
      fold (member_path n e).
      rewrite (File_init_eq mkdtemp _ o None self w1 Eo), A, Pa, D. reflexivity.
Qed.

End Listing.

(** A witness: the listing of /d/game.7z, with the member track.iso and
    with an archive in a sub-directory. *)
Lemma listing_from_archive_files_witness :
  listing_from_archive example_tools example_mkdtemp example_game
    (example_app mode_cd false false false) example_world0
  = (Ok [member "/d/tmp0" "track.iso"], example_app mode_cd false false false,
     mkWorld [(Path_of_string "/d/game.7z", 10)] ["/d/tmp0"]
             [listing_spawn (example_app mode_cd false false false) example_game] [])
  /\ listing_from_archive (working_tools example_listing_nested [] 0) example_mkdtemp
       example_game (example_app mode_cd false false false) example_world0
     = (Raise FileNotFoundError, example_app mode_cd false false false,
        mkWorld [(Path_of_string "/d/game.7z", 10)] ["/d/tmp0"]
                [listing_spawn (example_app mode_cd false false false) example_game] []).
Proof.
  split.
  - apply (proj1 (proj2 (listing_from_archive_files example_tools example_mkdtemp
                           example_game (example_app mode_cd false false false)
                           example_world0 "/d/tmp0"))).
    + reflexivity.
    + reflexivity.
    + vm_compute. repeat constructor; discriminate.
  - apply (proj2 (proj2 (listing_from_archive_files
                           (working_tools example_listing_nested [] 0) example_mkdtemp
                           example_game (example_app mode_cd false false false)
                           example_world0 "/d/tmp0"))
             eq_refl eq_refl [] "sub/inner.zip" []).
    + reflexivity.
    + constructor.
    + vm_compute. discriminate.
    + reflexivity.
    + reflexivity.
Defined.

(** ** The discovery of the input files *)

Lemma path_of_valid_name (n : string) :
  valid_name n = true -> Path_of_string n = mkPath false [n].
Proof.
  unfold valid_name. intros H.
  apply andb_true_iff in H. destruct H as [H H3].
  apply andb_true_iff in H. destruct H as [H1 H2].
  apply negb_true_iff in H1, H2, H3.
  unfold Path_of_string, split.
  rewrite (split_on_last "/" n "" H2). cbn [rev_string append filter].
  rewrite H1, H3. cbn [orb negb]. f_equal.
  destruct n as [ | a n]; [reflexivity | ].
  cbn [contains_char] in H2. apply orb_false_iff in H2. destruct H2 as [H2 _].
  cbn [prefix]. destruct (ascii_dec "/" a) as [E | _]; [ | reflexivity].
  subst a. rewrite Ascii.eqb_refl in H2. discriminate.
Qed.

(** With an output directory, the output of a file lies in that directory
    under the name it has without one.  The two constructions are those of
    files that are built: for an archive, the temporary directory of each
    can be created, under [temp_path] when there is one, and otherwise in
    the output directory and beside the input. *)
Theorem File_init_output_dir (mkdtemp : FS -> list string -> Path -> option string)
  (p dir : Path) (t : option Path) (self : App) (w : World) :
  valid_name (name p) = true ->
  (match_type p = Some archive ->
   mkdtemp (fs w) (tempdirs w) (match t with Some tp => tp | None => dir end) <> None
   /\ mkdtemp (fs w) (tempdirs w) (match t with Some tp => tp | None => parent p end)
      <> None) ->
  exists f f0 w' w0,
    File_init mkdtemp p (Some dir) t self w = (Ok f, self, w')
    /\ File_init mkdtemp p None t self w = (Ok f0, self, w0)
    /\ parent (output f) = dir
    /\ name (output f) = name (output f0)
    /\ suffix (output f) = ".chd"
    /\ input f = p /\ type f = type f0.
Proof.
  intros V D.
  assert (N : name p <> "").
  { intros E. rewrite E in V. discriminate. }
  set (q := joinpath dir (Path_of_string (name p))).
  assert (Q : q = mkPath (absolute dir) (parts dir ++ [name p])).
  { unfold q. rewrite (path_of_valid_name _ V). reflexivity. }
  assert (Nq : name q = name p) by (rewrite Q; apply name_with_last).
  assert (Sq : suffix q = suffix p) by (unfold suffix; rewrite Nq; reflexivity).
  destruct (with_suffix_total p N) as [o0 E0].
  assert (N' : name q <> "") by (rewrite Nq; exact N).
  destruct (with_suffix_total q N') as [o E].
  destruct (with_suffix_chd q o E) as (S & Pa & _).
  assert (No : name o = name o0).
  { unfold with_suffix in E, E0. rewrite Nq, Sq in E.
    destruct (String.eqb (name p) ""); [discriminate | ].
    injection E as <-. injection E0 as <-. rewrite !name_with_last. reflexivity. }
  assert (Pq : parent q = dir).
  { rewrite Q. unfold parent. cbn [absolute parts]. rewrite removelast_last.
    destruct dir. reflexivity. }
  destruct (with_suffix_chd p o0 E0) as (_ & Pa0 & _).
  unfold File_init. fold q. rewrite E, E0.
  destruct (match_type p) as [[ | | ] | ]; run_monad;
    try (rewrite Pa, Pq, Pa0; destruct (D eq_refl) as [D1 D2];
         destruct (mkdtemp _ _ (match t with Some tp => tp | None => dir end));
         [ | contradiction];
         destruct (mkdtemp _ _ (match t with Some tp => tp | None => parent p end));
         [ | contradiction]);
    eexists; eexists; eexists; eexists;
    (split; [reflexivity | ]); (split; [reflexivity | ]);
    cbn [input output type];
    (split; [rewrite Pa; exact Pq | ]); (split; [exact No | ]);
    (split; [exact S | ]); split; reflexivity.
Qed.

(** A witness: an archive and the output directory /out. *)
Lemma File_init_output_dir_witness :
  exists f f0 w' w0,
    File_init example_mkdtemp (Path_of_string "/roms/a.zip")
      (Some (Path_of_string "/out")) None
      (example_app mode_cd false false false) (example_world [] [])
    = (Ok f, example_app mode_cd false false false, w')
    /\ File_init example_mkdtemp (Path_of_string "/roms/a.zip") None None
         (example_app mode_cd false false false) (example_world [] [])
       = (Ok f0, example_app mode_cd false false false, w0)
    /\ parent (output f) = Path_of_string "/out"
    /\ name (output f) = name (output f0)
    /\ suffix (output f) = ".chd"
    /\ input f = Path_of_string "/roms/a.zip" /\ type f = type f0.
Proof.
  apply (File_init_output_dir example_mkdtemp (Path_of_string "/roms/a.zip")
           (Path_of_string "/out") None (example_app mode_cd false false false)
           (example_world [] [])).
  - reflexivity.
  - intros _. vm_compute. split; discriminate.
Defined.

Section Discovered.

Variable mkdtemp : FS -> list string -> Path -> option string.
Variable fullpath : World -> string -> Path.
Variable is_dir : World -> Path -> bool.
Variable iterdir : World -> Path -> list Path.

(** [get_supported_file] changes the live temporary directories only; the
    file it returns is fit for the queue and has the path as its input. *)
Lemma get_supported_file_spec (path : Path) (self : App) (w : World) :
  exists r tds,
    get_supported_file mkdtemp path self w
    = (r, self, mkWorld (fs w) tds (procs w) (out w))
    /\ incl (tempdirs w) tds
    /\ (forall f, r = Ok (Some f) -> queued f /\ input f = path).
Proof.
  unfold get_supported_file. unfold bind at 1. unfold get_self at 1.
  unfold exclude_hidden. cbn [andb].
  destruct (prefix "." (name path)) eqn:Hd; cbn [negb].
  { destruct w as [f t ps o]. exists (Ok None), t.
    split; [reflexivity | ]. split; [apply incl_refl | ]. intros f0 E. discriminate. }
  unfold bind at 1.
  destruct (File_init_frame mkdtemp path (output_dir self) (temp_path self) self w)
    as (r & tds & E & I).
  pose proof (File_init_inv mkdtemp path (output_dir self) (temp_path self) self self w
                (mkWorld (fs w) tds (procs w) (out w))) as Inv.
  rewrite E in *. destruct r as [file | e].
  - destruct (Inv file eq_refl) as (I1 & I2 & I3).
    destruct (with_suffix_chd _ _ I3) as (S & _ & _).
    destruct (type file) as [ty | ] eqn:T.
    + exists (Ok (Some file)), tds. split; [reflexivity | ]. split; [exact I | ].
      intros f0 Ef. injection Ef as <-. split; [ | exact I1].
      unfold queued. rewrite I1, T, <- I2.
      split; [reflexivity | ]. split; [discriminate | ]. split; assumption.
    + exists (Ok None), tds. split; [reflexivity | ]. split; [exact I | ].
      intros f0 Ef. discriminate.
  - exists (Raise e), tds. split; [reflexivity | ]. split; [exact I | ].
    intros f0 Ef. discriminate.
Qed.

Lemma Forall_append_supported (P : File -> Prop) (l : list File) (s : option File) :
  Forall P l -> (forall f, s = Some f -> P f) -> Forall P (append_supported l s).
Proof.
  intros Hl Hs. destruct s as [f | ]; [ | exact Hl].
  apply Forall_app. split; [exact Hl | ]. constructor; [apply Hs; reflexivity | constructor].
Qed.

Lemma get_files_dir_spec (P : File -> Prop) (entries : list Path) :
  forall (new_list : list File) (self : App) (w : World),
    Forall P new_list ->
    (forall f, queued f -> In (input f) entries -> P f) ->
    exists r tds,
      get_files_dir mkdtemp entries new_list self w
      = (r, self, mkWorld (fs w) tds (procs w) (out w))
      /\ incl (tempdirs w) tds
      /\ (forall l, r = Ok l -> Forall P l).
Proof.
  induction entries as [ | p entries IH]; intros new_list self w Hl HP.
  - destruct w as [f t ps o]. exists (Ok new_list), t.
    split; [reflexivity | ]. split; [apply incl_refl | ].
    intros l E. injection E as <-. exact Hl.
  - cbn [get_files_dir]. unfold bind at 1.
    destruct (get_supported_file_spec p self w) as (r & tds & E & I & S).
    rewrite E. destruct r as [s | e].
    + destruct (IH (append_supported new_list s) self
                   (mkWorld (fs w) tds (procs w) (out w)))
        as (r' & tds' & E' & I' & S').
      * apply Forall_append_supported; [exact Hl | ].
        intros f Ef. subst s. destruct (S f eq_refl) as [Q Ip].
        apply HP; [exact Q | ]. rewrite Ip. left. reflexivity.
      * intros f Q Hin. apply HP; [exact Q | ]. right. exact Hin.
      * cbn [fs tempdirs procs out] in *. exists r', tds'.
        split; [exact E' | ]. split; [eapply incl_tran; eassumption | exact S'].
    + exists (Raise e), tds. split; [reflexivity | ]. split; [exact I | ].
      intros l El. discriminate.
Qed.

Lemma get_files_loop_spec (P : File -> Prop) (f0 : FS) (files : list string) :
  (forall f w0 file,
      queued f -> In file files -> fs w0 = f0 ->
      (input f = fullpath w0 file /\ fs_exists (input f) f0 = true)
      \/ (fs_exists (fullpath w0 file) f0 = false
          /\ is_dir w0 (fullpath w0 file) = true
          /\ In (input f) (iterdir w0 (fullpath w0 file))) ->
      P f) ->
  forall (new_list : list File) (self : App) (w : World),
    fs w = f0 ->
    Forall P new_list ->
    exists r tds,
      get_files_loop mkdtemp fullpath is_dir iterdir files new_list self w
      = (r, self, mkWorld (fs w) tds (procs w) (out w))
      /\ incl (tempdirs w) tds
      /\ (forall l, r = Ok l -> Forall P l).
Proof.
  induction files as [ | file files IH]; intros HP new_list self w Hw Hl.
  - destruct w as [f t ps o]. exists (Ok new_list), t.
    split; [reflexivity | ]. split; [apply incl_refl | ].
    intros l E. injection E as <-. exact Hl.
  - cbn [get_files_loop]. unfold bind at 1. unfold get_world at 1.
    unfold bind at 1.
    assert (HP' : forall f w0 file0,
               queued f -> In file0 files -> fs w0 = f0 ->
               (input f = fullpath w0 file0 /\ fs_exists (input f) f0 = true)
               \/ (fs_exists (fullpath w0 file0) f0 = false
                   /\ is_dir w0 (fullpath w0 file0) = true
                   /\ In (input f) (iterdir w0 (fullpath w0 file0))) ->
               P f).
    { intros f w0 file0 Q Hin. apply HP; [exact Q | right; exact Hin]. }
    assert (Step : exists r tds,
               (if fs_exists (fullpath w file) (fs w) then
                  (supported <- get_supported_file mkdtemp (fullpath w file) ;;
                   ret (append_supported new_list supported))%py
                else if is_dir w (fullpath w file)
                     then get_files_dir mkdtemp (iterdir w (fullpath w file)) new_list
                     else ret new_list) self w
               = (r, self, mkWorld (fs w) tds (procs w) (out w))
               /\ incl (tempdirs w) tds
               /\ (forall l, r = Ok l -> Forall P l)).
    { destruct (fs_exists (fullpath w file) (fs w)) eqn:X.
      - unfold bind at 1.
        destruct (get_supported_file_spec (fullpath w file) self w)
          as (r & tds & E & I & S).
        rewrite E. destruct r as [s | e].
        + exists (Ok (append_supported new_list s)), tds.
          split; [reflexivity | ]. split; [exact I | ].
          intros l El. injection El as <-.
          apply Forall_append_supported; [exact Hl | ].
          intros f Ef. subst s. destruct (S f eq_refl) as [Q Ip].
          apply (HP f w file Q (or_introl eq_refl) Hw). left.
          rewrite Ip, <- Hw. split; [reflexivity | exact X].
        + exists (Raise e), tds. split; [reflexivity | ]. split; [exact I | ].
          intros l El. discriminate.
      - destruct (is_dir w (fullpath w file)) eqn:D.
        + apply get_files_dir_spec; [exact Hl | ].
          intros f Q Hin. apply (HP f w file Q (or_introl eq_refl) Hw). right.
          rewrite <- Hw. auto.
        + destruct w as [fi t ps o]. exists (Ok new_list), t.
          split; [reflexivity | ]. split; [apply incl_refl | ].
          intros l El. injection El as <-. exact Hl. }
    destruct Step as (r & tds & E & I & S). rewrite E.
    destruct r as [new_list' | e].
    + destruct (IH HP' new_list' self (mkWorld (fs w) tds (procs w) (out w)) Hw
                   (S new_list' eq_refl))
        as (r' & tds' & E' & I' & S').
      cbn [fs tempdirs procs out] in *. exists r', tds'.
      split; [exact E' | ]. split; [eapply incl_tran; eassumption | exact S'].
    + exists (Raise e), tds. split; [reflexivity | ]. split; [exact I | ].
      intros l El. discriminate.
Qed.

(** The queue [get_files] builds.  The discovery runs no process, prints
    nothing, changes no file and no counter.  Every file of the queue has
    a supported type, a name that does not start with a dot and an output
    with the suffix .chd, and its input is a named file or an entry of the
    top level of a named directory.  The queue satisfies what the two
    filters ensure. *)
Theorem get_files_queue (files : list string) (self : App) (w : World) :
  exists r tds,
    get_files mkdtemp fullpath is_dir iterdir files self w
    = (r, self, mkWorld (fs w) tds (procs w) (out w))
    /\ incl (tempdirs w) tds
    /\ forall l, r = Ok l ->
         (forall f, In f l ->
            queued f
            /\ exists file w0,
                 In file files /\ fs w0 = fs w
                 /\ ((input f = fullpath w0 file /\ fs_exists (input f) (fs w) = true)
                     \/ (fs_exists (fullpath w0 file) (fs w) = false
                         /\ is_dir w0 (fullpath w0 file) = true
                         /\ In (input f) (iterdir w0 (fullpath w0 file)))))
         /\ (forall f g, In f l -> In g l ->
               suffix (input g) = ".gdi" -> parent (input g) = parent (input f) ->
               suffix (input f) = ".gdi")
         /\ (forall f g, In f l -> In g l ->
               type g = Some sheet -> parent (input g) = parent (input f) ->
               suffix (input f) <> ".iso").
Proof.
  set (P := fun f : File =>
              queued f
              /\ exists file w0,
                   In file files /\ fs w0 = fs w
                   /\ ((input f = fullpath w0 file /\ fs_exists (input f) (fs w) = true)
                       \/ (fs_exists (fullpath w0 file) (fs w) = false
                           /\ is_dir w0 (fullpath w0 file) = true
                           /\ In (input f) (iterdir w0 (fullpath w0 file))))).
  destruct (get_files_loop_spec P (fs w) files) with (new_list := @nil File)
                                                     (self := self) (w := w)
    as (r & tds & E & I & S).
  - intros f w0 file Q Hin Hw H. split; [exact Q | ]. exists file, w0. auto.
  - reflexivity.
  - constructor.
  - unfold get_files. unfold bind at 1. rewrite E.
    destruct r as [new_list | e].
    + exists (Ok (filter_images_in_sheet_dirs (filter_other_in_gdi_dirs new_list))), tds.
      split; [reflexivity | ]. split; [exact I | ].
      intros l El. injection El as <-.
      pose proof (S new_list eq_refl) as Hall. rewrite Forall_forall in Hall.
      assert (Inc : incl (filter_images_in_sheet_dirs (filter_other_in_gdi_dirs new_list))
                         new_list).
      { intros f H. apply filter_other_in_gdi_dirs_incl.
        apply filter_images_in_sheet_dirs_incl. exact H. }
      split; [ | split].
      * intros f Hf. apply Hall. apply Inc. exact Hf.
      * intros f g Hf Hg. apply (gdi_dirs_post new_list);
          apply filter_images_in_sheet_dirs_incl; assumption.
      * intros f g Hf Hg Tg. apply (sheet_dirs_post _ f g Hf Hg).
        unfold has_type. rewrite Tg. reflexivity.
    + exists (Raise e), tds. split; [reflexivity | ]. split; [exact I | ].
      intros l El. discriminate.
Qed.

End Discovered.

(** ** A parallel run, and a dry run *)

Lemma counted_parallel (m : Message) (self : App) :
  parallel self = true -> counted m self = self.
Proof. intros P. unfold counted. rewrite P. reflexivity. Qed.

Section ParallelRun.

Variable run_process : list Spawn -> Spawn -> FS -> CompletedProcess * FS.
Variable mkdtemp : FS -> list string -> Path -> option string.

Lemma convert_loop_parallel (file_list : list File) :
  forall (job_index : Z) (pool : list Job) (self : App) (w : World),
    parallel self = true ->
    exists pool' w',
      convert_loop run_process mkdtemp file_list job_index job_index pool self w
      = (Ok (job_index + Z.of_nat (List.length file_list), pool'), self, w')
      /\ procs w' = procs w /\ fs w' = fs w.
Proof.
  induction file_list as [ | file file_list IH]; intros job_index pool self w P.
  - exists pool, w. cbn [convert_loop List.length]. rewrite Z.add_0_r.
    repeat split.
  - cbn [convert_loop]. unfold bind at 1.
    assert (E : exists pool1 w1,
               convert_entry run_process mkdtemp file job_index pool self w
               = (Ok pool1, self, w1) /\ procs w1 = procs w /\ fs w1 = fs w).
    { rewrite convert_entry_eq, P.
      assert (S : exists pool1 w1,
                 (message_job Skipped (input file) job_index ;; ret pool)%py self w
                 = (Ok pool1, self, w1) /\ procs w1 = procs w /\ fs w1 = fs w).
      { unfold bind, message_job, ret. rewrite P. cbn [negb].
        eexists; eexists. split; [reflexivity | ]. split; reflexivity. }
      destruct (dry_run self || fs_exists (output file) (fs w)); [exact S | ].
      destruct (has_type image file || has_type sheet file);
        [eexists; eexists; split; [reflexivity | split; reflexivity] | ].
      destruct (has_type archive file); [ | exact S].
      eexists; eexists; split; [reflexivity | split; reflexivity]. }
    destruct E as (pool1 & w1 & E & P1 & F1). rewrite E.
    destruct (IH (job_index + 1) pool1 self w1 P) as (pool' & w' & E' & P' & F').
    exists pool', w'. rewrite E'. split.
    + replace (job_index + Z.of_nat (List.length (file :: file_list)))
        with (job_index + 1 + Z.of_nat (List.length file_list))
        by (cbn [List.length]; lia).
      reflexivity.
    + split; congruence.
Qed.

Lemma pool_join_returns (pool : list Job) :
  forall (self : App) (w : World),
    exists w', pool_join run_process mkdtemp pool self w = (Ok tt, self, w').
Proof.
  induction pool as [ | j pool IH]; intros self w.
  - exists w. reflexivity.
  - cbn [pool_join]. unfold bind at 1.
    assert (E : exists w1, run_job run_process mkdtemp j self w = (Ok tt, self, w1)).
    { unfold run_job. destruct j as [file job_index | file job_index].
      - destruct (convert_file _ _ _ _ _) as [[r s] w1]. eexists. reflexivity.
      - destruct (convert_archive _ _ _ _ _ _) as [[r s] w1]. eexists. reflexivity. }
    destruct E as [w1 E]. rewrite E. apply IH.
Qed.

(** In parallel mode [convert] always returns, with the index after the
    last entry, and leaves the application object as it was: the loop only
    prints Skipped or submits, and what a submitted job raises stays in a
    result that is never read. *)
Theorem convert_parallel_returns (file_list : list File) (start_index : Z)
  (self : App) (w : World) :
  parallel self = true ->
  exists w',
    convert run_process mkdtemp file_list start_index self w
    = (Ok (start_index + Z.of_nat (List.length file_list)), self, w').
Proof.
  intros P.
  destruct (convert_loop_parallel file_list start_index [] self w P)
    as (pool' & w1 & E & _ & _).
  unfold convert. unfold bind at 1. rewrite E.
  unfold bind at 1. unfold get_self at 1. rewrite P. cbn [snd fst].
  unfold bind at 1.
  destruct (pool_join_returns pool' self w1) as [w' E']. rewrite E'.
  exists w'. reflexivity.
Qed.

End ParallelRun.

(** A witness: in parallel mode under [auto], a run over an image whose
    input is gone returns 2; in serial mode it raises. *)
Lemma convert_parallel_returns_witness :
  (exists w',
      convert example_tools example_mkdtemp [entry "/d/a.iso"] 1
        (example_app mode_auto false true false) (example_world [] [])
      = (Ok (1 + Z.of_nat 1), example_app mode_auto false true false, w'))
  /\ result_of (convert example_tools example_mkdtemp [entry "/d/a.iso"] 1
                  (example_app mode_auto false false false) (example_world [] []))
     = Raise FileNotFoundError.
Proof.
  split; [ | reflexivity].
  apply (convert_parallel_returns example_tools example_mkdtemp [entry "/d/a.iso"] 1
           (example_app mode_auto false true false) (example_world [] [])).
  reflexivity.
Defined.

(** A witness of the dry run: an archive and an image. *)
Lemma convert_dry_run_witness :
  exists self' w',
    convert example_tools example_mkdtemp [example_game; entry "/d/x.iso"] 1
      (example_app mode_cd false false true) example_world0
    = (Ok (1 + Z.of_nat 2), self', w')
    /\ procs w' = procs example_world0 /\ fs w' = fs example_world0
    /\ map ev_message (out w')
       = map ev_message (out example_world0) ++ repeat Skipped 2.
Proof.
  apply (convert_dry_run example_tools example_mkdtemp
           [example_game; entry "/d/x.iso"] 1
           (example_app mode_cd false false true) example_world0).
  reflexivity.
Defined.

(** A witness of the discovery: the directory /roms and the file
    /x/solo.iso. *)
Lemma get_files_queue_witness :
  let run := get_files example_mkdtemp example_fullpath example_is_dir example_iterdir
               ["/roms"; "/x/solo.iso"; "/x/gone.iso"]
               (example_app mode_cd false false false)
               (example_world [(Path_of_string "/x/solo.iso", 3)] []) in
  result_of run
  = Ok [entry "/roms/b.cue"; entry "/roms/c.ISO"; entry "/x/solo.iso"]
  /\ exists r tds,
      run = (r, example_app mode_cd false false false,
             mkWorld [(Path_of_string "/x/solo.iso", 3)] tds [] [])
      /\ incl [] tds.
Proof.
  intros run. split; [reflexivity | ].
  destruct (get_files_queue example_mkdtemp example_fullpath example_is_dir
              example_iterdir ["/roms"; "/x/solo.iso"; "/x/gone.iso"]
              (example_app mode_cd false false false)
              (example_world [(Path_of_string "/x/solo.iso", 3)] []))
    as (r & tds & E & I & _).
  exists r, tds. split; [exact E | exact I].
Defined.

(** ** The queue and the entries that are skipped *)

Lemma settings_tally (evs : list Event) :
  forall self : App,
    dry_run (tally evs self) = dry_run self
    /\ forall p, path_msg (tally evs self) p = path_msg self p.
Proof.
  induction evs as [ | e evs IH]; intros self; [split; reflexivity | ].
  unfold tally in *. cbn [fold_left].
  destruct (IH (counted (ev_message e) self)) as [D N].
  rewrite D, dry_run_counted. split; [reflexivity | ].
  intros p. rewrite N. apply path_msg_counted.
Qed.

Section Queue.

Variable run_process : list Spawn -> Spawn -> FS -> CompletedProcess * FS.
Variable mkdtemp : FS -> list string -> Path -> option string.

(** The loop does not change the settings of the application object. *)
Lemma convert_loop_settings (file_list : list File) (job_index : Z) (pool : list Job)
  (self : App) (w : World) :
  let run := convert_loop run_process mkdtemp file_list job_index job_index pool
               self w in
  dry_run (app_of run) = dry_run self
  /\ forall p, path_msg (app_of run) p = path_msg self p.
Proof.
  intros run. destruct (parallel self) eqn:P.
  - unfold run.
    rewrite (keeps_convert_loop run_process mkdtemp file_list job_index job_index
               pool self w P).
    split; reflexivity.
  - destruct (convert_loop_serial run_process mkdtemp (fun _ => True)
                (fun _ _ => True) (fun _ _ => I)
                (fun file j pool0 self0 w0 P0 _ =>
                   trace_convert_entry run_process mkdtemp file j pool0 self0 w0 P0)
                file_list job_index pool self w P I)
      as (blocks & _ & St & _).
    fold run in St. rewrite St. apply settings_tally.
Qed.

(** The loop over a queue is the loop over its first entries, followed,
    when that returns, by the loop over the others. *)
Lemma convert_loop_app (l1 l2 : list File) :
  forall (job_index : Z) (pool : list Job) (self : App) (w : World),
    convert_loop run_process mkdtemp (l1 ++ l2) job_index job_index pool self w
    = match convert_loop run_process mkdtemp l1 job_index job_index pool self w with
      | (Ok (_, pool1), self1, w1) =>
          convert_loop run_process mkdtemp l2
            (job_index + Z.of_nat (List.length l1))
            (job_index + Z.of_nat (List.length l1)) pool1 self1 w1
      | (Raise e, self1, w1) => (Raise e, self1, w1)
      end.
Proof.
  induction l1 as [ | file l1 IH]; intros job_index pool self w.
  - cbn [app convert_loop List.length]. unfold ret. rewrite Z.add_0_r. reflexivity.
  - cbn [app convert_loop]. unfold bind.
    destruct (convert_entry run_process mkdtemp file job_index pool self w)
      as [[[pool' | e] self1] w1]; [ | reflexivity].
    rewrite IH.
    replace (job_index + Z.of_nat (List.length (file :: l1)))
      with (job_index + 1 + Z.of_nat (List.length l1))
      by (cbn [List.length]; lia).
    reflexivity.
Qed.

(** C6, for the entries the loop reaches.  Take an entry of the queue,
    after the entries [before] and before the entries [after]; its job
    index is the start index plus the number of entries before it.  In
    dry-run mode and in parallel mode the loop reaches it: the loop over
    the entries before it returns.  Whenever the loop reaches it, in
    dry-run mode or with its output path on disk at that time, [convert]
    prints Skipped for the entry with its job index and goes on with the
    entries after it: in between no process is run, nothing is submitted
    to the pool, and the files and the temporary directories stay as they
    are.  The body of the loop does so in whatever state it is run, as
    when workers of the pool have been at work in the meantime. *)
Theorem convert_skips_reached_entry (before : list File) (file : File)
  (after : list File) (start_index : Z) (self : App) (w : World) :
  let job_index := start_index + Z.of_nat (List.length before) in
  let reached := convert_loop run_process mkdtemp before start_index start_index []
                   self w in
  (dry_run self = true \/ parallel self = true ->
   exists r, result_of reached = Ok r)
  /\ (forall last pool,
        result_of reached = Ok (last, pool) ->
        dry_run self = true
        \/ fs_exists (output file) (fs (world_of reached)) = true ->
        let skipped := print (job_line self Skipped (input file) job_index)
                             (world_of reached) in
        convert run_process mkdtemp (before ++ file :: after) start_index self w
        = convert_tail run_process mkdtemp after (job_index + 1) pool
            (counted Skipped (app_of reached)) skipped
        /\ out skipped = out (world_of reached)
                         ++ [job_line self Skipped (input file) job_index]
        /\ procs skipped = procs (world_of reached)
        /\ fs skipped = fs (world_of reached)
        /\ tempdirs skipped = tempdirs (world_of reached))
  /\ (forall pool self0 w0,
        dry_run self0 = true \/ fs_exists (output file) (fs w0) = true ->
        convert_entry run_process mkdtemp file job_index pool self0 w0
        = (Ok pool, counted Skipped self0,
           print (job_line self0 Skipped (input file) job_index) w0)).
Proof.
  intros job_index reached.
  split; [ | split; [ | intros pool self0 w0 H; apply convert_entry_skipped_eq; exact H]].
  - intros [D | P].
    + destruct (convert_loop_dry_run run_process mkdtemp before start_index self w D)
        as (self' & w' & E & _).
      unfold reached. rewrite E. eexists. reflexivity.
    + destruct (convert_loop_parallel run_process mkdtemp before start_index []
                  self w P) as (pool' & w' & E & _).
      unfold reached. rewrite E. eexists. reflexivity.
  - intros last pool Hr H skipped.
    split; [ | repeat split].
    destruct (convert_loop_settings before start_index [] self w) as [D N].
    fold reached in D, N.
    unfold skipped, convert, convert_tail. unfold bind at 1 4.
    rewrite convert_loop_app. fold reached.
    destruct reached as [[r self1] w1].
    unfold result_of, app_of, world_of in *. cbn [fst snd] in *. subst r.
    cbn [convert_loop]. unfold bind at 1. fold job_index.
    rewrite (convert_entry_skipped_eq run_process mkdtemp file job_index pool self1 w1)
      by (rewrite D; exact H).
    unfold job_line. rewrite N. reflexivity.
Qed.

End Queue.

(** A witness: a serial run over /d/a.iso, which is converted, and
    /d/b.iso, whose output /d/b.chd is there. *)
Lemma convert_skips_reached_entry_witness :
  let self := example_app mode_cd false false false in
  let w := example_world [(Path_of_string "/d/a.iso", 5);
                          (Path_of_string "/d/b.iso", 7);
                          (Path_of_string "/d/b.chd", 2)] [] in
  let reached := convert_loop example_tools example_mkdtemp [entry "/d/a.iso"] 1 1 []
                   self w in
  let skipped := print (job_line self Skipped (input (entry "/d/b.iso")) 2)
                       (world_of reached) in
  convert example_tools example_mkdtemp [entry "/d/a.iso"; entry "/d/b.iso"] 1 self w
  = convert_tail example_tools example_mkdtemp [] 3 [] (counted Skipped (app_of reached))
      skipped
  /\ map ev_message (out skipped) = [Started; Completed; Skipped]
  /\ map ev_job_index (out skipped) = [1; 1; 2]
  /\ procs skipped = procs (world_of reached).
Proof.
  intros self w reached skipped.
  destruct (proj1 (proj2 (convert_skips_reached_entry example_tools example_mkdtemp
                            [entry "/d/a.iso"] (entry "/d/b.iso") [] 1 self w))
              2 [] eq_refl (or_intror eq_refl))
    as (E & _ & P & _).
  split; [exact E | ]. split; [reflexivity | ]. split; [reflexivity | exact P].
Defined.

(** Against C6 as stated: in a serial run under [auto] the queue
    holds /d/a.iso, whose input is gone, and /d/b.iso, whose output
    /d/b.chd is on disk before the run and after it.  The first job raises
    [FileNotFoundError], which ends the run: the second entry gets no
    line, Skipped or other. *)
Lemma serial_exception_leaves_entry_unskipped :
  let self := example_app mode_auto false false false in
  let w := example_world [(Path_of_string "/d/b.iso", 7);
                          (Path_of_string "/d/b.chd", 2)] [] in
  let run := convert example_tools example_mkdtemp
               [entry "/d/a.iso"; entry "/d/b.iso"] 1 self w in
  dry_run self = false
  /\ fs_exists (output (entry "/d/b.iso")) (fs w) = true
  /\ fs_exists (output (entry "/d/b.iso")) (fs (world_of run)) = true
  /\ result_of run = Raise FileNotFoundError
  /\ out (world_of run) = [job_line self Started (input (entry "/d/a.iso")) 1]
  /\ ~ In Skipped (map ev_message (out (world_of run))).
Proof.
  vm_compute. repeat split. intros [H | []]. discriminate.
Qed.
